(** * ChibiOS/RT on ARM Cortex-M: port layer and HAL drivers

    A shallow embedding of
      - os/ports/GCC/ARMCMx/chcore_v7m.c   (ARMv7-M port, C with inline asm)
      - os/ports/IAR/ARMCMx/chcoreasm_v6m.s (ARMv6-M port, assembler)
      - os/hal/src/mmc_spi.c               (MMC over SPI driver)
      - os/hal/src/i2c.c                   (I2C driver, bus guard)
    and the properties of the kernel substrate stated about them. *)

From Stdlib Require Import ZArith List Bool Lia.
Import ListNotations.
Open Scope Z_scope.

(* ===================================================================== *)
(** ** Build-time configuration *)
(* ===================================================================== *)

(** The port and the drivers are configured by preprocessor symbols whose
    definitions live in headers (chconf.h, chcore_v7m.h, nvic.h, mmc_spi.h),
    and the port stores the addresses of two of its routines in saved
    contexts. They are collected in one record; every function below takes
    the configuration it is compiled and linked under. *)
Record Config := {
  CORTEX_USE_FPU              : bool;
  CORTEX_SIMPLIFIED_PRIORITY  : bool;
  CORTEX_ALTERNATE_SWITCH     : bool;
  CH_DBG_SYSTEM_STATE_CHECK   : bool;
  CORTEX_BASEPRI_KERNEL       : Z;
  CORTEX_BASEPRI_DISABLED     : Z;
  ICSR_RETTOBASE              : Z;
  ICSR_PENDSVSET              : Z;
  FPCCR_LSPACT                : Z;
  EXTCTX_SIZE                 : Z;      (* sizeof (struct extctx) *)
  sym_port_thread_start       : Z;      (* address of _port_thread_start *)
  sym_port_switch_from_isr    : Z;      (* address of _port_switch_from_isr *)
  CH_USE_MUTEXES              : bool;
  CH_USE_SEMAPHORES           : bool;
  MMC_POLLING_INTERVAL        : Z;
  MMC_POLLING_DELAY           : Z;
  MMC_WAIT_DATA               : Z;
  MMC_SECTOR_SIZE             : Z;
  MMC_NICE_WAITING            : bool;   (* #ifdef MMC_NICE_WAITING *)
  MS2ST                       : Z -> Z  (* milliseconds to system ticks *)
}.

(** The values of a Cortex-M4 build with four priority bits and the default
    driver settings; used for the concrete runs. *)
Definition stm32f4_config (fpu : bool) : Config := {|
  CORTEX_USE_FPU := fpu;
  CORTEX_SIMPLIFIED_PRIORITY := false;
  CORTEX_ALTERNATE_SWITCH := false;
  CH_DBG_SYSTEM_STATE_CHECK := false;
  CORTEX_BASEPRI_KERNEL := 0x20;
  CORTEX_BASEPRI_DISABLED := 0;
  ICSR_RETTOBASE := 0x800;
  ICSR_PENDSVSET := 0x10000000;
  FPCCR_LSPACT := 1;
  EXTCTX_SIZE := 32;
  sym_port_thread_start := 0x08000401;
  sym_port_switch_from_isr := 0x08000421;
  CH_USE_MUTEXES := true;
  CH_USE_SEMAPHORES := true;
  MMC_POLLING_INTERVAL := 10;
  MMC_POLLING_DELAY := 10;
  MMC_WAIT_DATA := 10000;
  MMC_SECTOR_SIZE := 512;
  MMC_NICE_WAITING := false;
  MS2ST := fun ms => (ms * 1000 - 1) / 1000 + 1
|}.

(* ===================================================================== *)
(** ** The register machine the context switch runs on *)
(* ===================================================================== *)

Module ARM.

(** 32-bit wrap-around of addresses and of the stack pointer. *)
Definition wrap32 (x : Z) : Z := x mod 2 ^ 32.

Inductive reg : Type :=
  | R0 | R1 | R2 | R3 | R4 | R5 | R6 | R7
  | R8 | R9 | R10 | R11 | R12 | SP | LR | PC.

Definition reg_eqb (a b : reg) : bool :=
  match a, b with
  | R0, R0 | R1, R1 | R2, R2 | R3, R3 | R4, R4 | R5, R5 | R6, R6 | R7, R7
  | R8, R8 | R9, R9 | R10, R10 | R11, R11 | R12, R12
  | SP, SP | LR, LR | PC, PC => true
  | _, _ => false
  end.

(** Memory holds one 32-bit word per word-aligned byte address; the stack
    pointer and the thread structures are word aligned, so words never
    overlap partially. *)
Definition memory := Z -> Z.

Definition store (a v : Z) (mm : memory) : memory :=
  fun x => if x =? wrap32 a then v else mm x.

Definition load (a : Z) (mm : memory) : Z := mm (wrap32 a).

Record machine := {
  regs : reg -> Z;          (* core registers *)
  fp   : nat -> Z;          (* s0 .. s31 *)
  mem  : memory
}.

Definition set_reg (r : reg) (v : Z) (m : machine) : machine :=
  {| regs := fun x => if reg_eqb x r then v else regs m x;
     fp := fp m; mem := mem m |}.

Definition set_fp (i : nat) (v : Z) (m : machine) : machine :=
  {| regs := regs m;
     fp := fun x => if Nat.eqb x i then v else fp m x;
     mem := mem m |}.

Definition set_mem (mm : memory) (m : machine) : machine :=
  {| regs := regs m; fp := fp m; mem := mm |}.

(** The instructions used by the two context switch routines. *)
Inductive instr : Type :=
  | Push  (rl : list reg)              (* push {rl} *)
  | Pop   (rl : list reg)              (* pop  {rl} *)
  | Vpush (first count : nat)          (* vpush {s<first>-s<first+count-1>} *)
  | Vpop  (first count : nat)          (* vpop  {s<first>-s<first+count-1>} *)
  | Mov   (rd rm : reg)                (* mov rd, rm *)
  | Str   (rt rn : reg) (off : Z)      (* str rt, [rn, #off] *)
  | Ldr   (rt rn : reg) (off : Z).     (* ldr rt, [rn, #off] *)

(** Store the words [vs] at [a], [a+4], ... *)
Fixpoint store_list (a : Z) (vs : list Z) (mm : memory) : memory :=
  match vs with
  | [] => mm
  | v :: vs' => store_list (a + 4) vs' (store a v mm)
  end.

(** A write to the program counter is a branch; bit 0 of the loaded value
    selects the Thumb state and is not part of the address. *)
Definition branch_target (v : Z) : Z := Z.land v (Z.lnot 1).

Definition write_reg (r : reg) (v : Z) (m : machine) : machine :=
  match r with
  | PC => set_reg PC (branch_target v) m
  | _ => set_reg r v m
  end.

(** Load the registers of [rl] from [a], [a+4], ... *)
Fixpoint load_regs (a : Z) (rl : list reg) (mm : memory) (m : machine)
  : machine :=
  match rl with
  | [] => m
  | r :: rl' => load_regs (a + 4) rl' mm (write_reg r (load a mm) m)
  end.

Fixpoint load_fps (a : Z) (first count : nat) (mm : memory) (m : machine)
  : machine :=
  match count with
  | O => m
  | S c => load_fps (a + 4) (S first) c mm (set_fp first (load a mm) m)
  end.

Definition words (n : nat) : Z := 4 * Z.of_nat n.

(** One instruction. [push] stores the listed registers, lowest register
    at the lowest address, below the stack pointer and moves it down;
    [pop] is its inverse. *)
Definition step (i : instr) (m : machine) : machine :=
  match i with
  | Push rl =>
      let sp' := wrap32 (regs m SP - words (length rl)) in
      set_reg SP sp' (set_mem (store_list sp' (map (regs m) rl) (mem m)) m)
  | Pop rl =>
      let sp := regs m SP in
      load_regs sp rl (mem m) (set_reg SP (wrap32 (sp + words (length rl))) m)
  | Vpush first count =>
      let sp' := wrap32 (regs m SP - words count) in
      set_reg SP sp'
        (set_mem (store_list sp' (map (fp m) (seq first count)) (mem m)) m)
  | Vpop first count =>
      let sp := regs m SP in
      load_fps sp first count (mem m)
        (set_reg SP (wrap32 (sp + words count)) m)
  | Mov rd rm => write_reg rd (regs m rm) m
  | Str rt rn off =>
      set_mem (store (regs m rn + off) (regs m rt) (mem m)) m
  | Ldr rt rn off =>
      write_reg rt (load (regs m rn + off) (mem m)) m
  end.

(** Whether an instruction leaves the instruction sequence. *)
Definition is_branch (i : instr) : bool :=
  match i with
  | Pop rl => existsb (reg_eqb PC) rl
  | Mov rd _ | Ldr rd _ _ => reg_eqb rd PC
  | _ => false
  end.

(** A straight-line routine: the instructions run in order up to and
    including the first branch; what follows a branch is never reached. *)
Fixpoint exec (p : list instr) (m : machine) : machine :=
  match p with
  | [] => m
  | i :: p' => if is_branch i then step i m else exec p' (step i m)
  end.

End ARM.

(* ===================================================================== *)
(** ** Context switch: chcore_v7m.c and chcoreasm_v6m.s *)
(* ===================================================================== *)

Module Switch.
Import ARM.

(** Offset of the saved stack pointer ([p_ctx]) in the [Thread] structure:
    the [#12] of the inline assembler, [CONTEXT_OFFSET] in the v6m file. *)
Definition CONTEXT_OFFSET : Z := 12.

Definition callee_saved : list reg := [R4; R5; R6; R7; R8; R9; R10; R11].

(** [PUSH_CONTEXT()]: with the FPU, [vpush {s16-s31}] and then the core
    registers; without it the core registers only. *)
Definition PUSH_CONTEXT (cfg : Config) : list instr :=
  if CORTEX_USE_FPU cfg
  then [Vpush 16 16; Push (callee_saved ++ [LR])]
  else [Push (callee_saved ++ [LR])].

(** [POP_CONTEXT()]: with the FPU, the [pop] that loads [pc] comes first
    and [vpop {s16-s31}] is the statement after it. *)
Definition POP_CONTEXT (cfg : Config) : list instr :=
  if CORTEX_USE_FPU cfg
  then [Pop (callee_saved ++ [PC]); Vpop 16 16]
  else [Pop (callee_saved ++ [PC])].

(** [_port_switch(ntp, otp)] of chcore_v7m.c. The function is naked:
    [ntp] is in r0 and [otp] in r1 when the first instruction runs. *)
Definition _port_switch (cfg : Config) : list instr :=
  PUSH_CONTEXT cfg
  ++ [Str SP R1 CONTEXT_OFFSET; Ldr SP R0 CONTEXT_OFFSET]
  ++ POP_CONTEXT cfg.

(** [_port_switch] of chcoreasm_v6m.s, instruction by instruction. *)
Definition _port_switch_v6m : list instr :=
  [ Push [R4; R5; R6; R7; LR];
    Mov R4 R8; Mov R5 R9; Mov R6 R10; Mov R7 R11;
    Push [R4; R5; R6; R7];
    Mov R3 SP;
    Str R3 R1 CONTEXT_OFFSET;
    Ldr R3 R0 CONTEXT_OFFSET;
    Mov SP R3;
    Pop [R4; R5; R6; R7];
    Mov R8 R4; Mov R9 R5; Mov R10 R6; Mov R11 R7;
    Pop [R4; R5; R6; R7; PC] ].

(** The word addresses [base], [base+4], ... of an [n]-word stack area. *)
Fixpoint area (base : Z) (n : nat) : list Z :=
  match n with
  | O => []
  | S k => wrap32 base :: area (base + 4) k
  end.

(** Address of the context slot of the thread structure at [tp]. *)
Definition ctx_slot (tp : Z) : Z := wrap32 (tp + CONTEXT_OFFSET).

(** Number of words [_port_switch] puts on the outgoing thread's stack. *)
Definition frame_words (cfg : Config) : nat :=
  if CORTEX_USE_FPU cfg then 25%nat else 9%nat.

(** What the outgoing thread leaves in memory when it is switched out from
    a state with stack pointer [sp] and thread structure [tp], and what
    must survive until it is switched in again: its stack frame and its
    context slot. *)
Definition saved_area (n : nat) (sp tp : Z) : list Z :=
  ctx_slot tp :: area (sp - words n) n.

(** Two machine states agree on a list of addresses. *)
Definition agree (l : list Z) (m1 m2 : machine) : Prop :=
  forall a, In a l -> mem m2 a = mem m1 a.

(** The second switch (out of the state [m2]) writes its own frame and its
    own context slot; they must be apart from what the first thread saved. *)
Definition apart (n : nat) (l : list Z) (m2 : machine) : Prop :=
  forall a, In a l -> ~ In a (saved_area n (regs m2 SP) (regs m2 R1)).

(** A concrete pair of threads: thread A (structure at 0x20000100, stack
    top 0x20001000) calls [_port_switch(B, A)]. *)
Definition threadA : Z := 0x20000100.
Definition threadB : Z := 0x20000200.

Definition regsA (r : reg) : Z :=
  match r with
  | R0 => threadB | R1 => threadA
  | R4 => 0x44 | R5 => 0x55 | R6 => 0x66 | R7 => 0x77
  | R8 => 0x88 | R9 => 0x99 | R10 => 0xAA | R11 => 0xBB
  | SP => 0x20001000 | LR => 0x08000101
  | _ => 0
  end.

Definition machineA : machine :=
  {| regs := regsA; fp := fun i => Z.of_nat i; mem := fun _ => 0 |}.

(** Thread B running later on its own stack (top 0x20002000), with other
    register contents, calls [_port_switch(A, B)]; memory is as the first
    switch left it. *)
Definition regsB (r : reg) : Z :=
  match r with
  | R0 => threadA | R1 => threadB
  | SP => 0x20002000 | LR => 0x08000201
  | _ => 0xDEAD
  end.

Definition machineB (after_first : machine) : machine :=
  {| regs := regsB; fp := fun _ => 0xF0; mem := mem after_first |}.

Definition saved_regs : list reg := callee_saved ++ [LR].

(** What a context switch routine [p] with an [n]-word frame does to the
    machine, in terms of the memory it leaves: [slot i] is the word of the
    frame that holds the [i]-th register of r4..r11, lr. *)
Record switch_contract (p : list instr) (n : nat) (slot : nat -> nat)
  : Prop := {
  sc_frame : forall m x,
    ~ In x (saved_area n (regs m SP) (regs m R1)) ->
    mem (exec p m) x = mem m x;
  sc_ctx : forall m,
    mem (exec p m) (ctx_slot (regs m R1)) = wrap32 (regs m SP - words n);
  sc_save : forall m i,
    ~ In (ctx_slot (regs m R1)) (area (regs m SP - words n) n) ->
    (i < 9)%nat ->
    mem (exec p m) (wrap32 (regs m SP - words n + words (slot i)))
    = regs m (nth i saved_regs R0);
  sc_slot : forall i, (i < 9)%nat -> (slot i < n)%nat;
  sc_restore : forall m i,
    (i < 8)%nat ->
    regs (exec p m) (nth i saved_regs R0)
    = mem (exec p m)
        (wrap32 (mem (exec p m) (ctx_slot (regs m R0)) + words (slot i)));
  sc_resume : forall m,
    regs (exec p m) PC
    = branch_target
        (mem (exec p m)
           (wrap32 (mem (exec p m) (ctx_slot (regs m R0)) + words (slot 8%nat))));
  sc_sp : forall m,
    regs (exec p m) SP
    = wrap32 (mem (exec p m) (ctx_slot (regs m R0)) + words 9)
}.

Definition slot_v7m (i : nat) : nat := i.

Definition slot_v6m (i : nat) : nat :=
  if (i <? 4)%nat then (i + 4)%nat
  else if (i <? 8)%nat then (i - 4)%nat else i.

End Switch.

(* ===================================================================== *)
(** ** The system the port and the drivers run in *)
(* ===================================================================== *)

Module Sys.
Import ARM.

(** Driver states of mmc_spi (enumeration of mmc_spi.h). *)
Inductive mmcstate_t : Type :=
  | MMC_UNINIT | MMC_STOP | MMC_WAIT | MMC_INSERTED
  | MMC_READY | MMC_READING | MMC_WRITING.

Definition mmcstate_eqb (a b : mmcstate_t) : bool :=
  match a, b with
  | MMC_UNINIT, MMC_UNINIT | MMC_STOP, MMC_STOP | MMC_WAIT, MMC_WAIT
  | MMC_INSERTED, MMC_INSERTED | MMC_READY, MMC_READY
  | MMC_READING, MMC_READING | MMC_WRITING, MMC_WRITING => true
  | _, _ => false
  end.

(** The fields of [MMCDriver] the modelled functions use. Its virtual
    timer [vt] is an entry of the system timer list, its SPI driver is the
    SPI bus of the system. *)
Record MMCDriver := {
  state : mmcstate_t;
  config : Z;
  cnt : Z;
  block_addresses : bool
}.

(** Virtual timer callbacks: [tmrfunc] of mmc_spi.c, and callbacks of
    other users of the timer subsystem, which are not modelled further. *)
Inductive vtfunc : Type :=
  | tmrfunc_cb
  | other_cb (k : nat).

Definition vtfunc_eqb (a b : vtfunc) : bool :=
  match a, b with
  | tmrfunc_cb, tmrfunc_cb => true
  | other_cb i, other_cb j => Nat.eqb i j
  | _, _ => false
  end.

(** An armed timer: ticks after the entry before it (delta), callback
    and parameter. *)
Record VirtualTimer := {
  vt_time : Z;
  vt_func : vtfunc;
  vt_par : Z
}.

Inductive evsource : Type := inserted_event | removed_event.

(** What the modelled code does that is visible outside of it. *)
Inductive event : Type :=
  | EvLock                                (* BASEPRI := kernel level *)
  | EvUnlock                              (* BASEPRI := disabled, or cpsie i *)
  | EvDbgCheckLock
  | EvDbgCheckUnlock
  | EvPreemptionRequired (answer : bool)  (* chSchIsPreemptionRequired() *)
  | EvReschedule                          (* chSchDoReschedule() *)
  | EvSvc                                 (* svc #0 *)
  | EvIcsr (v : Z)                        (* write to SCB_ICSR *)
  | EvCall (fn arg : Z)                   (* blx to a thread function *)
  | EvThdExit                             (* chThdExit() *)
  | EvCallback (f : vtfunc) (par : Z)     (* timer callback invoked *)
  | EvVTSetI (delay : Z) (f : vtfunc)
  | EvVTResetI (f : vtfunc)
  | EvBroadcastI (e : evsource)
  | EvSpiSelect | EvSpiUnselect | EvSpiStop
  | EvSpiStart (high_speed : bool)        (* spiStart with lscfg / hscfg *)
  | EvSpiSend (bytes : list Z)            (* spiSend *)
  | EvSleep (ticks : Z).                  (* chThdSleep *)

(** A trace entry: the event and the interrupt masking at that moment. *)
Record snap := {
  what : event;
  at_basepri : Z;
  at_primask : bool
}.

Record cpu := {
  core : machine;        (* core registers, FPU registers, memory *)
  basepri : Z;           (* BASEPRI *)
  primask : bool;        (* PRIMASK: true after cpsid i *)
  psp : Z;               (* process stack pointer *)
  icsr : Z;              (* SCB_ICSR *)
  fpccr : Z;             (* SCB_FPCCR *)
  fpcar : Z              (* SCB_FPCAR *)
}.

Record world := {
  hw : cpu;
  systime : nat;                 (* ticks since start *)
  vtlist : list VirtualTimer;    (* the system timer list, delta encoded *)
  mmc : MMCDriver;               (* the MMC driver object *)
  card : nat -> bool;            (* insertion sensor, by system time *)
  spi_rx : nat -> Z;             (* bytes the card shifts out, in order *)
  spi_pos : nat;                 (* bytes clocked so far *)
  trace : list snap
}.

Definition set_core (f : machine -> machine) (c : cpu) : cpu :=
  {| core := f (core c); basepri := basepri c; primask := primask c;
     psp := psp c; icsr := icsr c; fpccr := fpccr c; fpcar := fpcar c |}.

Definition set_basepri (v : Z) (c : cpu) : cpu :=
  {| core := core c; basepri := v; primask := primask c;
     psp := psp c; icsr := icsr c; fpccr := fpccr c; fpcar := fpcar c |}.

Definition set_primask (v : bool) (c : cpu) : cpu :=
  {| core := core c; basepri := basepri c; primask := v;
     psp := psp c; icsr := icsr c; fpccr := fpccr c; fpcar := fpcar c |}.

Definition set_psp (v : Z) (c : cpu) : cpu :=
  {| core := core c; basepri := basepri c; primask := primask c;
     psp := v; icsr := icsr c; fpccr := fpccr c; fpcar := fpcar c |}.

Definition set_icsr (v : Z) (c : cpu) : cpu :=
  {| core := core c; basepri := basepri c; primask := primask c;
     psp := psp c; icsr := v; fpccr := fpccr c; fpcar := fpcar c |}.

Definition set_fpccr (v : Z) (c : cpu) : cpu :=
  {| core := core c; basepri := basepri c; primask := primask c;
     psp := psp c; icsr := icsr c; fpccr := v; fpcar := fpcar c |}.

Definition set_fpcar (v : Z) (c : cpu) : cpu :=
  {| core := core c; basepri := basepri c; primask := primask c;
     psp := psp c; icsr := icsr c; fpccr := fpccr c; fpcar := v |}.

Definition on_hw (f : cpu -> cpu) (w : world) : world :=
  {| hw := f (hw w); systime := systime w; vtlist := vtlist w; mmc := mmc w;
     card := card w; spi_rx := spi_rx w; spi_pos := spi_pos w;
     trace := trace w |}.

Definition set_systime (t : nat) (w : world) : world :=
  {| hw := hw w; systime := t; vtlist := vtlist w; mmc := mmc w;
     card := card w; spi_rx := spi_rx w; spi_pos := spi_pos w;
     trace := trace w |}.

Definition set_vtlist (l : list VirtualTimer) (w : world) : world :=
  {| hw := hw w; systime := systime w; vtlist := l; mmc := mmc w;
     card := card w; spi_rx := spi_rx w; spi_pos := spi_pos w;
     trace := trace w |}.

Definition set_mmc (d : MMCDriver) (w : world) : world :=
  {| hw := hw w; systime := systime w; vtlist := vtlist w; mmc := d;
     card := card w; spi_rx := spi_rx w; spi_pos := spi_pos w;
     trace := trace w |}.

Definition set_spi_pos (n : nat) (w : world) : world :=
  {| hw := hw w; systime := systime w; vtlist := vtlist w; mmc := mmc w;
     card := card w; spi_rx := spi_rx w; spi_pos := n;
     trace := trace w |}.

(** Append an event, with the masking state it happens in. *)
Definition log (e : event) (w : world) : world :=
  {| hw := hw w; systime := systime w; vtlist := vtlist w; mmc := mmc w;
     card := card w; spi_rx := spi_rx w; spi_pos := spi_pos w;
     trace := trace w ++ [ {| what := e; at_basepri := basepri (hw w);
                              at_primask := primask (hw w) |} ] |}.

Definition reg_of (w : world) (r : reg) : Z := regs (core (hw w)) r.

Definition write (r : reg) (v : Z) (w : world) : world :=
  on_hw (set_core (set_reg r v)) w.

Definition poke (a v : Z) (w : world) : world :=
  on_hw (set_core (fun m => set_mem (store a v (mem m)) m)) w.

Definition peek (a : Z) (w : world) : Z := load a (mem (core (hw w))).

(** Driver field updates, as the assignments of the C code. *)
Definition set_state (s : mmcstate_t) (d : MMCDriver) : MMCDriver :=
  {| state := s; config := config d; cnt := cnt d;
     block_addresses := block_addresses d |}.

Definition set_cnt (c : Z) (d : MMCDriver) : MMCDriver :=
  {| state := state d; config := config d; cnt := c;
     block_addresses := block_addresses d |}.

Definition set_config (c : Z) (d : MMCDriver) : MMCDriver :=
  {| state := state d; config := c; cnt := cnt d;
     block_addresses := block_addresses d |}.

(** The kernel functions the port calls and the thread functions it
    starts are not part of the modelled files. The scheduler works on the
    kernel data in memory; a thread function may do anything, and may
    never return ([None]). *)
Record Env := {
  chSchIsPreemptionRequired : memory -> bool;
  chSchDoReschedule : memory -> memory;
  thread_fn : Z -> Z -> world -> option world
}.

End Sys.

(* ===================================================================== *)
(** ** System Lock: chcore_v7m.c *)
(* ===================================================================== *)

Module Lock.
Import ARM Sys.

(** [_port_lock()]: r3 := CORTEX_BASEPRI_KERNEL; msr BASEPRI, r3. *)
Definition _port_lock (cfg : Config) (w : world) : world :=
  let tmp := CORTEX_BASEPRI_KERNEL cfg in
  log EvLock (on_hw (set_basepri tmp) (write R3 tmp w)).

(** [_port_unlock()]: r3 := CORTEX_BASEPRI_DISABLED; msr BASEPRI, r3. *)
Definition _port_unlock (cfg : Config) (w : world) : world :=
  let tmp := CORTEX_BASEPRI_DISABLED cfg in
  log EvUnlock (on_hw (set_basepri tmp) (write R3 tmp w)).

(** Modelled from the spec: the macros [port_lock], [port_unlock],
    [port_lock_from_isr], [port_unlock_from_isr] (chcore_v7m.h) and
    [chSysLock], [chSysUnlock], [chSysLockFromIsr], [chSysUnlockFromIsr]
    (chsys.h) are not in the modelled files. The thread-context and the
    interrupt-context entry points converge to the same masking state,
    that of [_port_lock] and [_port_unlock]. *)
Definition port_lock := _port_lock.
Definition port_unlock := _port_unlock.
Definition port_lock_from_isr := _port_lock.
Definition port_unlock_from_isr := _port_unlock.
Definition chSysLock := _port_lock.
Definition chSysUnlock := _port_unlock.
Definition chSysLockFromIsr := _port_lock.
Definition chSysUnlockFromIsr := _port_unlock.

(** The System Lock is held when BASEPRI is at the kernel level. *)
Definition lock_held (cfg : Config) (w : world) : bool :=
  basepri (hw w) =? CORTEX_BASEPRI_KERNEL cfg.

(** ARMv7-M: a non-zero BASEPRI masks the interrupts whose priority value
    is greater than or equal to it (same or lower urgency); zero masks
    nothing. *)
Definition masked (w : world) (prio : Z) : bool :=
  negb (basepri (hw w) =? 0) && (basepri (hw w) <=? prio).

(** A trace entry made while the lock was held. *)
Definition under_lock (cfg : Config) (s : snap) : bool :=
  at_basepri s =? CORTEX_BASEPRI_KERNEL cfg.

End Lock.

(* ===================================================================== *)
(** ** Virtual timers *)
(* ===================================================================== *)

Module VT.
Import ARM Sys.

(** Modelled from the spec: [chVTSetI] (chvt.c is not in the modelled
    files). "armTimer(ticks, callback, arg) inserts a timer that fires
    after ticks periodic ticks; insertion maintains sort order by
    re-expressing ticks relative to neighboring entries (delta list)". A
    timer goes behind the timers that fire no later than it does. *)
Fixpoint vt_insert (t : Z) (f : vtfunc) (par : Z) (l : list VirtualTimer)
  : list VirtualTimer :=
  match l with
  | [] => [ {| vt_time := t; vt_func := f; vt_par := par |} ]
  | h :: tl =>
      if t <? vt_time h
      then {| vt_time := t; vt_func := f; vt_par := par |}
           :: {| vt_time := vt_time h - t; vt_func := vt_func h;
                 vt_par := vt_par h |} :: tl
      else h :: vt_insert (t - vt_time h) f par tl
  end.

Definition chVTSetI (delay : Z) (f : vtfunc) (par : Z) (w : world) : world :=
  set_vtlist (vt_insert delay f par (vtlist w)) (log (EvVTSetI delay f) w).

(** Modelled from the spec: [chVTResetI] (chvt.c is not in the modelled
    files). "cancelTimer(handle) removes an armed timer; canceling an
    already-fired or never-armed timer is a no-op". The handle is the
    timer object of its owner, here the owner's callback; the ticks of the
    removed entry go to the entry behind it. *)
Fixpoint vt_remove (f : vtfunc) (l : list VirtualTimer) : list VirtualTimer :=
  match l with
  | [] => []
  | h :: tl =>
      if vtfunc_eqb (vt_func h) f
      then match tl with
           | [] => []
           | n :: tl' =>
               {| vt_time := vt_time n + vt_time h; vt_func := vt_func n;
                  vt_par := vt_par n |} :: tl'
           end
      else h :: vt_remove f tl
  end.

Definition chVTResetI (f : vtfunc) (w : world) : world :=
  set_vtlist (vt_remove f (vtlist w)) (log (EvVTResetI f) w).

(** Whether the timer of callback [f] is armed. *)
Definition armed (f : vtfunc) (l : list VirtualTimer) : bool :=
  existsb (fun v => vtfunc_eqb (vt_func v) f) l.

(** Ticks until the timer of callback [f] fires: the sum of the deltas up
    to and including its entry. *)
Fixpoint expiry (f : vtfunc) (l : list VirtualTimer) : option Z :=
  match l with
  | [] => None
  | h :: tl =>
      if vtfunc_eqb (vt_func h) f then Some (vt_time h)
      else match expiry f tl with
           | Some e => Some (vt_time h + e)
           | None => None
           end
  end.

End VT.

(* ===================================================================== *)
(** ** MMC over SPI driver: mmc_spi.c *)
(* ===================================================================== *)

Module MMC.
Import ARM Sys Lock VT.

Definition TRUE : bool := true.
Definition FALSE : bool := false.

(** The SPI driver (spi.c) is an external collaborator outside the modelled
    files. The bus is full duplex: every byte clocked, whether the driver
    receives, sends or ignores, consumes the next byte the card shifts
    out. *)
Definition spiReceive (n : nat) (w : world) : list Z * world :=
  (map (spi_rx w) (seq (spi_pos w) n), set_spi_pos (spi_pos w + n) w).

Definition spiIgnore (n : nat) (w : world) : world :=
  set_spi_pos (spi_pos w + n) w.

Definition spiSelect (w : world) : world := log EvSpiSelect w.
Definition spiUnselect (w : world) : world := log EvSpiUnselect w.
Definition spiStop (w : world) : world := log EvSpiStop w.

(** [chThdSleep(time)]: the calling thread sleeps for [time] ticks. The
    kernel function is outside the modelled files; the sleep is an event
    of the trace. *)
Definition chThdSleep (ticks : Z) (w : world) : world :=
  log (EvSleep ticks) w.

(** The sleep in the waiting loops of [wait] and [sync]:
    [chThdSleep(1)], compiled under [#ifdef MMC_NICE_WAITING]. *)
Definition nice_sleep (cfg : Config) (w : world) : world :=
  if MMC_NICE_WAITING cfg then chThdSleep 1 w else w.

(** [mmcp->is_inserted()]: the insertion sensor, read now. *)
Definition is_inserted (w : world) : bool := card w (systime w).

(** The event sources have no listeners in the model; a broadcast is an
    event of the trace. *)
Definition chEvtBroadcastI (e : evsource) (w : world) : world :=
  log (EvBroadcastI e) w.

Definition on_mmc (f : MMCDriver -> MMCDriver) (w : world) : world :=
  set_mmc (f (mmc w)) w.

(** [tmrfunc(p)]: the insertion monitor timer callback. *)
Definition tmrfunc (cfg : Config) (p : Z) (w : world) : world :=
  let w := chSysLockFromIsr cfg w in
  let w :=
    if cnt (mmc w) >? 0 then
      if is_inserted w then
        let w := on_mmc (fun d => set_cnt (cnt d - 1) d) w in  (* --cnt *)
        if cnt (mmc w) =? 0 then
          chEvtBroadcastI inserted_event (on_mmc (set_state MMC_INSERTED) w)
        else w
      else on_mmc (set_cnt (MMC_POLLING_INTERVAL cfg)) w
    else
      if negb (is_inserted w) then
        chEvtBroadcastI removed_event
          (on_mmc (set_cnt (MMC_POLLING_INTERVAL cfg))
             (on_mmc (set_state MMC_WAIT) w))
      else w in
  let w := chVTSetI (MS2ST cfg (MMC_POLLING_DELAY cfg)) tmrfunc_cb p w in
  chSysUnlockFromIsr cfg w.

(** [recvr1(mmcp)]: up to nine one-byte receives; the first byte that is
    not 0xFF is the response, 0xFF after the ninth. *)
Fixpoint recvr1_loop (n : nat) (w : world) : Z * world :=
  match n with
  | O => (0xFF, w)
  | S k =>
      let (r1, w') := spiReceive 1 w in
      if negb (hd 0 r1 =? 0xFF) then (hd 0 r1, w') else recvr1_loop k w'
  end.

Definition recvr1 (w : world) : Z * world := recvr1_loop 9 w.

(** [sync(mmcp)]: receive until the card answers 0xFF; with
    [MMC_NICE_WAITING] the thread sleeps one tick after every other
    answer. The loop has no bound; [fuel] bounds the receives of one run,
    [None] is a run that needs more. *)
Fixpoint sync_loop (cfg : Config) (fuel : nat) (w : world) : option world :=
  match fuel with
  | O => None
  | S k =>
      let (buf, w') := spiReceive 1 w in
      if hd 0 buf =? 0xFF then Some w'
      else sync_loop cfg k (nice_sleep cfg w')
  end.

Definition sync (cfg : Config) (fuel : nat) (w : world) : option world :=
  match sync_loop cfg fuel (spiSelect w) with
  | Some w' => Some (spiUnselect w')
  | None => None
  end.

(** The parameter check and the state assertion of [mmcStart]. *)
Definition mmcStart_pre (config : Z) (w : world) : bool :=
  (config =? 0) && mmcstate_eqb (state (mmc w)) MMC_STOP.

(** [mmcStart(mmcp, config)]. *)
Definition mmcStart (cfg : Config) (p config : Z) (w : world) : world :=
  let w := chSysLock cfg w in
  let w := on_mmc (set_config config) w in
  let w := on_mmc (set_state MMC_WAIT) w in
  let w := on_mmc (set_cnt (MMC_POLLING_INTERVAL cfg)) w in
  let w := chVTSetI (MS2ST cfg (MMC_POLLING_DELAY cfg)) tmrfunc_cb p w in
  chSysUnlock cfg w.

(** The state assertion of [mmcStop]. *)
Definition mmcStop_pre (w : world) : bool :=
  negb (mmcstate_eqb (state (mmc w)) MMC_UNINIT)
  && negb (mmcstate_eqb (state (mmc w)) MMC_READING)
  && negb (mmcstate_eqb (state (mmc w)) MMC_WRITING).

(** [mmcStop(mmcp)]. *)
Definition mmcStop (cfg : Config) (w : world) : world :=
  let w := chSysLock cfg w in
  let w :=
    if negb (mmcstate_eqb (state (mmc w)) MMC_STOP) then
      chVTResetI tmrfunc_cb (on_mmc (set_state MMC_STOP) w)
    else w in
  let w := chSysUnlock cfg w in
  spiStop w.

(** The state assertion of [mmcDisconnect]. *)
Definition mmcDisconnect_pre (w : world) : bool :=
  negb (mmcstate_eqb (state (mmc w)) MMC_UNINIT)
  && negb (mmcstate_eqb (state (mmc w)) MMC_STOP).

(** The label of the [switch] in [mmcDisconnect] that a state selects:
    0 is [case MMC_READY], 1 is [case MMC_INSERTED], 2 is [default]. *)
Definition disconnect_label (s : mmcstate_t) : nat :=
  match s with
  | MMC_READY => 0
  | MMC_INSERTED => 1
  | _ => 2
  end.

(** [mmcDisconnect(mmcp)]. The [switch] has no [break]: control enters at
    the selected label and runs every statement group from there to the
    end. [status] is unassigned before the [switch]. *)
Definition mmcDisconnect (cfg : Config) (fuel : nat) (w : world)
  : option (bool * world) :=
  let entry := disconnect_label (state (mmc w)) in
  let status : option bool := None in
  (* case MMC_READY: *)
  let after_ready :=
    if (entry <=? 0)%nat then
      match sync cfg fuel w with
      | Some w =>
          let w := chSysLock cfg w in
          let w :=
            if mmcstate_eqb (state (mmc w)) MMC_READY
            then on_mmc (set_state MMC_INSERTED) w else w in
          Some (chSysUnlock cfg w)
      | None => None
      end
    else Some w in
  match after_ready with
  | None => None
  | Some w =>
      (* case MMC_INSERTED: *)
      let status := if (entry <=? 1)%nat then Some FALSE else status in
      (* default: *)
      let status := if (entry <=? 2)%nat then Some TRUE else status in
      let w := spiStop w in
      match status with
      | Some b => Some (b, w)
      | None => None
      end
  end.

(** Write [data] over the beginning of [buffer]. *)
Definition fill (data buffer : list Z) : list Z :=
  data ++ skipn (length data) buffer.

(** The receive loop of [mmcSequentialRead]: up to [n] attempts to see the
    data token 0xFE; on the token, the sector and the two CRC bytes. *)
Fixpoint read_loop (cfg : Config) (n : nat) (buffer : list Z) (w : world)
  : option (list Z * world) * (list Z * world) :=
  match n with
  | O => (None, (buffer, w))
  | S k =>
      let (b, w) := spiReceive 1 w in
      let buffer := fill b buffer in
      if hd 0 buffer =? 0xFE then
        let (data, w) := spiReceive (Z.to_nat (MMC_SECTOR_SIZE cfg)) w in
        let buffer := fill data buffer in
        let w := spiIgnore 2 w in              (* CRC ignored *)
        (Some (buffer, w), (buffer, w))
      else read_loop cfg k buffer w
  end.

(** [mmcSequentialRead(mmcp, buffer)]: status, buffer, system. *)
Definition mmcSequentialRead (cfg : Config) (buffer : list Z) (w : world)
  : bool * list Z * world :=
  let w := chSysLock cfg w in
  if negb (mmcstate_eqb (state (mmc w)) MMC_READING) then
    (TRUE, buffer, chSysUnlock cfg w)
  else
    let w := chSysUnlock cfg w in
    match read_loop cfg (Z.to_nat (MMC_WAIT_DATA cfg)) buffer w with
    | (Some (buffer, w), _) => (FALSE, buffer, w)
    | (None, (buffer, w)) =>
        (* Timeout. *)
        let w := spiUnselect w in
        let w := chSysLock cfg w in
        let w :=
          if mmcstate_eqb (state (mmc w)) MMC_READING
          then on_mmc (set_state MMC_READY) w else w in
        (TRUE, buffer, chSysUnlock cfg w)
    end.

End MMC.

(* ===================================================================== *)
(** ** Tick handler and interrupt exit: chcore_v7m.c, chcoreasm_v6m.s *)
(* ===================================================================== *)

Module Port.
Import ARM Sys Lock VT MMC.

(** Invocation of a timer callback [fn(vtp->vt_par)]. *)
Definition run_callback (cfg : Config) (f : vtfunc) (par : Z) (w : world)
  : world :=
  match f with
  | tmrfunc_cb => tmrfunc cfg par (log (EvCallback f par) w)
  | other_cb _ => log (EvCallback f par) w
  end.

(** Modelled from the spec: the tick handler holds the System Lock at
    every invocation ("invoke its callback with the System Lock held"),
    so after a callback that returned without the lock, as [tmrfunc]
    does, the handler has it again. *)
Definition relock (cfg : Config) (w : world) : world :=
  if lock_held cfg w then w else chSysLockFromIsr cfg w.

(** Modelled from the spec: the loop of the tick handler (chvt.h is not
    in the modelled files). "while the head's delta is zero, pop it, invoke
    its callback with the System Lock held, and re-peek the new head". The
    handler is entered with the lock held and holds it whenever it looks
    at the list and invokes a callback. [fuel] bounds the callbacks of
    one tick; [None] is a tick that needs more. *)
Fixpoint vt_dispatch (cfg : Config) (fuel : nat) (w : world) : option world :=
  match vtlist w with
  | [] => Some w
  | h :: tl =>
      if vt_time h =? 0 then
        match fuel with
        | O => None
        | S k =>
            vt_dispatch cfg k
              (relock cfg
                 (run_callback cfg (vt_func h) (vt_par h) (set_vtlist tl w)))
        end
      else Some w
  end.

(** Modelled from the spec: [chSysTimerHandlerI] (chsys.c and chvt.h are
    not in the modelled files). "On each tick interrupt: decrement the
    head timer's delta", then the loop above. *)
Definition chSysTimerHandlerI (cfg : Config) (fuel : nat) (w : world)
  : option world :=
  let w := set_systime (S (systime w)) w in
  match vtlist w with
  | [] => Some w
  | h :: tl =>
      vt_dispatch cfg fuel
        (set_vtlist ({| vt_time := vt_time h - 1; vt_func := vt_func h;
                        vt_par := vt_par h |} :: tl) w)
  end.

(** Offsets of [pc] and [xpsr] in [struct extctx], the exception frame
    r0, r1, r2, r3, r12, lr, pc, xpsr. *)
Definition EXTCTX_PC : Z := 24.
Definition EXTCTX_XPSR : Z := 28.

(** [_port_irq_epilogue()]. On the return-to-base path the function
    returns after the two stores, without unlocking. *)
Definition _port_irq_epilogue (cfg : Config) (w : world) : world :=
  let w := port_lock_from_isr cfg w in
  if negb (Z.land (icsr (hw w)) (ICSR_RETTOBASE cfg) =? 0) then
    let psp0 := psp (hw w) in                       (* mrs psp, PSP *)
    let '(w, psp1) :=
      if CORTEX_USE_FPU cfg then
        let fpccr0 := fpccr (hw w) in
        let w := poke (psp0 - 4) fpccr0 w in        (* *--psp = fpccr *)
        let w := poke (psp0 - 8) (fpcar (hw w)) w in (* *--psp = SCB_FPCAR *)
        let w := on_hw (set_fpccr (Z.lor fpccr0 (FPCCR_LSPACT cfg))) w in
        (w, wrap32 (psp0 - 8))
      else (w, psp0) in
    let ctxp := wrap32 (psp1 - EXTCTX_SIZE cfg) in  (* ctxp = psp - 1 context *)
    let w := on_hw (set_psp ctxp) w in              (* msr PSP, ctxp *)
    let w := poke (ctxp + EXTCTX_PC) (sym_port_switch_from_isr cfg) w in
    let w := poke (ctxp + EXTCTX_XPSR) 0x01000000 w in
    w
  else port_unlock_from_isr cfg w.


(** The common part of [SVCallVector] and [PendSVVector]: the current
    exception context is dropped and PSP points to the real one. *)
Definition discard_context (cfg : Config) (w : world) : world :=
  let psp0 := psp (hw w) in                         (* mrs psp, PSP *)
  let '(w, psp1) :=
    if CORTEX_USE_FPU cfg then
      let w := on_hw (set_fpcar (peek psp0 w)) w in       (* = *psp++ *)
      let w := on_hw (set_fpccr (peek (psp0 + 4) w)) w in (* = *psp++ *)
      (w, wrap32 (psp0 + 8))
    else (w, psp0) in
  on_hw (set_psp (wrap32 (psp1 + EXTCTX_SIZE cfg))) w.

(** [SVCallVector()], compiled when [!CORTEX_SIMPLIFIED_PRIORITY]. *)
Definition SVCallVector (cfg : Config) (w : world) : world :=
  port_unlock_from_isr cfg (discard_context cfg w).

(** [PendSVVector()], compiled when [CORTEX_SIMPLIFIED_PRIORITY]. *)
Definition PendSVVector (cfg : Config) (w : world) : world :=
  discard_context cfg w.

(** Exception entry: the processor pushes an exception frame on the
    process stack. Only the position of the frame matters here. *)
Definition exception_entry (cfg : Config) (w : world) : world :=
  on_hw (set_psp (wrap32 (psp (hw w) - EXTCTX_SIZE cfg))) w.

(** Exception return to thread mode: the processor pops the frame at PSP
    and continues at its [pc]. *)
Definition exception_return (cfg : Config) (w : world) : world :=
  let ctxp := psp (hw w) in
  let w := write PC (branch_target (peek (ctxp + EXTCTX_PC) w)) w in
  on_hw (set_psp (wrap32 (ctxp + EXTCTX_SIZE cfg))) w.

Definition dbg_check_lock (w : world) : world := log EvDbgCheckLock w.
Definition dbg_check_unlock (w : world) : world := log EvDbgCheckUnlock w.

Definition on_memory (f : memory -> memory) (w : world) : world :=
  on_hw (set_core (fun m => set_mem (f (mem m)) m)) w.

(** [_port_switch_from_isr()] of chcore_v7m.c. [svc #0] enters
    [SVCallVector]; in the compact kernel mode the pended PendSV is taken
    once the lock is released, and the loop behind it is never left. *)
Definition _port_switch_from_isr (cfg : Config) (env : Env) (w : world)
  : world :=
  let w := dbg_check_lock w in
  let required := chSchIsPreemptionRequired env (mem (core (hw w))) in
  let w := log (EvPreemptionRequired required) w in
  let w :=
    if required
    then on_memory (chSchDoReschedule env) (log EvReschedule w)
    else w in
  let w := dbg_check_unlock w in
  if negb (CORTEX_SIMPLIFIED_PRIORITY cfg) then
    let w := log EvSvc w in                         (* svc #0 *)
    SVCallVector cfg (exception_entry cfg w)
  else
    let w := log (EvIcsr (ICSR_PENDSVSET cfg))
               (on_hw (set_icsr (ICSR_PENDSVSET cfg)) w) in
    let w := port_unlock cfg w in
    PendSVVector cfg (exception_entry cfg w).

(** [_port_switch_from_isr] of chcoreasm_v6m.s: the answer of the
    preemption check comes back in r0 and is compared with zero; the
    routine ends by pending the NMI or, with the alternate switch, PendSV
    and then waits. *)
Definition _port_switch_from_isr_v6m (cfg : Config) (env : Env) (w : world)
  : world :=
  let w := if CH_DBG_SYSTEM_STATE_CHECK cfg then dbg_check_lock w else w in
  (* bl chSchIsPreemptionRequired *)
  let required := chSchIsPreemptionRequired env (mem (core (hw w))) in
  let w := write R0 (if required then 1 else 0)
             (log (EvPreemptionRequired required) w) in
  (* cmp r0, #0 ; beq noresch *)
  let w :=
    if reg_of w R0 =? 0 then w
    else on_memory (chSchDoReschedule env) (log EvReschedule w) in
  (* noresch: *)
  let w := if CH_DBG_SYSTEM_STATE_CHECK cfg then dbg_check_unlock w else w in
  let w := write R2 0xE000ED04 w in                 (* ldr r2, =SCB_ICSR *)
  let w := write R3 128 w in                        (* movs r3, #128 *)
  if CORTEX_ALTERNATE_SWITCH cfg then
    let w := write R3 (wrap32 (Z.shiftl (reg_of w R3) 21)) w in
    let w := log (EvIcsr (reg_of w R3)) (on_hw (set_icsr (reg_of w R3)) w) in
    log EvUnlock (on_hw (set_primask false) w)      (* cpsie i *)
  else
    let w := write R3 (wrap32 (Z.shiftl (reg_of w R3) 24)) w in
    log (EvIcsr (reg_of w R3)) (on_hw (set_icsr (reg_of w R3)) w).

(** The end of a thread start routine: [blx r4] and, when the function
    returns, [bl chThdExit], which does not return. [None] of [thread_fn]
    is a thread function that never returns. *)
Definition call_then_exit (env : Env) (w : world) : world :=
  let w := log (EvCall (reg_of w R4) (reg_of w R0)) w in
  match thread_fn env (reg_of w R4) (reg_of w R0) w with
  | Some w => log EvThdExit w
  | None => w
  end.

(** [_port_thread_start()] of chcore_v7m.c. *)
Definition _port_thread_start (cfg : Config) (env : Env) (w : world)
  : world :=
  let w := chSysUnlock cfg w in
  let w := write R0 (reg_of w R5) w in              (* mov r0, r5 *)
  call_then_exit env w.                             (* blx r4 ; bl chThdExit *)

(** [_port_thread_start] of chcoreasm_v6m.s. *)
Definition _port_thread_start_v6m (cfg : Config) (env : Env) (w : world)
  : world :=
  let w := if CH_DBG_SYSTEM_STATE_CHECK cfg then dbg_check_unlock w else w in
  let w := log EvUnlock (on_hw (set_primask false) w) in   (* cpsie i *)
  let w := write R0 (reg_of w R5) w in              (* mov r0, r5 *)
  call_then_exit env w.

(** Modelled from the spec: [SETUP_CONTEXT] (chcore_v7m.h is not in the
    modelled files). "a newly created thread's saved context is
    initialized such that the first context switch into it begins
    executing its entry function": the frame at the top of the working
    area holds the entry function in the r4 slot, its argument in the r5
    slot and [_port_thread_start] in the lr slot, and the context slot of
    the thread points to the frame. [slot] is the frame layout of the
    switch routine, as in [Switch.switch_contract]. *)
Definition SETUP_CONTEXT (cfg : Config) (slot : nat -> nat)
  (tp top pf arg : Z) (mm : memory) : memory :=
  let sp := wrap32 (top - words 9) in
  store (tp + Switch.CONTEXT_OFFSET) sp
    (store (sp + words (slot 8%nat)) (sym_port_thread_start cfg)
       (store (sp + words (slot 1%nat)) arg
          (store (sp + words (slot 0%nat)) pf mm))).

(** The routine at a code address. *)
Inductive routine : Type :=
  | at_port_thread_start
  | at_port_switch_from_isr
  | at_other (pc : Z).

Definition routine_at (cfg : Config) (pc : Z) : routine :=
  if pc =? branch_target (sym_port_switch_from_isr cfg)
  then at_port_switch_from_isr
  else if pc =? branch_target (sym_port_thread_start cfg)
  then at_port_thread_start
  else at_other pc.

(** The events of a switch decision, in order. *)
Definition decision_events (required : bool) : list event :=
  [EvPreemptionRequired required]
  ++ (if required then [EvReschedule] else []).

(** Position of the artificial context [_port_irq_epilogue] pushes. *)
Definition artificial_ctxp (cfg : Config) (w : world) : Z :=
  wrap32 ((if CORTEX_USE_FPU cfg then wrap32 (psp (hw w) - 8)
           else psp (hw w)) - EXTCTX_SIZE cfg).

(** The way out of an interrupt handler: the epilogue, the exception
    return of the processor and the routine the return leads to. *)
Definition irq_exit (cfg : Config) (env : Env) (w : world) : world :=
  let w := exception_return cfg (_port_irq_epilogue cfg w) in
  match routine_at cfg (reg_of w PC) with
  | at_port_switch_from_isr => _port_switch_from_isr cfg env w
  | _ => w
  end.

(** A context switch [_port_switch(ntp, otp)] made by the running thread,
    and the routine it resumes in when that is the thread start routine. *)
Definition switch_to (cfg : Config) (env : Env) (w : world) : world :=
  let w := on_hw (set_core (exec (Switch._port_switch cfg))) w in
  match routine_at cfg (reg_of w PC) with
  | at_port_thread_start => _port_thread_start cfg env w
  | _ => w
  end.

End Port.

(* ===================================================================== *)
(** ** Measures on timer lists and traces *)
(* ===================================================================== *)

Module Monitor.
Import ARM Sys Lock VT MMC Port.

Definition nonneg (v : VirtualTimer) : Prop := 0 <= vt_time v.

(** A timer list between two ticks: the head has at least one tick to go
    and no delta is negative. *)
Definition wf_vtlist (l : list VirtualTimer) : Prop :=
  match l with
  | [] => True
  | h :: tl => 1 <= vt_time h /\ Forall nonneg tl
  end.

(** Number of entries at the head of the list that are due. *)
Fixpoint lead (l : list VirtualTimer) : nat :=
  match l with
  | [] => 0%nat
  | h :: tl => if vt_time h =? 0 then S (lead tl) else 0%nat
  end.

(** Number of armed timers with callback [f]. *)
Definition count_armed (f : vtfunc) (l : list VirtualTimer) : nat :=
  length (filter (fun v => vtfunc_eqb (vt_func v) f) l).

(** Number of invocations of callback [f] recorded in a trace. *)
Definition is_callback (f : vtfunc) (s : snap) : bool :=
  match what s with
  | EvCallback g _ => vtfunc_eqb g f
  | _ => false
  end.

Definition invocations (f : vtfunc) (tr : list snap) : nat :=
  length (filter (is_callback f) tr).




(** The polling delay in ticks. *)
Definition polling_ticks (cfg : Config) : Z :=
  MS2ST cfg (MMC_POLLING_DELAY cfg).

(** [tmrfunc] invoked at the system times [times], nothing else touching
    the driver in between. *)
Definition polls (cfg : Config) (p : Z) (times : list nat) (w : world)
  : world :=
  fold_left (fun w t => tmrfunc cfg p (set_systime t w)) times w.

(** Length of the run of "inserted" readings that ends the readings taken
    at [times]. *)
Definition inserted_run (sensor : nat -> bool) (times : list nat) : nat :=
  fold_left (fun n t => if sensor t then S n else 0%nat) times 0%nat.

(** What one invocation of [tmrfunc] makes of the driver, by cases on
    the poll counter and the sensor reading [ins]; [tmrfunc] is shown to
    agree with it. *)
Definition polled (cfg : Config) (ins : bool) (d : MMCDriver) : MMCDriver :=
  if cnt d >? 0 then
    if ins then
      if cnt d - 1 =? 0
      then set_state MMC_INSERTED (set_cnt (cnt d - 1) d)
      else set_cnt (cnt d - 1) d
    else set_cnt (MMC_POLLING_INTERVAL cfg) d
  else
    if ins then d
    else set_cnt (MMC_POLLING_INTERVAL cfg) (set_state MMC_WAIT d).

(** The driver of the monitor after readings that end in a run of [n]
    "inserted" ones. *)
Definition debounced (cfg : Config) (n : nat) (d : MMCDriver) : Prop :=
  (Z.of_nat n < MMC_POLLING_INTERVAL cfg /\
   state d = MMC_WAIT /\ cnt d = MMC_POLLING_INTERVAL cfg - Z.of_nat n)
  \/ (MMC_POLLING_INTERVAL cfg <= Z.of_nat n /\
      state d = MMC_INSERTED /\ cnt d = 0).

End Monitor.

(* ===================================================================== *)
(** ** I2C driver, bus guard: i2c.c *)
(* ===================================================================== *)

Module I2C.

(** Threads are named by numbers; [prio] gives the priority of each. *)
Definition tid := nat.

(** Modelled from the spec: the semaphore object (chsem.c is not in the
    modelled files). "Semaphore: integer count", with the queue of the
    threads blocked on it. *)
Record Semaphore := {
  s_cnt : Z;
  s_queue : list tid
}.

(** Modelled from the spec: the mutex object (chmtx.c is not in the
    modelled files). "an owner-Thread reference and nesting count for
    mutex", with the queue of the threads blocked on it. *)
Record Mutex := {
  m_owner : option tid;
  m_cnt : Z;
  m_queue : list tid
}.

Inductive i2cstate_t : Type :=
  | I2C_UNINIT | I2C_STOP | I2C_READY | I2C_ACTIVE_TRANSMIT
  | I2C_ACTIVE_RECEIVE.

(** The standard part of [I2CDriver]. Of [id_mutex] and [id_semaphore]
    the C structure has the one the configuration selects. *)
Record I2CDriver := {
  id_state : i2cstate_t;
  id_config : Z;
  rxbuf : Z;
  txbuf : Z;
  id_thread : Z;
  id_mutex : Mutex;
  id_semaphore : Semaphore
}.

Definition set_mutex (m : Mutex) (d : I2CDriver) : I2CDriver :=
  {| id_state := id_state d; id_config := id_config d; rxbuf := rxbuf d;
     txbuf := txbuf d; id_thread := id_thread d;
     id_mutex := m; id_semaphore := id_semaphore d |}.

Definition set_semaphore (s : Semaphore) (d : I2CDriver) : I2CDriver :=
  {| id_state := id_state d; id_config := id_config d; rxbuf := rxbuf d;
     txbuf := txbuf d; id_thread := id_thread d;
     id_mutex := id_mutex d; id_semaphore := s |}.

(** The waiter a wake-up takes: "FIFO among waiters of equal priority,
    else highest priority first". *)
Fixpoint first_best (prio : tid -> Z) (q : list tid) : option tid :=
  match q with
  | [] => None
  | t :: q' =>
      match first_best prio q' with
      | Some u => if prio t <? prio u then Some u else Some t
      | None => Some t
      end
  end.

Fixpoint remove_first (t : tid) (q : list tid) : list tid :=
  match q with
  | [] => []
  | u :: q' => if Nat.eqb u t then q' else u :: remove_first t q'
  end.

(** Modelled from the spec: [chSemInit], [chSemWait] and [chSemSignal]
    (chsem.c is not in the modelled files). "wait() blocks if count <= 0,
    else decrements; signal() increments and wakes one waiter if any". A
    woken waiter completes its wait, which takes the unit the signal
    added. [chSemWait] tells whether the caller goes on ([true]) or is
    blocked; [chSemSignal] tells which thread it woke. *)
Definition chSemInit (n : Z) : Semaphore :=
  {| s_cnt := n; s_queue := [] |}.

Definition chSemWait (t : tid) (s : Semaphore) : Semaphore * bool :=
  if s_cnt s <=? 0
  then ({| s_cnt := s_cnt s; s_queue := s_queue s ++ [t] |}, false)
  else ({| s_cnt := s_cnt s - 1; s_queue := s_queue s |}, true).

Definition chSemSignal (prio : tid -> Z) (s : Semaphore)
  : Semaphore * option tid :=
  let c := s_cnt s + 1 in
  match first_best prio (s_queue s) with
  | Some u => ({| s_cnt := c - 1; s_queue := remove_first u (s_queue s) |},
               Some u)
  | None => ({| s_cnt := c; s_queue := s_queue s |}, None)
  end.

(** Modelled from the spec: [chMtxInit], [chMtxLock] and [chMtxUnlock]
    (chmtx.c is not in the modelled files). "lock() blocks until the
    calling thread becomes sole owner; supports recursive-safe nesting
    only if the owner is the same thread (nesting count); unlock() must
    be called by the owner and wakes the highest-priority waiter". An
    unlock by a thread that is not the owner is a contract violation and
    leaves the mutex as it is. *)
Definition chMtxInit : Mutex :=
  {| m_owner := None; m_cnt := 0; m_queue := [] |}.

Definition chMtxLock (t : tid) (m : Mutex) : Mutex * bool :=
  match m_owner m with
  | None => ({| m_owner := Some t; m_cnt := 1; m_queue := m_queue m |}, true)
  | Some o =>
      if Nat.eqb o t
      then ({| m_owner := Some o; m_cnt := m_cnt m + 1;
               m_queue := m_queue m |}, true)
      else ({| m_owner := Some o; m_cnt := m_cnt m;
               m_queue := m_queue m ++ [t] |}, false)
  end.

Definition chMtxUnlock (prio : tid -> Z) (t : tid) (m : Mutex)
  : Mutex * option tid :=
  match m_owner m with
  | None => (m, None)
  | Some o =>
      if negb (Nat.eqb o t) then (m, None)
      else if 1 <? m_cnt m
      then ({| m_owner := Some o; m_cnt := m_cnt m - 1;
               m_queue := m_queue m |}, None)
      else match first_best prio (m_queue m) with
           | Some u => ({| m_owner := Some u; m_cnt := 1;
                           m_queue := remove_first u (m_queue m) |}, Some u)
           | None => ({| m_owner := None; m_cnt := 0;
                         m_queue := m_queue m |}, None)
           end
  end.

(** [i2cObjectInit(i2cp)], with [I2C_USE_MUTUAL_EXCLUSION]. The object
    not selected by the configuration does not exist in C; here it is
    left as it was. *)
Definition i2cObjectInit (cfg : Config) (d : I2CDriver) : I2CDriver :=
  let d := {| id_state := I2C_STOP; id_config := 0; rxbuf := 0; txbuf := 0;
              id_thread := 0; id_mutex := id_mutex d;
              id_semaphore := id_semaphore d |} in
  if CH_USE_MUTEXES cfg
  then set_mutex chMtxInit d
  else set_semaphore (chSemInit 1) d.

(** [i2cAcquireBus(i2cp)] called by thread [t]; the boolean tells whether
    the call returns at once ([true]) or the thread is queued. *)
Definition i2cAcquireBus (cfg : Config) (t : tid) (d : I2CDriver)
  : I2CDriver * bool :=
  if CH_USE_MUTEXES cfg then
    let (m, go) := chMtxLock t (id_mutex d) in (set_mutex m d, go)
  else if CH_USE_SEMAPHORES cfg then
    let (s, go) := chSemWait t (id_semaphore d) in (set_semaphore s d, go)
  else (d, true).

(** [i2cReleaseBus(i2cp)] called by thread [t]; the option names the
    thread whose [i2cAcquireBus] returns as a consequence. *)
Definition i2cReleaseBus (cfg : Config) (prio : tid -> Z) (t : tid)
  (d : I2CDriver) : I2CDriver * option tid :=
  if CH_USE_MUTEXES cfg then
    let (m, woken) := chMtxUnlock prio t (id_mutex d) in (set_mutex m d, woken)
  else if CH_USE_SEMAPHORES cfg then
    let (s, woken) := chSemSignal prio (id_semaphore d) in
    (set_semaphore s d, woken)
  else (d, None).

(** The threads queued on the guard of the configuration. *)
Definition waiting (cfg : Config) (d : I2CDriver) : list tid :=
  if CH_USE_MUTEXES cfg then m_queue (id_mutex d)
  else s_queue (id_semaphore d).

(** The bus with its users: [owners] are the threads whose
    [i2cAcquireBus] has returned and that have not called
    [i2cReleaseBus] since. *)
Record bus := {
  driver : I2CDriver;
  owners : list tid
}.

Inductive call : Type :=
  | Acquire (t : tid)
  | Release (t : tid).

Definition step (cfg : Config) (prio : tid -> Z) (c : call) (b : bus) : bus :=
  match c with
  | Acquire t =>
      let (d, go) := i2cAcquireBus cfg t (driver b) in
      {| driver := d; owners := if go then owners b ++ [t] else owners b |}
  | Release t =>
      let (d, woken) := i2cReleaseBus cfg prio t (driver b) in
      {| driver := d;
         owners := remove_first t (owners b)
                   ++ match woken with Some u => [u] | None => [] end |}
  end.

Fixpoint run (cfg : Config) (prio : tid -> Z) (cs : list call) (b : bus)
  : bus :=
  match cs with
  | [] => b
  | c :: cs' => run cfg prio cs' (step cfg prio c b)
  end.

Definition has (t : tid) (l : list tid) : bool := existsb (Nat.eqb t) l.

(** The calls a thread can make: it acquires when it neither owns the bus
    nor waits for it, and it releases what it owns. *)
Definition allowed (cfg : Config) (c : call) (b : bus) : bool :=
  match c with
  | Acquire t => negb (has t (owners b)) && negb (has t (waiting cfg (driver b)))
  | Release t => has t (owners b)
  end.

Fixpoint disciplined (cfg : Config) (prio : tid -> Z) (cs : list call)
  (b : bus) : bool :=
  match cs with
  | [] => true
  | c :: cs' => allowed cfg c b && disciplined cfg prio cs' (step cfg prio c b)
  end.

(** What relates the bus guarded by the semaphore to the bus guarded by
    the mutex: the same owners and the same queue; the count is one with
    no owner and zero with one, and the mutex names that owner. *)
Definition related (bS bM : bus) : Prop :=
  owners bM = owners bS /\
  m_queue (id_mutex (driver bM)) = s_queue (id_semaphore (driver bS)) /\
  ((owners bS = [] /\ s_queue (id_semaphore (driver bS)) = [] /\
    s_cnt (id_semaphore (driver bS)) = 1 /\
    m_owner (id_mutex (driver bM)) = None)
   \/ (exists t, owners bS = [t] /\
       s_cnt (id_semaphore (driver bS)) = 0 /\
       m_owner (id_mutex (driver bM)) = Some t /\
       m_cnt (id_mutex (driver bM)) = 1)).

Definition blank_driver : I2CDriver :=
  {| id_state := I2C_UNINIT; id_config := 0; rxbuf := 0; txbuf := 0;
     id_thread := 0; id_mutex := chMtxInit; id_semaphore := chSemInit 0 |}.

(** The bus after [i2cObjectInit], nobody on it. *)
Definition fresh (cfg : Config) : bus :=
  {| driver := i2cObjectInit cfg blank_driver; owners := [] |}.

(** The configuration of a minimal build: semaphores without mutexes. *)
Definition minimal_config : Config :=
  {| CORTEX_USE_FPU := false;
     CORTEX_SIMPLIFIED_PRIORITY := false;
     CORTEX_ALTERNATE_SWITCH := false;
     CH_DBG_SYSTEM_STATE_CHECK := false;
     CORTEX_BASEPRI_KERNEL := 0x20;
     CORTEX_BASEPRI_DISABLED := 0;
     ICSR_RETTOBASE := 0x800;
     ICSR_PENDSVSET := 0x10000000;
     FPCCR_LSPACT := 1;
     EXTCTX_SIZE := 32;
     sym_port_thread_start := 0x08000401;
     sym_port_switch_from_isr := 0x08000421;
     CH_USE_MUTEXES := false;
     CH_USE_SEMAPHORES := true;
     MMC_POLLING_INTERVAL := 10;
     MMC_POLLING_DELAY := 10;
     MMC_WAIT_DATA := 10000;
     MMC_SECTOR_SIZE := 512;
     MMC_NICE_WAITING := false;
     MS2ST := fun ms => (ms * 1000 - 1) / 1000 + 1 |}.

End I2C.

(* ===================================================================== *)
(** ** Concrete systems for the runs *)
(* ===================================================================== *)

Module Examples.
Import ARM Sys.

Definition cpu0 : cpu :=
  {| core := {| regs := fun _ => 0; fp := fun _ => 0; mem := fun _ => 0 |};
     basepri := 0; primask := false; psp := 0x20003000; icsr := 0;
     fpccr := 0; fpcar := 0 |}.

(** A system with the driver in state [s] and poll counter [c], the given
    timers armed, the card sensor [sensor] and the card shifting out
    [rx]. Interrupts are enabled and nothing has happened yet. *)
Definition system (s : mmcstate_t) (c : Z) (timers : list VirtualTimer)
  (sensor : nat -> bool) (rx : nat -> Z) : world :=
  {| hw := cpu0; systime := 0; vtlist := timers;
     mmc := {| state := s; config := 0; cnt := c; block_addresses := false |};
     card := sensor; spi_rx := rx; spi_pos := 0; trace := [] |}.

(** The same system inside an interrupt handler that preempted a thread:
    SCB_ICSR has the return-to-base bit of [cfg] set if [base]. *)
Definition in_handler (cfg : Config) (base : bool) (w : world) : world :=
  on_hw (set_icsr (if base then ICSR_RETTOBASE cfg else 0)) w.

(** A scheduler that finds a preemption required when the word at
    0x20000000 is not zero, and whose reschedule clears that word; thread
    functions that return at once. *)
Definition env0 : Env :=
  {| chSchIsPreemptionRequired := fun mm => negb (load 0x20000000 mm =? 0);
     chSchDoReschedule := fun mm => store 0x20000000 0 mm;
     thread_fn := fun _ _ w => Some w |}.

(** Thread functions that never return. *)
Definition env_forever : Env :=
  {| chSchIsPreemptionRequired := fun _ => false;
     chSchDoReschedule := fun mm => mm;
     thread_fn := fun _ _ _ => None |}.

(** Thread A of [Switch.machineA] switches, under the lock, to a thread
    that was just created at 0x20000200 with working area top 0x20002000,
    entry function 0x08001001 and argument 42. *)
Definition creating (cfg : Config) : world :=
  on_hw (fun c => set_basepri (CORTEX_BASEPRI_KERNEL cfg)
                    (set_core (fun _ =>
                       set_mem (Port.SETUP_CONTEXT cfg Switch.slot_v7m
                                  Switch.threadB 0x20002000 0x08001001 42
                                  (mem Switch.machineA))
                         Switch.machineA) c))
    (system MMC_STOP 0 [] (fun _ => false) (fun _ => 0)).

End Examples.

(* ===================================================================== *)
(** ** MMC over SPI driver, card commands and block transfers: mmc_spi.c *)
(* ===================================================================== *)

Module MMCOps.
Import ARM Sys Lock VT MMC.

(** Command indices and retry counts, defined in mmc_spi.h. *)
Record Commands := {
  MMC_CMDGOIDLE : Z;
  MMC_CMDINIT : Z;
  MMC_CMDINTERFACE_CONDITION : Z;
  MMC_CMDSTOP : Z;
  MMC_CMDSETBLOCKLEN : Z;
  MMC_CMDREADMULTIPLE : Z;
  MMC_CMDWRITEMULTIPLE : Z;
  MMC_CMDAPP : Z;
  MMC_CMDREADOCR : Z;
  MMC_ACMDOPCONDITION : Z;
  MMC_CMD0_RETRY : Z;
  MMC_CMD1_RETRY : Z;
  MMC_ACMD41_RETRY : Z
}.

(** The command set of the MMC/SD specification with the default retry
    counts; used for the concrete runs. *)
Definition standard_commands : Commands := {|
  MMC_CMDGOIDLE := 0;
  MMC_CMDINIT := 1;
  MMC_CMDINTERFACE_CONDITION := 8;
  MMC_CMDSTOP := 12;
  MMC_CMDSETBLOCKLEN := 16;
  MMC_CMDREADMULTIPLE := 18;
  MMC_CMDWRITEMULTIPLE := 25;
  MMC_CMDAPP := 55;
  MMC_CMDREADOCR := 58;
  MMC_ACMDOPCONDITION := 41;
  MMC_CMD0_RETRY := 10;
  MMC_CMD1_RETRY := 100;
  MMC_ACMD41_RETRY := 100
|}.

(** Conversion to [uint8_t]. *)
Definition u8 (x : Z) : Z := x mod 256.

(** A run that needs more fuel than it has is [None]. *)
Definition bind {A B : Type} (c : option A) (k : A -> option B) : option B :=
  match c with
  | Some a => k a
  | None => None
  end.

Notation "x <- c ;; k" := (bind c (fun x => k))
  (at level 61, c at next level, right associativity).

Notation "' p <- c ;; k" := (bind c (fun x => let 'p := x in k))
  (at level 61, p pattern, c at next level, right associativity).

(** [spiSend(spip, n, txbuf)]: the first [n] bytes of [txbuf] go out, and
    as many incoming bytes are clocked and dropped. *)
Definition spiSend (n : nat) (txbuf : list Z) (w : world) : world :=
  set_spi_pos (spi_pos w + n) (log (EvSpiSend (firstn n txbuf)) w).

(** [spiStart(spip, config)] with the low speed or the high speed
    configuration of the driver. *)
Definition spiStart (high_speed : bool) (w : world) : world :=
  log (EvSpiStart high_speed) w.

(** [chThdSleepMilliseconds(ms)] is [chThdSleep(MS2ST(ms))]. *)
Definition chThdSleepMilliseconds (cfg : Config) (ms : Z) (w : world)
  : world :=
  chThdSleep (MS2ST cfg ms) w.

(** The first loop of [wait]: up to sixteen receives, stopping at 0xFF.
    The boolean tells whether 0xFF was seen. *)
Fixpoint wait_short (n : nat) (w : world) : bool * world :=
  match n with
  | O => (false, w)
  | S k =>
      let (buf, w') := spiReceive 1 w in
      if hd 0 buf =? 0xFF then (true, w') else wait_short k w'
  end.

(** The second loop of [wait], without bound; with [MMC_NICE_WAITING]
    the thread sleeps one tick after every answer that is not 0xFF. *)
Fixpoint wait_long (cfg : Config) (fuel : nat) (w : world) : option world :=
  match fuel with
  | O => None
  | S k =>
      let (buf, w') := spiReceive 1 w in
      if hd 0 buf =? 0xFF then Some w'
      else wait_long cfg k (nice_sleep cfg w')
  end.

(** [wait(mmcp)]. *)
Definition wait (cfg : Config) (fuel : nat) (w : world) : option world :=
  let (idle, w) := wait_short 16 w in
  if idle then Some w else wait_long cfg fuel w.

(** The sleeps of a [wait] whose second loop saw [n] answers that were
    not 0xFF. *)
Definition naps (cfg : Config) (n : nat) (w : world) : world :=
  Nat.iter n (nice_sleep cfg) w.

(** The six bytes of a command header. *)
Definition header (cmd arg : Z) : list Z :=
  [ u8 (Z.lor 0x40 cmd);
    u8 (Z.shiftr arg 24);
    u8 (Z.shiftr arg 16);
    u8 (Z.shiftr arg 8);
    u8 arg;
    0x95 ].

(** [send_hdr(mmcp, cmd, arg)]. *)
Definition send_hdr (cfg : Config) (cmd arg : Z) (fuel : nat) (w : world)
  : option world :=
  w <- wait cfg fuel w ;;
  Some (spiSend 6 (header cmd arg) w).

(** [recvr3(mmcp, buffer)]: the R1 byte, then four bytes into [buffer]. *)
Definition recvr3 (w : world) : Z * list Z * world :=
  let (r1, w) := recvr1 w in
  let (buffer, w) := spiReceive 4 w in
  (r1, buffer, w).

(** [send_command_R1(mmcp, cmd, arg)]. *)
Definition send_command_R1 (cfg : Config) (cmd arg : Z) (fuel : nat)
  (w : world) : option (Z * world) :=
  let w := spiSelect w in
  w <- send_hdr cfg cmd arg fuel w ;;
  let (r1, w) := recvr1 w in
  let w := spiUnselect w in
  Some (r1, w).

(** [send_command_R3(mmcp, cmd, arg, response)]. *)
Definition send_command_R3 (cfg : Config) (cmd arg : Z) (fuel : nat)
  (w : world) : option (Z * list Z * world) :=
  let w := spiSelect w in
  w <- send_hdr cfg cmd arg fuel w ;;
  let '(r1, response, w) := recvr3 w in
  let w := spiUnselect w in
  Some (r1, response, w).

(** [mmcObjectInit]: the fields of the model it assigns. *)
Definition mmcObjectInit (w : world) : world :=
  on_mmc (fun d => {| state := MMC_STOP; config := 0; cnt := cnt d;
                      block_addresses := false |}) w.

(** Number of passes of a retry loop [if (++i >= RETRY) return TRUE;]
    that starts with [i = 0]: the first pass is always made. *)
Definition attempts (retry : Z) : nat := Z.to_nat (Z.max 1 retry).

(** A retry loop of [mmcConnect]: [try] sends the commands of one pass
    and tells whether the loop is left ([inl true]: by [break],
    [inl false]: go on, [inr tt]: [return TRUE] at once). [None] of the
    result is lack of fuel, [Some (false, w)] is [return TRUE]. *)
Fixpoint retry_loop (cfg : Config) (n : nat)
  (try : world -> option (bool + unit) * world) (w : world)
  : option (bool * world) :=
  match n with
  | O => Some (false, w)
  | S k =>
      match try w with
      | (None, _) => None
      | (Some (inl true), w) => Some (true, w)
      | (Some (inr _), w) => Some (false, w)
      | (Some (inl false), w) =>
          match k with
          | O => Some (false, w)                 (* ++i >= RETRY *)
          | S _ => retry_loop cfg k try (chThdSleepMilliseconds cfg 10 w)
          end
      end
  end.

(** One pass of the three loops of [mmcConnect]. *)
Definition try_goidle (cfg : Config) (cmds : Commands) (fuel : nat)
  (w : world) : option (bool + unit) * world :=
  match send_command_R1 cfg (MMC_CMDGOIDLE cmds) 0 fuel w with
  | Some (r1, w) => (Some (inl (r1 =? 0x01)), w)
  | None => (None, w)
  end.

Definition try_opcondition (cfg : Config) (cmds : Commands) (fuel : nat)
  (w : world) : option (bool + unit) * world :=
  match send_command_R1 cfg (MMC_CMDAPP cmds) 0 fuel w with
  | Some (r1, w) =>
      if r1 =? 0x01 then
        match send_command_R3 cfg (MMC_ACMDOPCONDITION cmds) 0x400001aa
                fuel w with
        | Some (r, _, w) => (Some (inl (r =? 0x00)), w)
        | None => (None, w)
        end
      else (Some (inl false), w)
  | None => (None, w)
  end.

Definition try_init (cfg : Config) (cmds : Commands) (fuel : nat)
  (w : world) : option (bool + unit) * world :=
  match send_command_R1 cfg (MMC_CMDINIT cmds) 0 fuel w with
  | Some (b, w) =>
      if b =? 0x00 then (Some (inl true), w)
      else if negb (b =? 0x01) then (Some (inr tt), w)
      else (Some (inl false), w)
  | None => (None, w)
  end.

(** The state assertion of [mmcConnect]. *)
Definition mmcConnect_pre (w : world) : bool :=
  negb (mmcstate_eqb (state (mmc w)) MMC_UNINIT)
  && negb (mmcstate_eqb (state (mmc w)) MMC_STOP).

(** [mmcConnect(mmcp)]. *)
Definition mmcConnect (cfg : Config) (cmds : Commands) (fuel : nat)
  (w : world) : option (bool * world) :=
  if mmcstate_eqb (state (mmc w)) MMC_INSERTED then
    (* Slow clock mode and 128 clock pulses. *)
    let w := spiStart false w in
    let w := spiIgnore 16 w in
    (* SPI mode selection. *)
    '(ok, w) <- retry_loop cfg (attempts (MMC_CMD0_RETRY cmds))
                  (try_goidle cfg cmds fuel) w ;;
    if negb ok then Some (TRUE, w) else
    '(r1, r3, w) <- send_command_R3 cfg (MMC_CMDINTERFACE_CONDITION cmds)
                      0x01AA fuel w ;;
    '(ok, w) <-
      (if negb (r1 =? 0x05) then
         (* Switch to SDHC mode. *)
         '(ok, w) <- retry_loop cfg (attempts (MMC_ACMD41_RETRY cmds))
                       (try_opcondition cfg cmds fuel) w ;;
         if negb ok then Some (false, w) else
         (* Execute dedicated read on OCR register. *)
         '(_, r3, w) <- send_command_R3 cfg (MMC_CMDREADOCR cmds) 0 fuel w ;;
         if negb (Z.land (hd 0 r3) 0x40 =? 0)
         then Some (true, on_mmc (fun d =>
                      {| state := state d; config := config d; cnt := cnt d;
                         block_addresses := true |}) w)
         else Some (true, w)
       else Some (true, w)) ;;
    if negb ok then Some (TRUE, w) else
    (* Initialization. *)
    '(ok, w) <- retry_loop cfg (attempts (MMC_CMD1_RETRY cmds))
                  (try_init cfg cmds fuel) w ;;
    if negb ok then Some (TRUE, w) else
    (* Initialization complete, full speed. *)
    let w := spiStart true w in
    (* Setting block size. *)
    '(r1, w) <- send_command_R1 cfg (MMC_CMDSETBLOCKLEN cmds)
                  (MMC_SECTOR_SIZE cfg) fuel w ;;
    if negb (r1 =? 0x00) then Some (TRUE, w) else
    (* Transition to MMC_READY state (if not extracted). *)
    let w := chSysLock cfg w in
    if mmcstate_eqb (state (mmc w)) MMC_INSERTED
    then Some (FALSE, chSysUnlock cfg (on_mmc (set_state MMC_READY) w))
    else Some (TRUE, chSysUnlock cfg w)
  else if mmcstate_eqb (state (mmc w)) MMC_READY then Some (FALSE, w)
  else Some (TRUE, w).

(** The argument of a block command: the block number on cards with
    block addresses, the byte address in 32 bits otherwise. *)
Definition block_argument (cfg : Config) (w : world) (startblk : Z) : Z :=
  if block_addresses (mmc w) then startblk
  else wrap32 (startblk * MMC_SECTOR_SIZE cfg).

(** [mmcStartSequentialRead(mmcp, startblk)]. *)
Definition mmcStartSequentialRead (cfg : Config) (cmds : Commands)
  (startblk : Z) (fuel : nat) (w : world) : option (bool * world) :=
  let w := chSysLock cfg w in
  if negb (mmcstate_eqb (state (mmc w)) MMC_READY) then
    Some (TRUE, chSysUnlock cfg w)
  else
    let w := on_mmc (set_state MMC_READING) w in
    let w := chSysUnlock cfg w in
    let w := spiStart true w in
    let w := spiSelect w in
    w <- send_hdr cfg (MMC_CMDREADMULTIPLE cmds)
           (block_argument cfg w startblk) fuel w ;;
    let (r1, w) := recvr1 w in
    if negb (r1 =? 0x00) then
      let w := spiUnselect w in
      let w := chSysLock cfg w in
      let w :=
        if mmcstate_eqb (state (mmc w)) MMC_READING
        then on_mmc (set_state MMC_READY) w else w in
      Some (TRUE, chSysUnlock cfg w)
    else Some (FALSE, w).

(** [mmcStartSequentialWrite(mmcp, startblk)]. *)
Definition mmcStartSequentialWrite (cfg : Config) (cmds : Commands)
  (startblk : Z) (fuel : nat) (w : world) : option (bool * world) :=
  let w := chSysLock cfg w in
  if negb (mmcstate_eqb (state (mmc w)) MMC_READY) then
    Some (TRUE, chSysUnlock cfg w)
  else
    let w := on_mmc (set_state MMC_WRITING) w in
    let w := chSysUnlock cfg w in
    let w := spiStart true w in
    let w := spiSelect w in
    w <- send_hdr cfg (MMC_CMDWRITEMULTIPLE cmds)
           (block_argument cfg w startblk) fuel w ;;
    let (r1, w) := recvr1 w in
    if negb (r1 =? 0x00) then
      let w := spiUnselect w in
      let w := chSysLock cfg w in
      let w :=
        if mmcstate_eqb (state (mmc w)) MMC_WRITING
        then on_mmc (set_state MMC_READY) w else w in
      Some (TRUE, chSysUnlock cfg w)
    else Some (FALSE, w).

(** [mmcStopSequentialRead(mmcp)]: the R1 byte of the stop command is
    received and not looked at. *)
Definition mmcStopSequentialRead (cfg : Config) (cmds : Commands) (w : world)
  : bool * world :=
  let stopcmd := [Z.lor 0x40 (MMC_CMDSTOP cmds); 0; 0; 0; 0; 1; 0xFF] in
  let w := chSysLock cfg w in
  if negb (mmcstate_eqb (state (mmc w)) MMC_READING) then
    (TRUE, chSysUnlock cfg w)
  else
    let w := chSysUnlock cfg w in
    let w := spiSend 7 stopcmd w in
    let (_, w) := recvr1 w in
    let result := FALSE in
    let w := spiUnselect w in
    let w := chSysLock cfg w in
    let w :=
      if mmcstate_eqb (state (mmc w)) MMC_READING
      then on_mmc (set_state MMC_READY) w else w in
    (result, chSysUnlock cfg w).

(** [mmcSequentialWrite(mmcp, buffer)]. *)
Definition mmcSequentialWrite (cfg : Config) (buffer : list Z) (fuel : nat)
  (w : world) : option (bool * world) :=
  let w := chSysLock cfg w in
  if negb (mmcstate_eqb (state (mmc w)) MMC_WRITING) then
    Some (TRUE, chSysUnlock cfg w)
  else
    let w := chSysUnlock cfg w in
    let w := spiSend 2 [0xFF; 0xFC] w in                 (* Data prologue. *)
    let w := spiSend (Z.to_nat (MMC_SECTOR_SIZE cfg)) buffer w in  (* Data. *)
    let w := spiIgnore 2 w in                            (* CRC ignored. *)
    let (b, w) := spiReceive 1 w in
    if Z.land (hd 0 b) 0x1F =? 0x05 then
      w <- wait cfg fuel w ;;
      Some (FALSE, w)
    else
      (* Error. *)
      let w := spiUnselect w in
      let w := chSysLock cfg w in
      let w :=
        if mmcstate_eqb (state (mmc w)) MMC_WRITING
        then on_mmc (set_state MMC_READY) w else w in
      Some (TRUE, chSysUnlock cfg w).

(** [mmcStopSequentialWrite(mmcp)]. *)
Definition mmcStopSequentialWrite (cfg : Config) (w : world) : bool * world :=
  let w := chSysLock cfg w in
  if negb (mmcstate_eqb (state (mmc w)) MMC_WRITING) then
    (TRUE, chSysUnlock cfg w)
  else
    let w := chSysUnlock cfg w in
    let w := spiSend 2 [0xFD; 0xFF] w in
    let w := spiUnselect w in
    let w := chSysLock cfg w in
    if mmcstate_eqb (state (mmc w)) MMC_WRITING then
      (FALSE, chSysUnlock cfg (on_mmc (set_state MMC_READY) w))
    else (TRUE, chSysUnlock cfg w).

(** A build with [MMC_NICE_WAITING] defined. *)
Definition with_nice_waiting (cfg : Config) : Config :=
  {| CORTEX_USE_FPU := CORTEX_USE_FPU cfg;
     CORTEX_SIMPLIFIED_PRIORITY := CORTEX_SIMPLIFIED_PRIORITY cfg;
     CORTEX_ALTERNATE_SWITCH := CORTEX_ALTERNATE_SWITCH cfg;
     CH_DBG_SYSTEM_STATE_CHECK := CH_DBG_SYSTEM_STATE_CHECK cfg;
     CORTEX_BASEPRI_KERNEL := CORTEX_BASEPRI_KERNEL cfg;
     CORTEX_BASEPRI_DISABLED := CORTEX_BASEPRI_DISABLED cfg;
     ICSR_RETTOBASE := ICSR_RETTOBASE cfg;
     ICSR_PENDSVSET := ICSR_PENDSVSET cfg;
     FPCCR_LSPACT := FPCCR_LSPACT cfg;
     EXTCTX_SIZE := EXTCTX_SIZE cfg;
     sym_port_thread_start := sym_port_thread_start cfg;
     sym_port_switch_from_isr := sym_port_switch_from_isr cfg;
     CH_USE_MUTEXES := CH_USE_MUTEXES cfg;
     CH_USE_SEMAPHORES := CH_USE_SEMAPHORES cfg;
     MMC_POLLING_INTERVAL := MMC_POLLING_INTERVAL cfg;
     MMC_POLLING_DELAY := MMC_POLLING_DELAY cfg;
     MMC_WAIT_DATA := MMC_WAIT_DATA cfg;
     MMC_SECTOR_SIZE := MMC_SECTOR_SIZE cfg;
     MMC_NICE_WAITING := true;
     MS2ST := MS2ST cfg |}.

(** The bytes sent over SPI that a trace records, in order. *)
Fixpoint sent (tr : list snap) : list Z :=
  match tr with
  | [] => []
  | s :: tr' =>
      match what s with
      | EvSpiSend bytes => bytes ++ sent tr'
      | _ => sent tr'
      end
  end.

(** The sleeps of the calling thread that a trace records, in ticks. *)
Fixpoint slept (tr : list snap) : list Z :=
  match tr with
  | [] => []
  | s :: tr' =>
      match what s with
      | EvSleep ticks => ticks :: slept tr'
      | _ => slept tr'
      end
  end.

(** The trace entries [w'] has beyond those of [w]. *)
Definition since (w w' : world) : list snap :=
  skipn (length (trace w)) (trace w').

(** A 32-bit value from four bytes, most significant first. *)
Definition be32 (b3 b2 b1 b0 : Z) : Z :=
  Z.lor (Z.shiftl b3 24) (Z.lor (Z.shiftl b2 16) (Z.lor (Z.shiftl b1 8) b0)).

End MMCOps.

(* ===================================================================== *)
(** ** I2C driver, state and condition flags: i2c.c *)
(* ===================================================================== *)

Module I2COps.
Import ARM Sys Lock I2C.

(** The driver object with its condition flags: [errors] is a field of
    the same C structure, next to the fields of [I2C.I2CDriver];
    [i2cObjectInit] and the bus guard do not touch it. *)
Record I2CObject := {
  std : I2CDriver;
  errors : Z
}.

Definition set_errors (e : Z) (o : I2CObject) : I2CObject :=
  {| std := std o; errors := e |}.

Definition set_id_state (s : i2cstate_t) (d : I2CDriver) : I2CDriver :=
  {| id_state := s; id_config := id_config d; rxbuf := rxbuf d;
     txbuf := txbuf d; id_thread := id_thread d;
     id_mutex := id_mutex d; id_semaphore := id_semaphore d |}.

Definition set_id_config (c : Z) (d : I2CDriver) : I2CDriver :=
  {| id_state := id_state d; id_config := c; rxbuf := rxbuf d;
     txbuf := txbuf d; id_thread := id_thread d;
     id_mutex := id_mutex d; id_semaphore := id_semaphore d |}.

(** The state assertion of [i2cStart] and [i2cStop]. *)
Definition i2cStart_pre (d : I2CDriver) : bool :=
  match id_state d with
  | I2C_STOP | I2C_READY => true
  | _ => false
  end.

(** [i2cStart(i2cp, config)]; [i2c_lld_start], the low level driver,
    works on the peripheral and is a parameter. *)
Definition i2cStart (cfg : Config) (i2c_lld_start : I2CDriver -> I2CDriver)
  (config : Z) (w : world) (d : I2CDriver) : world * I2CDriver :=
  let w := chSysLock cfg w in
  let d := set_id_config config d in
  let d := i2c_lld_start d in
  let d := set_id_state I2C_READY d in
  (chSysUnlock cfg w, d).

(** [i2cStop(i2cp)]. *)
Definition i2cStop (cfg : Config) (i2c_lld_stop : I2CDriver -> I2CDriver)
  (w : world) (d : I2CDriver) : world * I2CDriver :=
  let w := chSysLock cfg w in
  let d := i2c_lld_stop d in
  let d := set_id_state I2C_STOP d in
  (chSysUnlock cfg w, d).

(** [i2cAddFlagsI(i2cp, mask)]. *)
Definition i2cAddFlagsI (mask : Z) (o : I2CObject) : I2CObject :=
  set_errors (Z.lor (errors o) mask) o.

(** [i2cGetAndClearFlags(i2cp)]; [no_error] is [I2CD_NO_ERROR] of
    i2c.h. *)
Definition i2cGetAndClearFlags (cfg : Config) (no_error : Z) (w : world)
  (o : I2CObject) : Z * world * I2CObject :=
  let w := chSysLock cfg w in
  let mask := errors o in
  let o := set_errors no_error o in
  let w := chSysUnlock cfg w in
  (mask, w, o).

(** The calls that activate and deactivate a driver object. *)
Inductive life : Type :=
  | Start (config : Z)
  | Stop.

(** A sequence of [i2cStart] and [i2cStop] calls on one driver object;
    [None] when the state assertion of a call fails. *)
Fixpoint lifecycle (cfg : Config)
  (i2c_lld_start i2c_lld_stop : I2CDriver -> I2CDriver)
  (cs : list life) (w : world) (d : I2CDriver) : option (world * I2CDriver) :=
  match cs with
  | [] => Some (w, d)
  | c :: cs' =>
      if i2cStart_pre d then
        let (w', d') :=
          match c with
          | Start config => i2cStart cfg i2c_lld_start config w d
          | Stop => i2cStop cfg i2c_lld_stop w d
          end in
        lifecycle cfg i2c_lld_start i2c_lld_stop cs' w' d'
      else None
  end.

(** Condition flags added by the interrupt handler, one call of
    [i2cAddFlagsI] for each mask. *)
Definition add_flags (masks : list Z) (o : I2CObject) : I2CObject :=
  fold_left (fun o mask => i2cAddFlagsI mask o) masks o.

(** A build with neither mutexes nor semaphores. *)
Definition bare_config : Config :=
  {| CORTEX_USE_FPU := false;
     CORTEX_SIMPLIFIED_PRIORITY := false;
     CORTEX_ALTERNATE_SWITCH := false;
     CH_DBG_SYSTEM_STATE_CHECK := false;
     CORTEX_BASEPRI_KERNEL := 0x20;
     CORTEX_BASEPRI_DISABLED := 0;
     ICSR_RETTOBASE := 0x800;
     ICSR_PENDSVSET := 0x10000000;
     FPCCR_LSPACT := 1;
     EXTCTX_SIZE := 32;
     sym_port_thread_start := 0x08000401;
     sym_port_switch_from_isr := 0x08000421;
     CH_USE_MUTEXES := false;
     CH_USE_SEMAPHORES := false;
     MMC_POLLING_INTERVAL := 10;
     MMC_POLLING_DELAY := 10;
     MMC_WAIT_DATA := 10000;
     MMC_SECTOR_SIZE := 512;
     MMC_NICE_WAITING := false;
     MS2ST := fun ms => (ms * 1000 - 1) / 1000 + 1 |}.

End I2COps.
Module SwitchFacts.
Import ARM Switch.

Lemma wrap32_idem x : wrap32 (wrap32 x) = wrap32 x.
Proof. unfold wrap32. apply Z.mod_mod. lia. Qed.

Lemma wrap32_add_l x y : wrap32 (wrap32 x + y) = wrap32 (x + y).
Proof. unfold wrap32. apply Zplus_mod_idemp_l. Qed.

Lemma wrap32_small x : 0 <= x < 2 ^ 32 -> wrap32 x = x.
Proof. intros. unfold wrap32. apply Z.mod_small. assumption. Qed.

Lemma wrap32_shift_ne a d : 0 < d < 2 ^ 32 -> wrap32 (a + d) <> wrap32 a.
Proof.
  unfold wrap32. intros Hd Heq.
  assert (H : (a + d - a) mod 2 ^ 32 = 0).
  { rewrite Zminus_mod, Heq, Z.sub_diag. reflexivity. }
  replace (a + d - a) with d in H by lia.
  rewrite Z.mod_small in H; lia.
Qed.

Lemma in_area x base n :
  In x (area base n) <->
  exists i, (i < n)%nat /\ x = wrap32 (base + words i).
Proof.
  revert base. induction n as [|n IH]; intros base; simpl.
  - split; [tauto | intros (i & Hi & _); lia].
  - rewrite IH. split.
    + intros [E | (i & Hi & E)].
      * exists 0%nat. split; [lia |]. unfold words. simpl.
        rewrite Z.add_0_r. auto.
      * exists (S i). split; [lia |]. subst x. f_equal. unfold words. lia.
    + intros (i & Hi & E). destruct i as [|i].
      * left. subst x. unfold words. simpl. rewrite Z.add_0_r. reflexivity.
      * right. exists i. split; [lia |]. subst x. f_equal. unfold words. lia.
Qed.

Lemma store_list_out x a vs mm :
  ~ In x (area a (length vs)) -> store_list a vs mm x = mm x.
Proof.
  revert a mm. induction vs as [|v vs IH]; intros a mm Hn; simpl in *.
  - reflexivity.
  - rewrite IH by tauto. unfold store.
    destruct (Z.eqb_spec x (wrap32 a)); [subst; tauto | reflexivity].
Qed.

Lemma store_list_in a vs mm i :
  (i < length vs)%nat -> words (length vs) <= 2 ^ 32 ->
  store_list a vs mm (wrap32 (a + words i)) = nth i vs 0.
Proof.
  revert a mm i. induction vs as [|v vs IH]; intros a mm i Hi Hsz; simpl in *.
  - lia.
  - destruct i as [|i].
    + rewrite store_list_out.
      * unfold store, words. simpl. rewrite Z.add_0_r, Z.eqb_refl. reflexivity.
      * rewrite in_area. intros (j & Hj & E).
        unfold words in *. simpl Z.of_nat in E. rewrite Z.add_0_r in E.
        symmetry in E. revert E.
        replace (a + 4 + 4 * Z.of_nat j) with (a + (4 + 4 * Z.of_nat j)) by lia.
        apply wrap32_shift_ne. lia.
    + replace (a + words (S i)) with (a + 4 + words i) by (unfold words; lia).
      apply IH; [lia | unfold words in *; lia].
Qed.



Lemma in_area_wrap x b n : In x (area (wrap32 b) n) <-> In x (area b n).
Proof.
  rewrite !in_area. split; intros (i & Hi & E); exists i; split; auto;
    rewrite E; [| symmetry]; apply wrap32_add_l.
Qed.

(** Part of an area is in the area. *)
Lemma in_area_sub x b n k j :
  (k + j <= n)%nat -> In x (area (b + words k) j) -> In x (area b n).
Proof.
  rewrite !in_area. intros Hle (i & Hi & E).
  exists (k + i)%nat. split; [lia |]. subst x. f_equal. unfold words. lia.
Qed.

Lemma store_same a v mm : store a v mm (wrap32 a) = v.
Proof. unfold store. rewrite Z.eqb_refl. reflexivity. Qed.

Lemma store_other a v mm x : x <> wrap32 a -> store a v mm x = mm x.
Proof. unfold store. intros H. destruct (Z.eqb_spec x (wrap32 a)); tauto. Qed.

Section RoundTrip.
Variable p : list instr.
Variable n : nat.
Variable slot : nat -> nat.
Hypothesis contract : switch_contract p n slot.

(** The thread switched out from [m0] is switched in again from [m2]. *)
Lemma roundtrip_generic (m0 m2 : machine) :
  let keep := saved_area n (regs m0 SP) (regs m0 R1) in
  ~ In (ctx_slot (regs m0 R1)) (area (regs m0 SP - words n) n) ->
  regs m2 R0 = regs m0 R1 ->
  agree keep (exec p m0) m2 ->
  apart n keep m2 ->
  (forall r, In r callee_saved -> regs (exec p m2) r = regs m0 r) /\
  regs (exec p m2) PC = branch_target (regs m0 LR) /\
  regs (exec p m2) SP = wrap32 (regs m0 SP - words n + words 9).
Proof.
  intros keep Hctx Hntp Hagree Hapart.
  assert (Hkeep : forall a, In a keep -> mem (exec p m2) a = mem (exec p m0) a).
  { intros a Ha. rewrite (sc_frame _ _ _ contract) by (apply Hapart; exact Ha).
    apply Hagree. exact Ha. }
  assert (Hsp : mem (exec p m2) (ctx_slot (regs m2 R0))
                = wrap32 (regs m0 SP - words n)).
  { rewrite Hntp, Hkeep by (left; reflexivity).
    apply (sc_ctx _ _ _ contract). }
  assert (Hslot : forall i, (i < 9)%nat ->
            mem (exec p m2)
              (wrap32 (wrap32 (regs m0 SP - words n) + words (slot i)))
            = regs m0 (nth i saved_regs R0)).
  { intros i Hi. rewrite wrap32_add_l, Hkeep.
    - apply (sc_save _ _ _ contract); assumption.
    - right. apply in_area. exists (slot i). split; [| reflexivity].
      apply (sc_slot _ _ _ contract). exact Hi. }
  split; [| split].
  - intros r Hr.
    assert (Hi : exists i, (i < 8)%nat /\ r = nth i saved_regs R0).
    { simpl in Hr.
      repeat (destruct Hr as [<- | Hr];
              [ first [ exists 0%nat; split; [lia | reflexivity]
                      | exists 1%nat; split; [lia | reflexivity]
                      | exists 2%nat; split; [lia | reflexivity]
                      | exists 3%nat; split; [lia | reflexivity]
                      | exists 4%nat; split; [lia | reflexivity]
                      | exists 5%nat; split; [lia | reflexivity]
                      | exists 6%nat; split; [lia | reflexivity]
                      | exists 7%nat; split; [lia | reflexivity] ] |]).
      contradiction. }
    destruct Hi as (i & Hi & ->).
    rewrite (sc_restore _ _ _ contract) by exact Hi.
    rewrite Hsp. apply Hslot. lia.
  - rewrite (sc_resume _ _ _ contract), Hsp, Hslot by lia. reflexivity.
  - rewrite (sc_sp _ _ _ contract), Hsp. apply wrap32_add_l.
Qed.

End RoundTrip.


Ltac run_switch :=
  cbn [app exec is_branch existsb callee_saved saved_regs reg_eqb orb step
       load_regs write_reg regs mem fp set_reg set_mem length map seq nth].

Ltac each_below i H :=
  repeat (destruct i as [|i]; [| apply PeanoNat.lt_S_n in H || (exfalso; lia)]);
  try (exfalso; lia).

Lemma nth_word_addr a i : a + words i = a + 4 * Z.of_nat i.
Proof. reflexivity. Qed.

Lemma contract_v7m cfg :
  CORTEX_USE_FPU cfg = false ->
  switch_contract (_port_switch cfg) 9 slot_v7m.
Proof.
  intros Hfpu. unfold _port_switch, PUSH_CONTEXT, POP_CONTEXT. rewrite Hfpu.
  constructor.
  - intros m x Hx. run_switch.
    unfold saved_area in Hx. apply not_in_cons in Hx. destruct Hx as [Hne Hout].
    rewrite store_other by exact Hne.
    apply store_list_out. rewrite in_area_wrap. exact Hout.
  - intros m. run_switch. apply store_same.
  - intros m i Hctx Hi. run_switch.
    rewrite store_other.
    + rewrite <- wrap32_add_l. unfold slot_v7m.
      rewrite store_list_in by (simpl; unfold words; lia).
      do 9 (destruct i as [|i]; [reflexivity |]). lia.
    + intros E. apply Hctx. unfold ctx_slot. rewrite <- E.
      apply in_area. exists (slot_v7m i). split; [exact Hi | reflexivity].
  - intros i Hi. exact Hi.
  - intros m i Hi. run_switch. unfold load, ctx_slot, slot_v7m.
    do 8 (destruct i as [|i];
          [cbn [nth]; cbn [reg_eqb]; f_equal; f_equal; unfold words; lia |]).
    lia.
  - intros m. run_switch. unfold load, ctx_slot, slot_v7m.
    f_equal. f_equal. f_equal. unfold words. lia.
  - intros m. run_switch. unfold load, ctx_slot. reflexivity.
Qed.



Lemma wrap32_sub_l x y : wrap32 (wrap32 x - y) = wrap32 (x - y).
Proof. unfold wrap32. apply Zminus_mod_idemp_l. Qed.

Lemma wrap32_words_ne b i j :
  i <> j -> words i < 2 ^ 32 -> words j < 2 ^ 32 ->
  wrap32 (b + words i) <> wrap32 (b + words j).
Proof.
  intros Hne Hi Hj. unfold words in *.
  destruct (Nat.lt_ge_cases i j) as [Hlt | Hge].
  - intros E. symmetry in E. revert E.
    replace (b + 4 * Z.of_nat j)
      with (b + 4 * Z.of_nat i + (4 * Z.of_nat j - 4 * Z.of_nat i)) by lia.
    apply wrap32_shift_ne. lia.
  - replace (b + 4 * Z.of_nat i)
      with (b + 4 * Z.of_nat j + (4 * Z.of_nat i - 4 * Z.of_nat j)) by lia.
    apply wrap32_shift_ne. lia.
Qed.

(** Normalise an address: drop inner wrap-arounds, then compare offsets. *)
Ltac addr :=
  repeat first [rewrite wrap32_add_l | rewrite wrap32_sub_l];
  first [ f_equal; unfold words, CONTEXT_OFFSET; lia
        | unfold wrap32, words, CONTEXT_OFFSET;
          change (2 ^ 32) with 4294967296;
          Z.div_mod_to_equations; lia ].

Lemma in_area_from x b b' n k j :
  (forall i, wrap32 (b' + words i) = wrap32 (b + words (k + i))) ->
  (k + j <= n)%nat -> In x (area b' j) -> In x (area b n).
Proof.
  rewrite !in_area. intros Hb Hle (i & Hi & E).
  exists (k + i)%nat. split; [lia |]. subst x. apply Hb.
Qed.

Lemma contract_v7m_fpu cfg :
  CORTEX_USE_FPU cfg = true ->
  switch_contract (_port_switch cfg) 25 slot_v7m.
Proof.
  intros Hfpu. unfold _port_switch, PUSH_CONTEXT, POP_CONTEXT. rewrite Hfpu.
  constructor.
  - intros m x Hx. run_switch.
    unfold saved_area in Hx. apply not_in_cons in Hx. destruct Hx as [Hne Hout].
    rewrite store_other by exact Hne.
    rewrite store_list_out; [rewrite store_list_out; [reflexivity |] |];
      intros Hin; apply Hout.
    + eapply (in_area_from _ _ _ _ 9); [| | exact Hin]; [| simpl; lia].
      intros i. addr.
    + eapply (in_area_from _ _ _ _ 0); [| | exact Hin]; [| simpl; lia].
      intros i. addr.
  - intros m. run_switch. rewrite store_same. addr.
  - intros m i Hctx Hi. run_switch.
    rewrite store_other.
    + unfold slot_v7m.
      replace (wrap32 (regs m SP - words 25 + words i))
        with (wrap32 (wrap32 (wrap32 (regs m SP - words 16) - words 9)
                      + words i)) by addr.
      rewrite store_list_in by (simpl; unfold words; lia).
      do 9 (destruct i as [|i]; [reflexivity |]). lia.
    + intros E. apply Hctx. unfold ctx_slot. rewrite <- E.
      apply in_area. exists (slot_v7m i). split; [unfold slot_v7m; lia | reflexivity].
  - intros i Hi. unfold slot_v7m. lia.
  - intros m i Hi. run_switch. unfold load, ctx_slot, slot_v7m.
    do 8 (destruct i as [|i];
          [cbn [nth]; cbn [reg_eqb]; f_equal; f_equal; unfold words; lia |]).
    lia.
  - intros m. run_switch. unfold load, ctx_slot, slot_v7m.
    f_equal. f_equal. f_equal. unfold words. lia.
  - intros m. run_switch. unfold load, ctx_slot. reflexivity.
Qed.

Lemma contract_v6m : switch_contract _port_switch_v6m 9 slot_v6m.
Proof.
  unfold _port_switch_v6m.
  constructor.
  - intros m x Hx. run_switch.
    unfold saved_area in Hx. apply not_in_cons in Hx. destruct Hx as [Hne Hout].
    rewrite store_other by exact Hne.
    rewrite store_list_out; [rewrite store_list_out; [reflexivity |] |];
      intros Hin; apply Hout.
    + eapply (in_area_from _ _ _ _ 4); [| | exact Hin]; [| simpl; lia].
      intros i. addr.
    + eapply (in_area_from _ _ _ _ 0); [| | exact Hin]; [| simpl; lia].
      intros i. addr.
  - intros m. run_switch. rewrite store_same. addr.
  - intros m i Hctx Hi. run_switch.
    rewrite store_other.
    + assert (Hlow : forall j, (j < 4)%nat ->
                wrap32 (regs m SP - words 9 + words j)
                = wrap32 (wrap32 (wrap32 (regs m SP - words 5) - words 4)
                          + words j)) by (intros; addr).
      assert (Hhigh : forall j, (j < 5)%nat ->
                wrap32 (regs m SP - words 9 + words (j + 4))
                = wrap32 (wrap32 (regs m SP - words 5) + words j)).
      { intros. addr. }
      assert (Hout : forall j, (j < 5)%nat ->
                ~ In (wrap32 (regs m SP - words 9 + words (j + 4)))
                     (area (wrap32 (wrap32 (regs m SP - words 5) - words 4)) 4)).
      { intros j Hj Hin. apply in_area in Hin. destruct Hin as (k & Hk & E).
        rewrite <- Hlow in E by exact Hk. revert E.
        apply wrap32_words_ne; unfold words; lia. }
      set (mem_after :=
             store_list (wrap32 (wrap32 (regs m SP - words 5) - words 4))
               [regs m R8; regs m R9; regs m R10; regs m R11]
               (store_list (wrap32 (regs m SP - words 5))
                  [regs m R4; regs m R5; regs m R6; regs m R7; regs m LR]
                  (mem m))).
      assert (Hhi : forall j, (j < 5)%nat ->
                mem_after (wrap32 (regs m SP - words 9 + words (j + 4)))
                = nth j [regs m R4; regs m R5; regs m R6; regs m R7;
                         regs m LR] 0).
      { intros j Hj. unfold mem_after.
        rewrite store_list_out by (apply Hout; exact Hj).
        rewrite Hhigh by exact Hj.
        apply store_list_in; [exact Hj | simpl; unfold words; lia]. }
      assert (Hlo : forall j, (j < 4)%nat ->
                mem_after (wrap32 (regs m SP - words 9 + words j))
                = nth j [regs m R8; regs m R9; regs m R10; regs m R11] 0).
      { intros j Hj. unfold mem_after. rewrite Hlow by exact Hj.
        apply store_list_in; [exact Hj | simpl; unfold words; lia]. }
      fold mem_after.
      destruct i as [|[|[|[|[|[|[|[|[|i]]]]]]]]]; [.. | lia];
        unfold slot_v6m; cbn [Nat.ltb Nat.leb Nat.add Nat.sub];
        first [ apply (Hhi 0%nat); lia | apply (Hhi 1%nat); lia
              | apply (Hhi 2%nat); lia | apply (Hhi 3%nat); lia
              | apply (Hlo 0%nat); lia | apply (Hlo 1%nat); lia
              | apply (Hlo 2%nat); lia | apply (Hlo 3%nat); lia
              | apply (Hhi 4%nat); lia ].
    + intros E. apply Hctx. unfold ctx_slot. rewrite <- E.
      apply in_area. exists (slot_v6m i). split; [| reflexivity].
      unfold slot_v6m.
      destruct (Nat.ltb_spec i 4); [lia |]. destruct (Nat.ltb_spec i 8); lia.
  - intros i Hi. unfold slot_v6m.
    destruct (Nat.ltb_spec i 4); [lia |]. destruct (Nat.ltb_spec i 8); lia.
  - intros m i Hi. run_switch. unfold load, ctx_slot.
    do 8 (destruct i as [|i];
          [ unfold slot_v6m; cbn [nth Nat.ltb Nat.leb Nat.add Nat.sub];
            cbn [reg_eqb]; f_equal; addr |]).
    lia.
  - intros m. run_switch. unfold load, ctx_slot, slot_v6m.
    cbn [Nat.ltb Nat.leb]. f_equal. f_equal. addr.
  - intros m. run_switch. unfold load, ctx_slot. addr.
Qed.



End SwitchFacts.

Module SwitchRoundTrip.
Import ARM Switch SwitchFacts.

(** [_port_switch] never writes an FPU register, whatever the
    configuration: the [vpop] of [POP_CONTEXT()] follows the [pop] that
    loads [pc]. *)
Lemma port_switch_keeps_fp cfg m i :
  fp (exec (_port_switch cfg) m) i = fp m i.
Proof.
  unfold _port_switch, PUSH_CONTEXT, POP_CONTEXT.
  destruct (CORTEX_USE_FPU cfg); reflexivity.
Qed.

(** Round trip of the v7m switch in a build without FPU: thread A is
    switched out from [m0]; later, from any state [m2] that left A's frame
    and context slot alone, A is switched in again. r4-r11 and sp are as
    before, and A resumes at the address its link register held. *)
Lemma port_switch_roundtrip cfg (m0 m2 : machine) :
  CORTEX_USE_FPU cfg = false ->
  0 <= regs m0 SP < 2 ^ 32 ->
  let keep := saved_area 9 (regs m0 SP) (regs m0 R1) in
  ~ In (ctx_slot (regs m0 R1)) (area (regs m0 SP - words 9) 9) ->
  regs m2 R0 = regs m0 R1 ->
  agree keep (exec (_port_switch cfg) m0) m2 ->
  apart 9 keep m2 ->
  (forall r, In r callee_saved ->
     regs (exec (_port_switch cfg) m2) r = regs m0 r) /\
  regs (exec (_port_switch cfg) m2) SP = regs m0 SP /\
  regs (exec (_port_switch cfg) m2) PC = branch_target (regs m0 LR).
Proof.
  intros Hfpu Hsp keep Hctx Hntp Hag Hap.
  destruct (roundtrip_generic _ _ _ (contract_v7m cfg Hfpu) m0 m2
              Hctx Hntp Hag Hap) as (Hr & Hpc & Hs).
  repeat split; try assumption.
  rewrite Hs. replace (regs m0 SP - words 9 + words 9) with (regs m0 SP)
    by (unfold words; lia).
  apply wrap32_small. exact Hsp.
Qed.

Lemma agree_machineB l m : agree l m (machineB m).
Proof. intros a _. reflexivity. Qed.

(** Discharges the separation hypotheses on the concrete pair of threads. *)
Ltac concrete_separation :=
  match goal with
  | |- ~ In _ _ => vm_compute; intuition discriminate
  | |- agree _ _ _ => apply agree_machineB
  | |- apart _ _ _ =>
      intros a Ha Hb; vm_compute in Ha, Hb;
      repeat (destruct Ha as [Ha | Ha]; [subst a; intuition discriminate |]);
      exact Ha
  | |- _ <= _ < _ => vm_compute; split; [discriminate | reflexivity]
  | |- _ => reflexivity
  end.

Lemma port_switch_roundtrip_witness :
  let cfg := stm32f4_config false in
  let m3 := exec (_port_switch cfg)
              (machineB (exec (_port_switch cfg) machineA)) in
  (forall r, In r callee_saved -> regs m3 r = regs machineA r) /\
  regs m3 SP = regs machineA SP /\
  regs m3 PC = branch_target (regs machineA LR).
Proof.
  intros cfg.
  apply (port_switch_roundtrip cfg machineA
           (machineB (exec (_port_switch cfg) machineA)));
    concrete_separation.
Defined.

(** The same round trip for the v6m assembler routine. *)
Lemma port_switch_v6m_roundtrip (m0 m2 : machine) :
  0 <= regs m0 SP < 2 ^ 32 ->
  let keep := saved_area 9 (regs m0 SP) (regs m0 R1) in
  ~ In (ctx_slot (regs m0 R1)) (area (regs m0 SP - words 9) 9) ->
  regs m2 R0 = regs m0 R1 ->
  agree keep (exec _port_switch_v6m m0) m2 ->
  apart 9 keep m2 ->
  (forall r, In r callee_saved ->
     regs (exec _port_switch_v6m m2) r = regs m0 r) /\
  regs (exec _port_switch_v6m m2) SP = regs m0 SP /\
  regs (exec _port_switch_v6m m2) PC = branch_target (regs m0 LR).
Proof.
  intros Hsp keep Hctx Hntp Hag Hap.
  destruct (roundtrip_generic _ _ _ contract_v6m m0 m2
              Hctx Hntp Hag Hap) as (Hr & Hpc & Hs).
  repeat split; try assumption.
  rewrite Hs. replace (regs m0 SP - words 9 + words 9) with (regs m0 SP)
    by (unfold words; lia).
  apply wrap32_small. exact Hsp.
Qed.

Lemma port_switch_v6m_roundtrip_witness :
  let m3 := exec _port_switch_v6m
              (machineB (exec _port_switch_v6m machineA)) in
  (forall r, In r callee_saved -> regs m3 r = regs machineA r) /\
  regs m3 SP = regs machineA SP /\
  regs m3 PC = branch_target (regs machineA LR).
Proof.
  apply (port_switch_v6m_roundtrip machineA
           (machineB (exec _port_switch_v6m machineA)));
    concrete_separation.
Defined.

(** With the FPU the same round trip brings r4-r11 and the resume address
    back, but leaves the stack pointer 64 bytes below its value at the
    call: the sixteen words of [vpush {s16-s31}] are never popped. *)
Lemma port_switch_fpu_roundtrip cfg (m0 m2 : machine) :
  CORTEX_USE_FPU cfg = true ->
  let keep := saved_area 25 (regs m0 SP) (regs m0 R1) in
  ~ In (ctx_slot (regs m0 R1)) (area (regs m0 SP - words 25) 25) ->
  regs m2 R0 = regs m0 R1 ->
  agree keep (exec (_port_switch cfg) m0) m2 ->
  apart 25 keep m2 ->
  (forall r, In r callee_saved ->
     regs (exec (_port_switch cfg) m2) r = regs m0 r) /\
  regs (exec (_port_switch cfg) m2) SP = wrap32 (regs m0 SP - 64) /\
  regs (exec (_port_switch cfg) m2) PC = branch_target (regs m0 LR) /\
  (forall i, fp (exec (_port_switch cfg) m2) i = fp m2 i).
Proof.
  intros Hfpu keep Hctx Hntp Hag Hap.
  destruct (roundtrip_generic _ _ _ (contract_v7m_fpu cfg Hfpu) m0 m2
              Hctx Hntp Hag Hap) as (Hr & Hpc & Hs).
  repeat split; try assumption.
  - rewrite Hs. f_equal. unfold words. lia.
  - intros i. apply port_switch_keeps_fp.
Qed.

Lemma port_switch_fpu_roundtrip_witness :
  let cfg := stm32f4_config true in
  let m2 := machineB (exec (_port_switch cfg) machineA) in
  let m3 := exec (_port_switch cfg) m2 in
  (forall r, In r callee_saved -> regs m3 r = regs machineA r) /\
  regs m3 SP = wrap32 (regs machineA SP - 64) /\
  regs m3 PC = branch_target (regs machineA LR) /\
  (forall i, fp m3 i = fp m2 i).
Proof.
  intros cfg.
  apply (port_switch_fpu_roundtrip cfg machineA
           (machineB (exec (_port_switch cfg) machineA)));
    concrete_separation.
Defined.

(** C1. Thread A calls [_port_switch(B, A)] and thread B later calls
    [_port_switch(A, B)], in a build with [CORTEX_USE_FPU]. A's r4-r11 come
    back and A resumes at its return address, but its stack pointer is
    0x20000FC0 instead of the 0x20001000 it had at the call, and s16 holds
    B's value 0xF0 instead of A's 16: save followed by restore is not the
    identity on A's saved register set. *)
Theorem C1_port_switch_fpu_round_trip_loses_sp :
  let cfg := stm32f4_config true in
  let m1 := exec (_port_switch cfg) machineA in
  let m3 := exec (_port_switch cfg) (machineB m1) in
  map (regs m3) callee_saved = map (regs machineA) callee_saved /\
  regs m3 PC = branch_target (regs machineA LR) /\
  regs machineA SP = 0x20001000 /\
  regs m3 SP = 0x20000FC0 /\
  fp machineA 16 = 16 /\
  fp m3 16 = 0xF0.
Proof. vm_compute. repeat split; reflexivity. Qed.

End SwitchRoundTrip.

Module LockFacts.
Import ARM Sys Lock Examples.

Lemma basepri_port_lock cfg w :
  basepri (hw (_port_lock cfg w)) = CORTEX_BASEPRI_KERNEL cfg.
Proof. reflexivity. Qed.

Lemma basepri_port_unlock cfg w :
  basepri (hw (_port_unlock cfg w)) = CORTEX_BASEPRI_DISABLED cfg.
Proof. reflexivity. Qed.

Lemma primask_port_lock cfg w :
  primask (hw (_port_lock cfg w)) = primask (hw w).
Proof. reflexivity. Qed.

Lemma primask_port_unlock cfg w :
  primask (hw (_port_unlock cfg w)) = primask (hw w).
Proof. reflexivity. Qed.

Lemma trace_port_lock cfg w :
  trace (_port_lock cfg w)
  = trace w ++ [ {| what := EvLock;
                    at_basepri := CORTEX_BASEPRI_KERNEL cfg;
                    at_primask := primask (hw w) |} ].
Proof. reflexivity. Qed.

Lemma trace_port_unlock cfg w :
  trace (_port_unlock cfg w)
  = trace w ++ [ {| what := EvUnlock;
                    at_basepri := CORTEX_BASEPRI_DISABLED cfg;
                    at_primask := primask (hw w) |} ].
Proof. reflexivity. Qed.

Lemma lock_held_port_lock cfg w : lock_held cfg (_port_lock cfg w) = true.
Proof. unfold lock_held. rewrite basepri_port_lock. apply Z.eqb_refl. Qed.

(** C6. [_port_lock] sets BASEPRI to the kernel level, which masks
    exactly the interrupts whose priority value is at or above that
    level (none if the level is zero). The pair is not recursive: the
    lock is taken from the unlocked state, BASEPRI =
    [CORTEX_BASEPRI_DISABLED], which is the value [_port_unlock] writes.
    After the balanced pair BASEPRI and PRIMASK are what they were before
    the acquire, and so is the set of masked interrupts. *)
Theorem C6_balanced_pair_restores_the_masking cfg w :
  basepri (hw w) = CORTEX_BASEPRI_DISABLED cfg ->
  basepri (hw (_port_lock cfg w)) = CORTEX_BASEPRI_KERNEL cfg /\
  (forall prio,
     masked (_port_lock cfg w) prio
     = negb (CORTEX_BASEPRI_KERNEL cfg =? 0)
       && (CORTEX_BASEPRI_KERNEL cfg <=? prio)) /\
  basepri (hw (_port_unlock cfg (_port_lock cfg w))) = basepri (hw w) /\
  primask (hw (_port_unlock cfg (_port_lock cfg w))) = primask (hw w) /\
  (forall prio,
     masked (_port_unlock cfg (_port_lock cfg w)) prio = masked w prio).
Proof.
  intros Hfree.
  split; [apply basepri_port_lock |].
  split; [intros prio; unfold masked; rewrite basepri_port_lock;
          reflexivity |].
  split; [rewrite basepri_port_unlock; symmetry; exact Hfree |].
  split; [rewrite primask_port_unlock; apply primask_port_lock |].
  intros prio. unfold masked. rewrite basepri_port_unlock, Hfree.
  reflexivity.
Qed.

(** A thread that runs with interrupts enabled takes and releases the
    lock. *)
Lemma C6_balanced_pair_restores_the_masking_witness :
  let cfg := stm32f4_config false in
  let w := system MMC_STOP 0 [] (fun _ => false) (fun _ => 0) in
  basepri (hw (_port_lock cfg w)) = 0x20 /\
  masked (_port_lock cfg w) 0x20 = true /\
  masked (_port_lock cfg w) 0x10 = false /\
  basepri (hw (_port_unlock cfg (_port_lock cfg w))) = basepri (hw w) /\
  (forall prio,
     masked (_port_unlock cfg (_port_lock cfg w)) prio = masked w prio).
Proof.
  intros cfg w.
  destruct (C6_balanced_pair_restores_the_masking cfg w eq_refl)
    as (A & B & C & _ & D).
  split; [exact A |].
  split; [rewrite B; reflexivity |].
  split; [rewrite B; reflexivity |].
  split; [exact C | exact D].
Defined.

End LockFacts.

Module MMCFacts.
Import ARM Sys Lock VT MMC Examples.

Lemma spiReceive_one w :
  spiReceive 1 w = ([spi_rx w (spi_pos w)], set_spi_pos (spi_pos w + 1) w).
Proof. reflexivity. Qed.

(** *** [recvr1] *)

Lemma recvr1_loop_timeout n w :
  (forall i, (i < n)%nat -> spi_rx w (spi_pos w + i) = 0xFF) ->
  recvr1_loop n w = (0xFF, set_spi_pos (spi_pos w + n) w).
Proof.
  revert w. induction n as [|n IH]; intros w H.
  - simpl. rewrite Nat.add_0_r. destruct w; reflexivity.
  - cbn [recvr1_loop]. rewrite spiReceive_one. cbn [hd].
    assert (H0 := H 0%nat ltac:(lia)). rewrite Nat.add_0_r in H0.
    rewrite H0. cbn [Z.eqb negb Pos.eqb].
    rewrite IH.
    + cbn [spi_pos set_spi_pos]. f_equal.
      unfold set_spi_pos; cbn. f_equal. lia.
    + intros i Hi. cbn [spi_rx spi_pos set_spi_pos].
      replace (spi_pos w + 1 + i)%nat with (spi_pos w + S i)%nat by lia.
      apply H. lia.
Qed.

Lemma recvr1_loop_answer n k w :
  (k < n)%nat ->
  (forall i, (i < k)%nat -> spi_rx w (spi_pos w + i) = 0xFF) ->
  spi_rx w (spi_pos w + k) <> 0xFF ->
  recvr1_loop n w
  = (spi_rx w (spi_pos w + k), set_spi_pos (spi_pos w + S k) w).
Proof.
  revert k w. induction n as [|n IH]; intros k w Hk Hff Hne; [lia |].
  cbn [recvr1_loop]. rewrite spiReceive_one. cbn [hd].
  destruct k as [|k].
  - rewrite Nat.add_0_r in *.
    destruct (Z.eqb_spec (spi_rx w (spi_pos w)) 0xFF) as [E | _]; [tauto |].
    reflexivity.
  - assert (H0 := Hff 0%nat ltac:(lia)). rewrite Nat.add_0_r in H0.
    rewrite H0. cbn [Z.eqb negb Pos.eqb].
    rewrite (IH k).
    + cbn [spi_rx spi_pos set_spi_pos]. f_equal.
      * f_equal. lia.
      * unfold set_spi_pos; cbn. f_equal. lia.
    + lia.
    + intros i Hi. cbn [spi_rx spi_pos set_spi_pos].
      replace (spi_pos w + 1 + i)%nat with (spi_pos w + S i)%nat by lia.
      apply Hff. lia.
    + cbn [spi_rx spi_pos set_spi_pos].
      replace (spi_pos w + 1 + k)%nat with (spi_pos w + S k)%nat by lia.
      exact Hne.
Qed.

(** *** [sync] and [mmcDisconnect] *)

Lemma sync_loop_mmc cfg fuel w w' :
  sync_loop cfg fuel w = Some w' ->
  mmc w' = mmc w /\ hw w' = hw w /\ vtlist w' = vtlist w.
Proof.
  revert w. induction fuel as [|fuel IH]; intros w H; [discriminate |].
  cbn [sync_loop] in H. rewrite spiReceive_one in H. cbn [hd] in H.
  destruct (spi_rx w (spi_pos w) =? 0xFF).
  - inversion H; subst. repeat split.
  - apply IH in H. unfold nice_sleep in H.
    destruct (MMC_NICE_WAITING cfg); exact H.
Qed.

Lemma sync_loop_terminates cfg n w :
  spi_rx w (spi_pos w + n) = 0xFF ->
  exists w', sync_loop cfg (S n) w = Some w'.
Proof.
  revert w. induction n as [|n IH]; intros w H.
  - rewrite Nat.add_0_r in H. cbn [sync_loop]. rewrite spiReceive_one.
    cbn [hd]. rewrite H. eexists; reflexivity.
  - cbn [sync_loop]. rewrite spiReceive_one. cbn [hd].
    destruct (spi_rx w (spi_pos w) =? 0xFF); [eexists; reflexivity |].
    apply IH.
    replace (spi_pos w + S n)%nat with (spi_pos w + 1 + n)%nat in H by lia.
    unfold nice_sleep. destruct (MMC_NICE_WAITING cfg); exact H.
Qed.

Lemma sync_mmc cfg fuel w w' :
  sync cfg fuel w = Some w' -> mmc w' = mmc w.
Proof.
  unfold sync. destruct (sync_loop cfg fuel (spiSelect w)) as [w1|] eqn:E;
    [| discriminate].
  intros H. inversion H; subst. apply sync_loop_mmc in E.
  destruct E as (E & _). exact E.
Qed.

Lemma sync_terminates cfg n w :
  spi_rx w (spi_pos w + n) = 0xFF -> exists w', sync cfg (S n) w = Some w'.
Proof.
  intros H. unfold sync.
  destruct (sync_loop_terminates cfg n (spiSelect w) H) as (w1 & E).
  rewrite E. eexists; reflexivity.
Qed.

(** Whatever the state and however long the card takes, a returned status
    of [mmcDisconnect] is [TRUE]. *)
Lemma mmcDisconnect_status cfg fuel w r w' :
  mmcDisconnect cfg fuel w = Some (r, w') -> r = TRUE.
Proof.
  unfold mmcDisconnect.
  destruct (disconnect_label (state (mmc w)) <=? 0)%nat.
  - destruct (sync cfg fuel w); [| discriminate].
    destruct (disconnect_label (state (mmc w)) <=? 1)%nat;
      destruct (disconnect_label (state (mmc w)) <=? 2)%nat eqn:E2;
      intros H; inversion H; try reflexivity;
      destruct (state (mmc w)); discriminate.
  - destruct (disconnect_label (state (mmc w)) <=? 1)%nat;
      destruct (disconnect_label (state (mmc w)) <=? 2)%nat eqn:E2;
      intros H; inversion H; try reflexivity;
      destruct (state (mmc w)); discriminate.
Qed.

(** C7. In every state that passes the assertion of [mmcDisconnect]
    (neither [MMC_UNINIT] nor [MMC_STOP]) the function returns [TRUE]:
    it does return, in state [MMC_READY] once the card has answered 0xFF
    to [sync], and no run returns anything else. The transition from
    [MMC_READY] to [MMC_INSERTED] is made and still reported as [TRUE]. *)
Theorem C7_mmcDisconnect_returns_TRUE cfg w :
  mmcDisconnect_pre w = true ->
  (state (mmc w) = MMC_READY ->
   exists n, spi_rx w (spi_pos w + n) = 0xFF) ->
  (exists fuel w',
     mmcDisconnect cfg fuel w = Some (TRUE, w') /\
     state (mmc w') = match state (mmc w) with
                      | MMC_READY => MMC_INSERTED
                      | s => s
                      end) /\
  (forall fuel r w', mmcDisconnect cfg fuel w = Some (r, w') -> r = TRUE).
Proof.
  intros Hpre Hcard. split.
  - unfold mmcDisconnect.
    destruct (state (mmc w)) eqn:Es; try discriminate Hpre;
      try (exists 0%nat; cbn [disconnect_label Nat.leb];
           eexists; split; [reflexivity |]; cbn; exact Es).
    destruct (Hcard eq_refl) as (n & Hn).
    destruct (sync_terminates cfg n w Hn) as (w1 & E1).
    exists (S n). cbn [disconnect_label Nat.leb]. rewrite E1.
    eexists; split; [reflexivity |].
    apply sync_mmc in E1. cbn. rewrite E1, Es. reflexivity.
  - intros fuel r w'. apply mmcDisconnect_status.
Qed.

Lemma C7_mmcDisconnect_returns_TRUE_witness :
  let w := system MMC_READY 0 [] (fun _ => true)
             (fun i => if (i <? 3)%nat then 0x00 else 0xFF) in
  (exists fuel w',
     mmcDisconnect (stm32f4_config false) fuel w = Some (TRUE, w') /\
     state (mmc w') = MMC_INSERTED) /\
  (forall fuel r w',
     mmcDisconnect (stm32f4_config false) fuel w = Some (r, w') -> r = TRUE).
Proof.
  intros w.
  apply (C7_mmcDisconnect_returns_TRUE (stm32f4_config false) w).
  - reflexivity.
  - intros _. exists 3%nat. reflexivity.
Defined.

End MMCFacts.

Module MMCReadFacts.
Import ARM Sys Lock VT MMC Examples MMCFacts.

Lemma hd_fill_one x buffer : hd 0 (fill [x] buffer) = x.
Proof. reflexivity. Qed.

(** No data token among the first [n] bytes: the loop runs out, having
    clocked [n] bytes and changed nothing but the SPI position. *)
Lemma read_loop_timeout cfg n buffer w :
  (forall i, (i < n)%nat -> spi_rx w (spi_pos w + i) <> 0xFE) ->
  exists buffer',
    read_loop cfg n buffer w
    = (None, (buffer', set_spi_pos (spi_pos w + n) w)).
Proof.
  revert buffer w. induction n as [|n IH]; intros buffer w H.
  - exists buffer. simpl. rewrite Nat.add_0_r. destruct w; reflexivity.
  - cbn [read_loop]. rewrite spiReceive_one. rewrite hd_fill_one.
    assert (H0 := H 0%nat ltac:(lia)). rewrite Nat.add_0_r in H0.
    destruct (Z.eqb_spec (spi_rx w (spi_pos w)) 0xFE) as [E | _]; [tauto |].
    destruct (IH (fill [spi_rx w (spi_pos w)] buffer)
                 (set_spi_pos (spi_pos w + 1) w)) as (b' & Eb).
    + intros i Hi. cbn [spi_rx spi_pos set_spi_pos].
      replace (spi_pos w + 1 + i)%nat with (spi_pos w + S i)%nat by lia.
      apply H. lia.
    + exists b'. rewrite Eb. cbn [spi_pos set_spi_pos]. f_equal. f_equal.
      unfold set_spi_pos; cbn. f_equal. lia.
Qed.

(** The first data token is byte [k] of the first [n]: the loop returns
    with the sector that follows the token in the buffer. *)
Lemma read_loop_token cfg n k buffer w :
  (k < n)%nat ->
  (forall i, (i < k)%nat -> spi_rx w (spi_pos w + i) <> 0xFE) ->
  spi_rx w (spi_pos w + k) = 0xFE ->
  exists buffer' w',
    fst (read_loop cfg n buffer w) = Some (buffer', w') /\
    mmc w' = mmc w /\ hw w' = hw w /\ trace w' = trace w /\
    spi_pos w'
    = (spi_pos w + S k + Z.to_nat (MMC_SECTOR_SIZE cfg) + 2)%nat /\
    firstn (Z.to_nat (MMC_SECTOR_SIZE cfg)) buffer'
    = map (spi_rx w)
        (seq (spi_pos w + S k) (Z.to_nat (MMC_SECTOR_SIZE cfg))).
Proof.
  revert k buffer w. induction n as [|n IH]; intros k buffer w Hk Hno Htok;
    [lia |].
  cbn [read_loop]. rewrite spiReceive_one. rewrite hd_fill_one.
  destruct k as [|k].
  - rewrite Nat.add_0_r in Htok. rewrite Htok. cbn [Z.eqb Pos.eqb].
    unfold spiReceive, spiIgnore. cbn [spi_rx spi_pos set_spi_pos fst].
    eexists; eexists; split; [reflexivity |].
    cbn [mmc hw trace spi_pos set_spi_pos].
    repeat (split; [first [reflexivity | lia] |]).
    unfold fill. rewrite firstn_app, length_map, length_seq.
    rewrite Nat.sub_diag. cbn [firstn]. rewrite app_nil_r.
    rewrite firstn_all2 by (rewrite length_map, length_seq; lia).
    reflexivity.
  - assert (H0 := Hno 0%nat ltac:(lia)). rewrite Nat.add_0_r in H0.
    destruct (Z.eqb_spec (spi_rx w (spi_pos w)) 0xFE) as [E | _]; [tauto |].
    destruct (IH k (fill [spi_rx w (spi_pos w)] buffer)
                 (set_spi_pos (spi_pos w + 1) w)) as (b' & w' & E & Hrest).
    + lia.
    + intros i Hi. cbn [spi_rx spi_pos set_spi_pos].
      replace (spi_pos w + 1 + i)%nat with (spi_pos w + S i)%nat by lia.
      apply Hno. lia.
    + cbn [spi_rx spi_pos set_spi_pos].
      replace (spi_pos w + 1 + k)%nat with (spi_pos w + S k)%nat by lia.
      exact Htok.
    + exists b', w'. split; [exact E |].
      cbn [mmc hw trace spi_rx spi_pos set_spi_pos] in Hrest.
      destruct Hrest as (Hm & Hh & Ht & Hp & Hf).
      repeat split; try assumption.
      * rewrite Hp. lia.
      * rewrite Hf. f_equal. f_equal. lia.
Qed.

(** C9. A wait that times out returns the failure result and never the
    success result. [recvr1] returns 0xFF after nine receives of 0xFF,
    and otherwise the first byte that is not 0xFF. [mmcSequentialRead],
    called in state [MMC_READING], returns [TRUE] after [MMC_WAIT_DATA]
    receives without the token 0xFE and the state is [MMC_READY] then;
    when the token comes in time it returns [FALSE], the state stays
    [MMC_READING] and the buffer holds the sector behind the token. *)
Theorem C9_timeouts_return_failure cfg w buffer :
  ((forall i, (i < 9)%nat -> spi_rx w (spi_pos w + i) = 0xFF) ->
   recvr1 w = (0xFF, set_spi_pos (spi_pos w + 9) w)) /\
  (forall k, (k < 9)%nat ->
     (forall i, (i < k)%nat -> spi_rx w (spi_pos w + i) = 0xFF) ->
     spi_rx w (spi_pos w + k) <> 0xFF ->
     fst (recvr1 w) = spi_rx w (spi_pos w + k) /\ fst (recvr1 w) <> 0xFF) /\
  (state (mmc w) = MMC_READING ->
   (forall i, (i < Z.to_nat (MMC_WAIT_DATA cfg))%nat ->
      spi_rx w (spi_pos w + i) <> 0xFE) ->
   exists buffer' w',
     mmcSequentialRead cfg buffer w = (TRUE, buffer', w') /\
     state (mmc w') = MMC_READY /\
     spi_pos w' = (spi_pos w + Z.to_nat (MMC_WAIT_DATA cfg))%nat) /\
  (state (mmc w) = MMC_READING ->
   forall k, (k < Z.to_nat (MMC_WAIT_DATA cfg))%nat ->
     (forall i, (i < k)%nat -> spi_rx w (spi_pos w + i) <> 0xFE) ->
     spi_rx w (spi_pos w + k) = 0xFE ->
     exists buffer' w',
       mmcSequentialRead cfg buffer w = (FALSE, buffer', w') /\
       state (mmc w') = MMC_READING /\
       firstn (Z.to_nat (MMC_SECTOR_SIZE cfg)) buffer'
       = map (spi_rx w)
           (seq (spi_pos w + S k) (Z.to_nat (MMC_SECTOR_SIZE cfg)))).
Proof.
  split; [| split; [| split]].
  - intros H. apply recvr1_loop_timeout. exact H.
  - intros k Hk Hff Hne. unfold recvr1.
    rewrite (recvr1_loop_answer 9 k w Hk Hff Hne). split; [reflexivity |].
    exact Hne.
  - intros Hst Hno. unfold mmcSequentialRead.
    change (state (mmc (chSysLock cfg w))) with (state (mmc w)).
    rewrite Hst. cbn [mmcstate_eqb negb].
    destruct (read_loop_timeout cfg (Z.to_nat (MMC_WAIT_DATA cfg)) buffer
                (chSysUnlock cfg (chSysLock cfg w))) as (b' & E).
    { exact Hno. }
    rewrite E.
    eexists; eexists; split; [reflexivity |].
    cbn. rewrite Hst. cbn. split; reflexivity.
  - intros Hst k Hk Hno Htok. unfold mmcSequentialRead.
    change (state (mmc (chSysLock cfg w))) with (state (mmc w)).
    rewrite Hst. cbn [mmcstate_eqb negb].
    destruct (read_loop_token cfg (Z.to_nat (MMC_WAIT_DATA cfg)) k buffer
                (chSysUnlock cfg (chSysLock cfg w)) Hk Hno Htok)
      as (b' & w' & E & Hm & _ & _ & _ & Hf).
    destruct (read_loop cfg (Z.to_nat (MMC_WAIT_DATA cfg)) buffer
                (chSysUnlock cfg (chSysLock cfg w))) as [o rest].
    cbn [fst] in E. subst o.
    exists b', w'. split; [reflexivity |]. split.
    + rewrite Hm. exact Hst.
    + exact Hf.
Qed.

(** The card answers 0xFF nine times and never sends the data token:
    both waits time out. With the token as fourth byte the read
    succeeds. *)
Lemma C9_timeouts_return_failure_witness :
  let cfg := stm32f4_config false in
  let silent := system MMC_READING 0 [] (fun _ => true) (fun _ => 0xFF) in
  let ready := system MMC_READING 0 [] (fun _ => true)
                 (fun i => if (i =? 3)%nat then 0xFE else 0x55) in
  recvr1 silent = (0xFF, set_spi_pos (spi_pos silent + 9) silent) /\
  (fst (recvr1 ready) = spi_rx ready (spi_pos ready + 0)
   /\ fst (recvr1 ready) <> 0xFF) /\
  (exists buffer' w',
     mmcSequentialRead cfg [] silent = (TRUE, buffer', w') /\
     state (mmc w') = MMC_READY /\
     spi_pos w' = (spi_pos silent + Z.to_nat (MMC_WAIT_DATA cfg))%nat) /\
  (exists buffer' w',
     mmcSequentialRead cfg [] ready = (FALSE, buffer', w') /\
     state (mmc w') = MMC_READING /\
     firstn (Z.to_nat (MMC_SECTOR_SIZE cfg)) buffer'
     = map (spi_rx ready)
         (seq (spi_pos ready + 4) (Z.to_nat (MMC_SECTOR_SIZE cfg)))).
Proof.
  intros cfg silent ready.
  destruct (C9_timeouts_return_failure cfg silent []) as (A & _ & C & _).
  destruct (C9_timeouts_return_failure cfg ready []) as (_ & B & _ & D).
  split; [| split; [| split]].
  - apply A. intros; reflexivity.
  - apply (B 0%nat); [lia | intros; lia | discriminate].
  - apply C; [reflexivity | intros; discriminate].
  - apply (D eq_refl 3%nat); [apply Nat.ltb_lt; vm_compute; reflexivity | | reflexivity].
    intros i Hi. cbn [spi_rx spi_pos ready system Nat.add].
    destruct (Nat.eqb_spec i 3); [lia | discriminate].
Defined.

End MMCReadFacts.

Module PortFacts.
Import ARM Sys Lock VT MMC Port Examples.

Lemma in_decision_events required :
  In EvReschedule (decision_events required) <-> required = true.
Proof.
  destruct required; simpl; split; intros H; auto; try discriminate.
  destruct H as [H | H]; [discriminate | contradiction].
Qed.

(** What [_port_switch_from_isr] of chcore_v7m.c appends to the trace. *)
Lemma port_switch_from_isr_trace cfg env w :
  let required := chSchIsPreemptionRequired env (mem (core (hw w))) in
  exists new,
    trace (_port_switch_from_isr cfg env w) = trace w ++ new /\
    map what new
    = [EvDbgCheckLock] ++ decision_events required ++ [EvDbgCheckUnlock]
      ++ (if CORTEX_SIMPLIFIED_PRIORITY cfg
          then [EvIcsr (ICSR_PENDSVSET cfg); EvUnlock]
          else [EvSvc; EvUnlock]).
Proof.
  intros required. subst required. unfold _port_switch_from_isr.
  change (mem (core (hw (dbg_check_lock w)))) with (mem (core (hw w))).
  destruct (chSchIsPreemptionRequired env (mem (core (hw w)))),
    (CORTEX_SIMPLIFIED_PRIORITY cfg), (CORTEX_USE_FPU cfg) eqn:F;
    cbn [negb]; unfold SVCallVector, PendSVVector, discard_context;
    rewrite F; cbn -[Z.add Z.sub wrap32];
    rewrite <- ?app_assoc; eexists; (split; [reflexivity | reflexivity]).
Qed.

Lemma port_switch_from_isr_memory cfg env w :
  mem (core (hw (_port_switch_from_isr cfg env w)))
  = if chSchIsPreemptionRequired env (mem (core (hw w)))
    then chSchDoReschedule env (mem (core (hw w)))
    else mem (core (hw w)).
Proof.
  unfold _port_switch_from_isr.
  change (mem (core (hw (dbg_check_lock w)))) with (mem (core (hw w))).
  destruct (chSchIsPreemptionRequired env (mem (core (hw w)))),
    (CORTEX_SIMPLIFIED_PRIORITY cfg), (CORTEX_USE_FPU cfg) eqn:F;
    cbn [negb]; unfold SVCallVector, PendSVVector, discard_context;
    rewrite F; reflexivity.
Qed.

(** What [_port_switch_from_isr] of chcoreasm_v6m.s appends. *)
Lemma port_switch_from_isr_v6m_trace cfg env w :
  let required := chSchIsPreemptionRequired env (mem (core (hw w))) in
  exists new,
    trace (_port_switch_from_isr_v6m cfg env w) = trace w ++ new /\
    map what new
    = (if CH_DBG_SYSTEM_STATE_CHECK cfg then [EvDbgCheckLock] else [])
      ++ decision_events required
      ++ (if CH_DBG_SYSTEM_STATE_CHECK cfg then [EvDbgCheckUnlock] else [])
      ++ (if CORTEX_ALTERNATE_SWITCH cfg
          then [EvIcsr 0x10000000; EvUnlock]
          else [EvIcsr 0x80000000]).
Proof.
  intros required. subst required. unfold _port_switch_from_isr_v6m.
  destruct (CH_DBG_SYSTEM_STATE_CHECK cfg);
  try change (mem (core (hw (dbg_check_lock w)))) with (mem (core (hw w)));
  destruct (chSchIsPreemptionRequired env (mem (core (hw w)))),
    (CORTEX_ALTERNATE_SWITCH cfg);
    cbn -[Z.add Z.sub]; rewrite <- ?app_assoc;
    eexists; (split; [reflexivity | reflexivity]).
Qed.

Lemma port_switch_from_isr_v6m_memory cfg env w :
  mem (core (hw (_port_switch_from_isr_v6m cfg env w)))
  = if chSchIsPreemptionRequired env (mem (core (hw w)))
    then chSchDoReschedule env (mem (core (hw w)))
    else mem (core (hw w)).
Proof.
  unfold _port_switch_from_isr_v6m.
  destruct (CH_DBG_SYSTEM_STATE_CHECK cfg);
  try change (mem (core (hw (dbg_check_lock w)))) with (mem (core (hw w)));
  destruct (chSchIsPreemptionRequired env (mem (core (hw w)))),
    (CORTEX_ALTERNATE_SWITCH cfg);
    reflexivity.
Qed.

Lemma exception_return_psp cfg w :
  psp (hw (exception_return cfg w))
  = wrap32 (psp (hw w) + EXTCTX_SIZE cfg).
Proof. reflexivity. Qed.

Lemma port_switch_from_isr_psp cfg env w :
  psp (hw (_port_switch_from_isr cfg env w))
  = wrap32 ((if CORTEX_USE_FPU cfg
             then wrap32 (wrap32 (psp (hw w) - EXTCTX_SIZE cfg) + 8)
             else wrap32 (psp (hw w) - EXTCTX_SIZE cfg))
            + EXTCTX_SIZE cfg).
Proof.
  unfold _port_switch_from_isr.
  change (mem (core (hw (dbg_check_lock w)))) with (mem (core (hw w))).
  destruct (chSchIsPreemptionRequired env (mem (core (hw w)))),
    (CORTEX_SIMPLIFIED_PRIORITY cfg), (CORTEX_USE_FPU cfg) eqn:F;
    cbn [negb]; unfold SVCallVector, PendSVVector, discard_context;
    rewrite F; reflexivity.
Qed.

Lemma exception_return_pc cfg w :
  reg_of (exception_return cfg w) PC
  = branch_target (peek (psp (hw w) + EXTCTX_PC) w).
Proof. reflexivity. Qed.

Lemma port_switch_from_isr_basepri cfg env w :
  basepri (hw (_port_switch_from_isr cfg env w))
  = CORTEX_BASEPRI_DISABLED cfg.
Proof.
  unfold _port_switch_from_isr.
  change (mem (core (hw (dbg_check_lock w)))) with (mem (core (hw w))).
  destruct (chSchIsPreemptionRequired env (mem (core (hw w)))),
    (CORTEX_SIMPLIFIED_PRIORITY cfg), (CORTEX_USE_FPU cfg) eqn:F;
    cbn [negb]; unfold SVCallVector, PendSVVector, discard_context;
    rewrite F; reflexivity.
Qed.

Lemma port_switch_from_isr_v6m_hw cfg env w :
  psp (hw (_port_switch_from_isr_v6m cfg env w)) = psp (hw w) /\
  icsr (hw (_port_switch_from_isr_v6m cfg env w))
  = (if CORTEX_ALTERNATE_SWITCH cfg then 0x10000000 else 0x80000000).
Proof.
  unfold _port_switch_from_isr_v6m.
  destruct (CH_DBG_SYSTEM_STATE_CHECK cfg);
  try change (mem (core (hw (dbg_check_lock w)))) with (mem (core (hw w)));
  destruct (chSchIsPreemptionRequired env (mem (core (hw w)))),
    (CORTEX_ALTERNATE_SWITCH cfg);
    split; reflexivity.
Qed.

(** C4. Both versions of [_port_switch_from_isr] call
    [chSchDoReschedule] exactly when [chSchIsPreemptionRequired] answers
    yes: the reschedule event is among the events of the routine if and
    only if the answer is [true], it follows the check, and the kernel
    data in memory are those the reschedule leaves in that case and
    untouched otherwise. The routine of chcore_v7m.c then traps, and
    [SVCallVector] or [PendSVVector] drops the frame of the trap and the
    extra FPU words: the lock is released, PSP is at the frame of the
    interrupted thread ([frame], eight bytes above the PSP the routine is
    entered with in a build with FPU), and the exception return from the
    handler pops that frame and continues at the [pc] saved in it; when
    the check answers no, that is the interrupted thread, its frame as
    the interrupt left it. The routine of chcoreasm_v6m.s leaves PSP
    alone and pends the exception whose handler does the return. *)
Theorem C4_reschedule_iff_preemption_required cfg env w :
  let required := chSchIsPreemptionRequired env (mem (core (hw w))) in
  let frame := wrap32 (psp (hw w) + (if CORTEX_USE_FPU cfg then 8 else 0)) in
  let kept := if required then chSchDoReschedule env (mem (core (hw w)))
              else mem (core (hw w)) in
  let resumed := exception_return cfg (_port_switch_from_isr cfg env w) in
  (exists new before after,
     trace (_port_switch_from_isr cfg env w) = trace w ++ new /\
     map what new = before ++ decision_events required ++ after /\
     ~ In EvReschedule before /\ ~ In EvReschedule after /\
     (In EvReschedule (map what new) <-> required = true)) /\
  mem (core (hw (_port_switch_from_isr cfg env w)))
  = (if required then chSchDoReschedule env (mem (core (hw w)))
     else mem (core (hw w))) /\
  (exists new before after,
     trace (_port_switch_from_isr_v6m cfg env w) = trace w ++ new /\
     map what new = before ++ decision_events required ++ after /\
     ~ In EvReschedule before /\ ~ In EvReschedule after /\
     (In EvReschedule (map what new) <-> required = true)) /\
  mem (core (hw (_port_switch_from_isr_v6m cfg env w)))
  = (if required then chSchDoReschedule env (mem (core (hw w)))
     else mem (core (hw w))) /\
  psp (hw (_port_switch_from_isr cfg env w)) = frame /\
  basepri (hw (_port_switch_from_isr cfg env w))
  = CORTEX_BASEPRI_DISABLED cfg /\
  reg_of resumed PC = branch_target (load (frame + EXTCTX_PC) kept) /\
  psp (hw resumed) = wrap32 (frame + EXTCTX_SIZE cfg) /\
  mem (core (hw resumed)) = kept /\
  psp (hw (_port_switch_from_isr_v6m cfg env w)) = psp (hw w) /\
  icsr (hw (_port_switch_from_isr_v6m cfg env w))
  = (if CORTEX_ALTERNATE_SWITCH cfg then 0x10000000 else 0x80000000).
Proof.
  intros required frame kept resumed.
  assert (Hiff : forall before after,
            ~ In EvReschedule before -> ~ In EvReschedule after ->
            (In EvReschedule (before ++ decision_events required ++ after)
             <-> required = true)).
  { intros before after Hb Ha. rewrite !in_app_iff, in_decision_events.
    tauto. }
  assert (Hpsp : psp (hw (_port_switch_from_isr cfg env w)) = frame).
  { rewrite port_switch_from_isr_psp. subst frame.
    destruct (CORTEX_USE_FPU cfg); unfold wrap32;
      change (2 ^ 32) with 4294967296;
      Z.div_mod_to_equations; lia. }
  assert (Hmem : mem (core (hw (_port_switch_from_isr cfg env w))) = kept)
    by apply port_switch_from_isr_memory.
  split; [| split; [| split; [| split; [| split; [| split; [| split;
    [| split; [| split; [| split]]]]]]]]].
  - destruct (port_switch_from_isr_trace cfg env w) as (new & Ht & Hm).
    fold required in Hm.
    exists new, [EvDbgCheckLock],
      ([EvDbgCheckUnlock]
       ++ (if CORTEX_SIMPLIFIED_PRIORITY cfg
           then [EvIcsr (ICSR_PENDSVSET cfg); EvUnlock]
           else [EvSvc; EvUnlock])).
    assert (Hb : ~ In EvReschedule [EvDbgCheckLock])
      by (simpl; intuition discriminate).
    assert (Ha : ~ In EvReschedule
                   ([EvDbgCheckUnlock]
                    ++ (if CORTEX_SIMPLIFIED_PRIORITY cfg
                        then [EvIcsr (ICSR_PENDSVSET cfg); EvUnlock]
                        else [EvSvc; EvUnlock])))
      by (destruct (CORTEX_SIMPLIFIED_PRIORITY cfg); simpl;
          intuition discriminate).
    repeat split; try assumption.
    + rewrite Hm. apply Hiff; assumption.
    + rewrite Hm. apply Hiff; assumption.
  - apply port_switch_from_isr_memory.
  - destruct (port_switch_from_isr_v6m_trace cfg env w) as (new & Ht & Hm).
    fold required in Hm.
    exists new,
      (if CH_DBG_SYSTEM_STATE_CHECK cfg then [EvDbgCheckLock] else []),
      ((if CH_DBG_SYSTEM_STATE_CHECK cfg then [EvDbgCheckUnlock] else [])
       ++ (if CORTEX_ALTERNATE_SWITCH cfg
           then [EvIcsr 0x10000000; EvUnlock]
           else [EvIcsr 0x80000000])).
    assert (Hb : ~ In EvReschedule
                   (if CH_DBG_SYSTEM_STATE_CHECK cfg
                    then [EvDbgCheckLock] else []))
      by (destruct (CH_DBG_SYSTEM_STATE_CHECK cfg); simpl;
          intuition discriminate).
    assert (Ha : ~ In EvReschedule
                   ((if CH_DBG_SYSTEM_STATE_CHECK cfg
                     then [EvDbgCheckUnlock] else [])
                    ++ (if CORTEX_ALTERNATE_SWITCH cfg
                        then [EvIcsr 0x10000000; EvUnlock]
                        else [EvIcsr 0x80000000])))
      by (destruct (CH_DBG_SYSTEM_STATE_CHECK cfg),
            (CORTEX_ALTERNATE_SWITCH cfg); simpl; intuition discriminate).
    repeat split; try assumption.
    + rewrite Hm. apply Hiff; assumption.
    + rewrite Hm. apply Hiff; assumption.
  - apply port_switch_from_isr_v6m_memory.
  - exact Hpsp.
  - apply port_switch_from_isr_basepri.
  - subst resumed. rewrite exception_return_pc, Hpsp.
    unfold peek. rewrite Hmem. reflexivity.
  - subst resumed. rewrite exception_return_psp, Hpsp. reflexivity.
  - exact Hmem.
  - apply port_switch_from_isr_v6m_hw.
  - apply port_switch_from_isr_v6m_hw.
Qed.

End PortFacts.

Module IrqFacts.
Import ARM Sys Lock VT MMC Port Examples SwitchFacts PortFacts.

Lemma peek_poke_same a v w : peek a (poke a v w) = v.
Proof. unfold peek, poke, load. cbn. apply store_same. Qed.

Lemma peek_poke_other a b v w :
  wrap32 a <> wrap32 b -> peek a (poke b v w) = peek a w.
Proof. intros H. unfold peek, poke, load. cbn. apply store_other. exact H. Qed.

Lemma pc_slot_apart ctxp :
  wrap32 (ctxp + EXTCTX_PC) <> wrap32 (ctxp + EXTCTX_XPSR).
Proof.
  unfold EXTCTX_PC, EXTCTX_XPSR. intros E. symmetry in E. revert E.
  replace (ctxp + 28) with (ctxp + 24 + 4) by lia.
  apply wrap32_shift_ne. lia.
Qed.

(** The epilogue on the return-to-base path. *)
Lemma port_irq_epilogue_base cfg w :
  Z.land (icsr (hw w)) (ICSR_RETTOBASE cfg) <> 0 ->
  let w1 := _port_irq_epilogue cfg w in
  trace w1 = trace w ++ [ {| what := EvLock;
                             at_basepri := CORTEX_BASEPRI_KERNEL cfg;
                             at_primask := primask (hw w) |} ] /\
  basepri (hw w1) = CORTEX_BASEPRI_KERNEL cfg /\
  primask (hw w1) = primask (hw w) /\
  psp (hw w1) = artificial_ctxp cfg w /\
  peek (psp (hw w1) + EXTCTX_PC) w1 = sym_port_switch_from_isr cfg /\
  peek (psp (hw w1) + EXTCTX_XPSR) w1 = 0x01000000.
Proof.
  intros Hbit w1. subst w1. unfold _port_irq_epilogue, artificial_ctxp.
  change (icsr (hw (port_lock_from_isr cfg w))) with (icsr (hw w)).
  destruct (Z.eqb_spec (Z.land (icsr (hw w)) (ICSR_RETTOBASE cfg)) 0)
    as [E | _]; [tauto |].
  cbn [negb].
  destruct (CORTEX_USE_FPU cfg).
  - repeat split.
    + cbn [psp hw on_hw set_psp poke].
      rewrite peek_poke_other by apply pc_slot_apart.
      apply peek_poke_same.
    + cbn [psp hw on_hw set_psp poke]. apply peek_poke_same.
  - repeat split.
    + cbn [psp hw on_hw set_psp poke].
      rewrite peek_poke_other by apply pc_slot_apart.
      apply peek_poke_same.
    + cbn [psp hw on_hw set_psp poke]. apply peek_poke_same.
Qed.

(** The epilogue of a nested interrupt: lock, unlock, nothing else. *)
Lemma port_irq_epilogue_nested cfg w :
  Z.land (icsr (hw w)) (ICSR_RETTOBASE cfg) = 0 ->
  let w1 := _port_irq_epilogue cfg w in
  trace w1 = trace w ++ [ {| what := EvLock;
                             at_basepri := CORTEX_BASEPRI_KERNEL cfg;
                             at_primask := primask (hw w) |};
                          {| what := EvUnlock;
                             at_basepri := CORTEX_BASEPRI_DISABLED cfg;
                             at_primask := primask (hw w) |} ] /\
  basepri (hw w1) = CORTEX_BASEPRI_DISABLED cfg /\
  psp (hw w1) = psp (hw w) /\
  mem (core (hw w1)) = mem (core (hw w)).
Proof.
  intros Hbit w1. subst w1. unfold _port_irq_epilogue.
  change (icsr (hw (port_lock_from_isr cfg w))) with (icsr (hw w)).
  rewrite Hbit. cbn [Z.eqb negb].
  repeat split. cbn. rewrite <- app_assoc. reflexivity.
Qed.

(** After the exception return from the epilogue the processor is in
    [_port_switch_from_isr]. *)
Lemma exception_return_to_switch cfg w :
  Z.land (icsr (hw w)) (ICSR_RETTOBASE cfg) <> 0 ->
  let w2 := exception_return cfg (_port_irq_epilogue cfg w) in
  routine_at cfg (reg_of w2 PC) = at_port_switch_from_isr /\
  trace w2 = trace (_port_irq_epilogue cfg w) /\
  basepri (hw w2) = CORTEX_BASEPRI_KERNEL cfg.
Proof.
  intros Hbit w2.
  destruct (port_irq_epilogue_base cfg w Hbit) as (Ht & Hb & _ & _ & Hpc & _).
  subst w2. unfold exception_return. repeat split.
  - unfold routine_at, reg_of, write. cbn [hw on_hw core set_core regs set_reg
      reg_eqb set_psp].
    rewrite Hpc, Z.eqb_refl. reflexivity.
  - cbn [hw on_hw basepri set_psp set_core write]. exact Hb.
Qed.

(** Entered with the lock held, [_port_switch_from_isr] keeps it through
    the check and the reschedule; the release is its last event. *)
Lemma port_switch_from_isr_holds_lock cfg env w :
  basepri (hw w) = CORTEX_BASEPRI_KERNEL cfg ->
  let required := chSchIsPreemptionRequired env (mem (core (hw w))) in
  exists held u,
    trace (_port_switch_from_isr cfg env w) = trace w ++ held ++ [u] /\
    what u = EvUnlock /\
    at_basepri u = CORTEX_BASEPRI_DISABLED cfg /\
    forallb (under_lock cfg) held = true /\
    map what held
    = [EvDbgCheckLock] ++ decision_events required
      ++ [EvDbgCheckUnlock;
          if CORTEX_SIMPLIFIED_PRIORITY cfg
          then EvIcsr (ICSR_PENDSVSET cfg) else EvSvc] /\
    basepri (hw (_port_switch_from_isr cfg env w))
    = CORTEX_BASEPRI_DISABLED cfg.
Proof.
  intros Hb required. subst required. unfold _port_switch_from_isr.
  change (mem (core (hw (dbg_check_lock w)))) with (mem (core (hw w))).
  assert (Hu : (CORTEX_BASEPRI_KERNEL cfg =? CORTEX_BASEPRI_KERNEL cfg) = true)
    by apply Z.eqb_refl.
  destruct (chSchIsPreemptionRequired env (mem (core (hw w)))),
    (CORTEX_SIMPLIFIED_PRIORITY cfg), (CORTEX_USE_FPU cfg) eqn:F;
    cbn [negb]; unfold SVCallVector, PendSVVector, discard_context;
    rewrite F; cbn -[Z.add Z.sub wrap32 Z.eqb];
    rewrite <- ?app_assoc; cbn [app];
    rewrite ?Hb;
    match goal with
    | |- context [trace w ++ ?a :: ?b :: ?c :: ?d :: ?e :: [?u]] =>
        exists [a; b; c; d; e], u
    | |- context [trace w ++ ?a :: ?b :: ?c :: ?d :: [?u]] =>
        exists [a; b; c; d], u
    end;
    cbn -[Z.eqb]; unfold under_lock; cbn -[Z.eqb]; rewrite ?Hu;
    repeat split; reflexivity.
Qed.

(** C3. [_port_irq_epilogue] takes the lock. When the interrupt returns
    to the base level it returns with the lock held, having done nothing
    but push an exception context whose [pc] is [_port_switch_from_isr];
    the exception return enters that routine, every event up to the
    reschedule decision and the trap that follows is made under the lock,
    and the release is the last event. When the interrupt is nested the
    epilogue releases the lock at once and decides nothing. *)
Theorem C3_lock_released_only_after_the_decision cfg env w :
  (Z.land (icsr (hw w)) (ICSR_RETTOBASE cfg) <> 0 ->
   let w1 := _port_irq_epilogue cfg w in
   let w2 := exception_return cfg w1 in
   let required := chSchIsPreemptionRequired env (mem (core (hw w2))) in
   (exists l, trace w1 = trace w ++ [l] /\ what l = EvLock) /\
   lock_held cfg w1 = true /\
   peek (psp (hw w1) + EXTCTX_PC) w1 = sym_port_switch_from_isr cfg /\
   routine_at cfg (reg_of w2 PC) = at_port_switch_from_isr /\
   exists held u,
     trace (irq_exit cfg env w) = trace w1 ++ held ++ [u] /\
     what u = EvUnlock /\
     forallb (under_lock cfg) held = true /\
     map what held
     = [EvDbgCheckLock] ++ decision_events required
       ++ [EvDbgCheckUnlock;
           if CORTEX_SIMPLIFIED_PRIORITY cfg
           then EvIcsr (ICSR_PENDSVSET cfg) else EvSvc] /\
     lock_held cfg (irq_exit cfg env w)
     = (CORTEX_BASEPRI_DISABLED cfg =? CORTEX_BASEPRI_KERNEL cfg)) /\
  (Z.land (icsr (hw w)) (ICSR_RETTOBASE cfg) = 0 ->
   let w1 := _port_irq_epilogue cfg w in
   map what (skipn (length (trace w)) (trace w1)) = [EvLock; EvUnlock] /\
   psp (hw w1) = psp (hw w) /\
   mem (core (hw w1)) = mem (core (hw w))).
Proof.
  split.
  - intros Hbit w1 w2 required.
    destruct (port_irq_epilogue_base cfg w Hbit)
      as (Ht & Hb & _ & _ & Hpc & _).
    destruct (exception_return_to_switch cfg w Hbit) as (Hr & Ht2 & Hb2).
    fold w1 in Ht, Hb, Hpc, Hr, Ht2, Hb2. fold w2 in Hr, Ht2, Hb2.
    split; [eexists; split; [exact Ht | reflexivity] |].
    split; [unfold lock_held; rewrite Hb; apply Z.eqb_refl |].
    split; [exact Hpc |].
    split; [exact Hr |].
    destruct (port_switch_from_isr_holds_lock cfg env w2 Hb2)
      as (held & u & Htr & Hu & _ & Hheld & Hmap & Hbp).
    exists held, u. unfold irq_exit. fold w1. fold w2. rewrite Hr.
    rewrite Htr, Ht2. repeat split; try assumption.
    unfold lock_held. rewrite Hbp. reflexivity.
  - intros Hbit w1.
    destruct (port_irq_epilogue_nested cfg w Hbit) as (Ht & _ & Hp & Hm).
    fold w1 in Ht, Hp, Hm. repeat split; try assumption.
    rewrite Ht, skipn_app, skipn_all, Nat.sub_diag. reflexivity.
Qed.

(** A tick interrupt that preempted a thread, and the same interrupt
    nested in another handler. *)
Lemma C3_lock_released_only_after_the_decision_witness :
  let cfg := stm32f4_config false in
  let base := in_handler cfg true
                (system MMC_STOP 0 [] (fun _ => false) (fun _ => 0)) in
  let nested := in_handler cfg false
                  (system MMC_STOP 0 [] (fun _ => false) (fun _ => 0)) in
  Z.land (icsr (hw base)) (ICSR_RETTOBASE cfg) <> 0 /\
  Z.land (icsr (hw nested)) (ICSR_RETTOBASE cfg) = 0 /\
  lock_held cfg (_port_irq_epilogue cfg base) = true /\
  (exists held u,
     trace (irq_exit cfg env0 base)
     = trace (_port_irq_epilogue cfg base) ++ held ++ [u] /\
     what u = EvUnlock /\
     forallb (under_lock cfg) held = true) /\
  map what (skipn (length (trace nested))
              (trace (_port_irq_epilogue cfg nested)))
  = [EvLock; EvUnlock].
Proof.
  intros cfg base nested.
  assert (Hb : Z.land (icsr (hw base)) (ICSR_RETTOBASE cfg) <> 0)
    by (vm_compute; discriminate).
  assert (Hn : Z.land (icsr (hw nested)) (ICSR_RETTOBASE cfg) = 0)
    by reflexivity.
  destruct (C3_lock_released_only_after_the_decision cfg env0 base)
    as (Hbase & _).
  destruct (C3_lock_released_only_after_the_decision cfg env0 nested)
    as (_ & Hnested).
  destruct (Hbase Hb) as (_ & Hheld & _ & _ & held & u & Ht & Hu & Hf & _).
  destruct (Hnested Hn) as (Hmap & _).
  split; [exact Hb |]. split; [exact Hn |]. split; [exact Hheld |].
  split; [| exact Hmap].
  exists held, u. split; [exact Ht |]. split; [exact Hu | exact Hf].
Defined.

End IrqFacts.

Module StartFacts.
Import ARM Sys Lock VT MMC Port Examples Switch SwitchFacts PortFacts.

Section FirstSwitch.
Variable p : list instr.
Variable n : nat.
Variable slot : nat -> nat.
Hypothesis contract : switch_contract p n slot.
Hypothesis slot_01 : slot 0%nat <> slot 1%nat.
Hypothesis slot_08 : slot 0%nat <> slot 8%nat.
Hypothesis slot_18 : slot 1%nat <> slot 8%nat.
Hypothesis slot_small : forall i, (i < 9)%nat -> (slot i < 9)%nat.

(** The memory [SETUP_CONTEXT] leaves. *)
Lemma setup_context_memory cfg tp top pf arg mm :
  ~ In (ctx_slot tp) (area (top - words 9) 9) ->
  let mm' := SETUP_CONTEXT cfg slot tp top pf arg mm in
  let sp := wrap32 (top - words 9) in
  mm' (ctx_slot tp) = sp /\
  mm' (wrap32 (sp + words (slot 0%nat))) = pf /\
  mm' (wrap32 (sp + words (slot 1%nat))) = arg /\
  mm' (wrap32 (sp + words (slot 8%nat))) = sym_port_thread_start cfg.
Proof.
  intros Hctx mm' sp. subst mm'. unfold SETUP_CONTEXT. fold sp.
  assert (Hin : forall i, (i < 9)%nat ->
            wrap32 (sp + words (slot i)) <> wrap32 (tp + CONTEXT_OFFSET)).
  { intros i Hi E. apply Hctx. unfold ctx_slot. rewrite <- E.
    apply in_area. exists (slot i). split; [apply slot_small; exact Hi |].
    unfold sp. apply wrap32_add_l. }
  assert (Hne : forall i j, slot i <> slot j -> (i < 9)%nat -> (j < 9)%nat ->
            wrap32 (sp + words (slot i)) <> wrap32 (sp + words (slot j))).
  { intros i j Hij Hi Hj. apply wrap32_words_ne; [exact Hij | |];
      unfold words; pose proof (slot_small i Hi); pose proof (slot_small j Hj);
      lia. }
  split; [apply store_same |].
  split; [| split].
  - rewrite store_other by (apply Hin; lia).
    rewrite store_other by (apply Hne; [exact slot_08 | lia | lia]).
    rewrite store_other by (apply Hne; [exact slot_01 | lia | lia]).
    apply store_same.
  - rewrite store_other by (apply Hin; lia).
    rewrite store_other by (apply Hne; [exact slot_18 | lia | lia]).
    apply store_same.
  - rewrite store_other by (apply Hin; lia).
    apply store_same.
Qed.

(** The first switch into a thread set up by [SETUP_CONTEXT]: r4 is the
    entry function, r5 its argument, and the thread resumes in
    [_port_thread_start]. *)
Lemma first_switch_generic cfg (m : machine) tp top pf arg mm :
  mem m = SETUP_CONTEXT cfg slot tp top pf arg mm ->
  regs m R0 = tp ->
  ~ In (ctx_slot tp) (area (top - words 9) 9) ->
  (forall a, In a (ctx_slot tp :: area (top - words 9) 9) ->
             ~ In a (saved_area n (regs m SP) (regs m R1))) ->
  regs (exec p m) R4 = pf /\
  regs (exec p m) R5 = arg /\
  regs (exec p m) PC = branch_target (sym_port_thread_start cfg).
Proof.
  intros Hmem Hntp Hctx Hapart.
  destruct (setup_context_memory cfg tp top pf arg mm Hctx)
    as (Hsp & H4 & H5 & Hlr).
  rewrite <- Hmem in Hsp, H4, H5, Hlr.
  assert (Hkeep : forall a, In a (ctx_slot tp :: area (top - words 9) 9) ->
            mem (exec p m) a = mem m a).
  { intros a Ha. apply (sc_frame _ _ _ contract). apply Hapart. exact Ha. }
  assert (Hframe : forall i, (i < 9)%nat ->
            mem (exec p m) (wrap32 (wrap32 (top - words 9) + words (slot i)))
            = mem m (wrap32 (wrap32 (top - words 9) + words (slot i)))).
  { intros i Hi. apply Hkeep. right. apply in_area. exists (slot i).
    split; [apply slot_small; exact Hi | apply wrap32_add_l]. }
  assert (Hc : mem (exec p m) (ctx_slot (regs m R0)) = wrap32 (top - words 9)).
  { rewrite Hntp, Hkeep by (left; reflexivity). exact Hsp. }
  split; [| split].
  - pose proof (sc_restore _ _ _ contract m 0%nat ltac:(lia)) as E.
    cbn [nth saved_regs callee_saved app] in E.
    rewrite E, Hc, Hframe by lia. exact H4.
  - pose proof (sc_restore _ _ _ contract m 1%nat ltac:(lia)) as E.
    cbn [nth saved_regs callee_saved app] in E.
    rewrite E, Hc, Hframe by lia. exact H5.
  - rewrite (sc_resume _ _ _ contract m).
    rewrite Hc, Hframe by lia. rewrite Hlr. reflexivity.
Qed.

End FirstSwitch.

Lemma contract_of_config cfg :
  switch_contract (_port_switch cfg) (frame_words cfg) slot_v7m.
Proof.
  unfold frame_words. destruct (CORTEX_USE_FPU cfg) eqn:F.
  - apply contract_v7m_fpu. exact F.
  - apply contract_v7m. exact F.
Qed.

(** The end of both thread start routines: the call is logged in the
    masking state the routine left, and [chThdExit] follows a return. *)
Lemma call_then_exit_spec env w :
  let wc := log (EvCall (reg_of w R4) (reg_of w R0)) w in
  call_then_exit env w
  = match thread_fn env (reg_of w R4) (reg_of w R0) wc with
    | Some w2 => log EvThdExit w2
    | None => wc
    end.
Proof. reflexivity. Qed.

(** C2. A thread whose context was set up at creation is switched to for
    the first time: the switch resumes in [_port_thread_start] with the
    entry function in r4 and the argument in r5. The routine releases the
    System Lock, then calls the entry function with the argument in r0,
    BASEPRI being [CORTEX_BASEPRI_DISABLED] at the call, and when the
    function returns the next event is [chThdExit], whatever the function
    did. The v6m routine does the same with [cpsie i] as the release. *)
Theorem C2_thread_start cfg env w tp top pf arg mm :
  mem (core (hw w)) = SETUP_CONTEXT cfg slot_v7m tp top pf arg mm ->
  reg_of w R0 = tp ->
  ~ In (ctx_slot tp) (area (top - words 9) 9) ->
  (forall a, In a (ctx_slot tp :: area (top - words 9) 9) ->
     ~ In a (saved_area (frame_words cfg) (reg_of w SP) (reg_of w R1))) ->
  branch_target (sym_port_thread_start cfg)
  <> branch_target (sym_port_switch_from_isr cfg) ->
  let w1 := on_hw (set_core (exec (_port_switch cfg))) w in
  routine_at cfg (reg_of w1 PC) = at_port_thread_start /\
  reg_of w1 R4 = pf /\ reg_of w1 R5 = arg /\
  (exists wc,
     map what (skipn (length (trace w)) (trace wc)) = [EvUnlock; EvCall pf arg] /\
     basepri (hw wc) = CORTEX_BASEPRI_DISABLED cfg /\
     reg_of wc R0 = arg /\
     switch_to cfg env w
     = match thread_fn env pf arg wc with
       | Some w2 => log EvThdExit w2
       | None => wc
       end) /\
  (forall v, reg_of v R4 = pf -> reg_of v R5 = arg ->
   exists vc,
     map what (skipn (length (trace v)) (trace vc))
     = (if CH_DBG_SYSTEM_STATE_CHECK cfg then [EvDbgCheckUnlock] else [])
       ++ [EvUnlock; EvCall pf arg] /\
     primask (hw vc) = false /\
     reg_of vc R0 = arg /\
     _port_thread_start_v6m cfg env v
     = match thread_fn env pf arg vc with
       | Some v2 => log EvThdExit v2
       | None => vc
       end).
Proof.
  intros Hmem Hntp Hctx Hapart Hsym w1.
  destruct (first_switch_generic _ _ _ (contract_of_config cfg)
              ltac:(discriminate) ltac:(discriminate) ltac:(discriminate)
              ltac:(intros i Hi; exact Hi)
              cfg (core (hw w)) tp top pf arg mm Hmem Hntp Hctx Hapart)
    as (H4 & H5 & Hpc).
  assert (Hr : routine_at cfg (reg_of w1 PC) = at_port_thread_start).
  { unfold routine_at, reg_of, w1. cbn [hw on_hw core set_core].
    rewrite Hpc.
    destruct (Z.eqb_spec (branch_target (sym_port_thread_start cfg))
                (branch_target (sym_port_switch_from_isr cfg))); [tauto |].
    rewrite Z.eqb_refl. reflexivity. }
  split; [exact Hr |]. split; [exact H4 |]. split; [exact H5 |]. split.
  - exists (log (EvCall pf arg)
              (write R0 (reg_of (chSysUnlock cfg w1) R5) (chSysUnlock cfg w1))).
    repeat split.
    + cbn [trace log write on_hw chSysUnlock _port_unlock].
      change (trace w1) with (trace w).
      rewrite <- !app_assoc, skipn_app, skipn_all, Nat.sub_diag.
      reflexivity.
    + cbn. exact H5.
    + unfold switch_to. fold w1. rewrite Hr.
      unfold _port_thread_start. rewrite call_then_exit_spec.
      assert (E4 : reg_of (write R0 (reg_of (chSysUnlock cfg w1) R5)
                             (chSysUnlock cfg w1)) R4 = pf) by exact H4.
      assert (E0 : reg_of (write R0 (reg_of (chSysUnlock cfg w1) R5)
                             (chSysUnlock cfg w1)) R0 = arg) by exact H5.
      rewrite E4, E0. reflexivity.
  - intros v Hv4 Hv5.
    set (v0 := if CH_DBG_SYSTEM_STATE_CHECK cfg then dbg_check_unlock v else v).
    set (v1 := log EvUnlock (on_hw (set_primask false) v0)).
    exists (log (EvCall pf arg) (write R0 (reg_of v1 R5) v1)).
    assert (E5 : reg_of v1 R5 = arg).
    { unfold v1, v0. destruct (CH_DBG_SYSTEM_STATE_CHECK cfg); exact Hv5. }
    assert (E4 : reg_of (write R0 (reg_of v1 R5) v1) R4 = pf).
    { unfold v1, v0. destruct (CH_DBG_SYSTEM_STATE_CHECK cfg); exact Hv4. }
    assert (E0 : reg_of (write R0 (reg_of v1 R5) v1) R0 = arg) by exact E5.
    repeat split.
    + unfold v1, v0. destruct (CH_DBG_SYSTEM_STATE_CHECK cfg);
        cbn [trace log write on_hw dbg_check_unlock];
        rewrite <- !app_assoc, skipn_app, skipn_all, Nat.sub_diag;
        reflexivity.
    + exact E5.
    + unfold _port_thread_start_v6m. fold v0. fold v1.
      rewrite call_then_exit_spec. rewrite E4, E0. reflexivity.
Qed.

Lemma C2_thread_start_witness :
  let cfg := stm32f4_config false in
  let w := creating cfg in
  let w1 := on_hw (set_core (exec (_port_switch cfg))) w in
  routine_at cfg (reg_of w1 PC) = at_port_thread_start /\
  reg_of w1 R4 = 0x08001001 /\ reg_of w1 R5 = 42 /\
  (exists wc,
     map what (skipn (length (trace w)) (trace wc))
     = [EvUnlock; EvCall 0x08001001 42] /\
     basepri (hw wc) = 0 /\
     switch_to cfg env0 w = log EvThdExit wc).
Proof.
  intros cfg w w1.
  destruct (C2_thread_start cfg env0 w threadB 0x20002000 0x08001001 42
              (mem machineA))
    as (Hr & H4 & H5 & (wc & Ht & Hb & _ & Hs) & _).
  - reflexivity.
  - reflexivity.
  - vm_compute; intuition discriminate.
  - intros a Ha Hb. vm_compute in Ha, Hb.
    repeat (destruct Ha as [Ha | Ha]; [subst a; intuition discriminate |]).
    exact Ha.
  - vm_compute. discriminate.
  - split; [exact Hr |]. split; [exact H4 |]. split; [exact H5 |].
    exists wc. split; [exact Ht |]. split; [exact Hb |]. exact Hs.
Defined.

End StartFacts.

Module TmrFacts.
Import ARM Sys Lock VT MMC Port Monitor Examples.

Lemma driver_eta d :
  {| state := state d; config := config d; cnt := cnt d;
     block_addresses := block_addresses d |} = d.
Proof. destruct d; reflexivity. Qed.

Lemma tmrfunc_mmc cfg p w :
  mmc (tmrfunc cfg p w) = polled cfg (card w (systime w)) (mmc w).
Proof.
  unfold tmrfunc, polled, is_inserted.
  change (cnt (mmc (chSysLockFromIsr cfg w))) with (cnt (mmc w)).
  change (card (chSysLockFromIsr cfg w)) with (card w).
  change (systime (chSysLockFromIsr cfg w)) with (systime w).
  destruct (cnt (mmc w) >? 0); destruct (card w (systime w)); cbn [negb];
    try reflexivity.
  cbn [on_mmc set_mmc mmc set_cnt cnt].
  change (mmc (chSysLockFromIsr cfg w)) with (mmc w).
  destruct (cnt (mmc w) - 1 =? 0); reflexivity.
Qed.

(** On every branch [tmrfunc] arms its timer again. *)
Lemma tmrfunc_vtlist cfg p w :
  vtlist (tmrfunc cfg p w)
  = vt_insert (polling_ticks cfg) tmrfunc_cb p (vtlist w).
Proof.
  unfold tmrfunc, is_inserted.
  destruct (cnt (mmc (chSysLockFromIsr cfg w)) >? 0);
    destruct (card (chSysLockFromIsr cfg w)
                (systime (chSysLockFromIsr cfg w)));
    cbn [negb]; try reflexivity.
  destruct (cnt (mmc (on_mmc (fun d => set_cnt (cnt d - 1) d)
                        (chSysLockFromIsr cfg w))) =? 0); reflexivity.
Qed.

Lemma tmrfunc_frame cfg p w :
  card (tmrfunc cfg p w) = card w /\
  systime (tmrfunc cfg p w) = systime w /\
  basepri (hw (tmrfunc cfg p w)) = CORTEX_BASEPRI_DISABLED cfg.
Proof.
  unfold tmrfunc, is_inserted.
  destruct (cnt (mmc (chSysLockFromIsr cfg w)) >? 0);
    destruct (card (chSysLockFromIsr cfg w)
                (systime (chSysLockFromIsr cfg w)));
    cbn [negb]; try (repeat split; reflexivity).
  destruct (cnt (mmc (on_mmc (fun d => set_cnt (cnt d - 1) d)
                        (chSysLockFromIsr cfg w))) =? 0);
    repeat split; reflexivity.
Qed.

(** The events of one invocation: the lock is taken first, the broadcast
    if any and the re-arm are made under it, the release is last. *)
Lemma tmrfunc_trace cfg p w :
  exists body,
    trace (tmrfunc cfg p w)
    = trace w
      ++ [ {| what := EvLock; at_basepri := CORTEX_BASEPRI_KERNEL cfg;
              at_primask := primask (hw w) |} ]
      ++ body
      ++ [ {| what := EvVTSetI (polling_ticks cfg) tmrfunc_cb;
              at_basepri := CORTEX_BASEPRI_KERNEL cfg;
              at_primask := primask (hw w) |};
           {| what := EvUnlock; at_basepri := CORTEX_BASEPRI_DISABLED cfg;
              at_primask := primask (hw w) |} ] /\
    forallb (under_lock cfg) body = true /\
    (body = [] \/
     exists e, body = [ {| what := EvBroadcastI e;
                           at_basepri := CORTEX_BASEPRI_KERNEL cfg;
                           at_primask := primask (hw w) |} ]).
Proof.
  assert (Hu : (CORTEX_BASEPRI_KERNEL cfg =? CORTEX_BASEPRI_KERNEL cfg) = true)
    by apply Z.eqb_refl.
  unfold tmrfunc, is_inserted.
  destruct (cnt (mmc (chSysLockFromIsr cfg w)) >? 0);
    destruct (card (chSysLockFromIsr cfg w)
                (systime (chSysLockFromIsr cfg w)));
    cbn [negb];
    try destruct (cnt (mmc (on_mmc (fun d => set_cnt (cnt d - 1) d)
                              (chSysLockFromIsr cfg w))) =? 0);
    cbn -[Z.eqb]; rewrite <- ?app_assoc; cbn [app];
    match goal with
    | |- context [trace w ++ _ :: ?b :: _ :: [_]] =>
        exists [b]; split; [reflexivity |];
        split; [unfold under_lock; cbn -[Z.eqb]; rewrite Hu; reflexivity |];
        right; eexists; reflexivity
    | |- _ =>
        exists []; split; [reflexivity |]; split; [reflexivity |];
        left; reflexivity
    end.
Qed.

End TmrFacts.

Module VTFacts.
Import ARM Sys Lock VT MMC Port Monitor Examples TmrFacts.

Lemma lead_le_length l : (lead l <= length l)%nat.
Proof.
  induction l as [|h tl IH]; cbn [lead length]; [lia |].
  destruct (vt_time h =? 0); lia.
Qed.

Lemma wf_nonneg l : wf_vtlist l -> Forall nonneg l.
Proof.
  destruct l as [|h tl]; [constructor |].
  intros [H1 H2]. constructor; [unfold nonneg; lia | exact H2].
Qed.

Lemma count_armed_cons f h tl :
  count_armed f (h :: tl)
  = ((if vtfunc_eqb (vt_func h) f then 1 else 0) + count_armed f tl)%nat.
Proof.
  unfold count_armed. cbn [filter].
  destruct (vtfunc_eqb (vt_func h) f); reflexivity.
Qed.

Lemma expiry_nonneg f l e :
  Forall nonneg l -> expiry f l = Some e -> 0 <= e.
Proof.
  revert e. induction l as [|h tl IH]; intros e Hl He; [discriminate |].
  inversion Hl as [|? ? Hh Htl]; subst. cbn [expiry] in He.
  destruct (vtfunc_eqb (vt_func h) f).
  - inversion He; subst. exact Hh.
  - destruct (expiry f tl) as [e'|]; [| discriminate].
    inversion He; subst. specialize (IH e' Htl eq_refl).
    unfold nonneg in Hh. lia.
Qed.

Lemma expiry_armed f l :
  (0 < count_armed f l)%nat -> exists e, expiry f l = Some e.
Proof.
  induction l as [|h tl IH]; intros H; [cbn in H; lia |].
  rewrite count_armed_cons in H. cbn [expiry].
  destruct (vtfunc_eqb (vt_func h) f); [eexists; reflexivity |].
  destruct IH as (e & He); [lia |]. rewrite He. eexists; reflexivity.
Qed.

(** *** Arming *)

Lemma vt_insert_expiry t f par l :
  count_armed f l = 0%nat -> expiry f (vt_insert t f par l) = Some t.
Proof.
  revert t. induction l as [|h tl IH]; intros t Hc; cbn [vt_insert].
  - cbn. destruct f; cbn; rewrite ?Nat.eqb_refl; reflexivity.
  - rewrite count_armed_cons in Hc.
    destruct (vtfunc_eqb (vt_func h) f) eqn:Eh; [lia |].
    destruct (t <? vt_time h).
    + cbn [expiry vt_func vt_time].
      assert (E : vtfunc_eqb f f = true)
        by (destruct f; cbn; rewrite ?Nat.eqb_refl; reflexivity).
      rewrite E. reflexivity.
    + cbn [expiry]. rewrite Eh, IH by lia. f_equal. lia.
Qed.

Lemma vtfunc_eqb_refl f : vtfunc_eqb f f = true.
Proof. destruct f; cbn; rewrite ?Nat.eqb_refl; reflexivity. Qed.

Lemma vt_insert_count t f par g l :
  count_armed g (vt_insert t f par l)
  = ((if vtfunc_eqb f g then 1 else 0) + count_armed g l)%nat.
Proof.
  revert t. induction l as [|h tl IH]; intros t; cbn [vt_insert].
  - rewrite count_armed_cons. reflexivity.
  - destruct (t <? vt_time h).
    + rewrite !count_armed_cons. cbn [vt_func]. lia.
    + rewrite !count_armed_cons, IH. lia.
Qed.

Lemma vt_insert_nonneg t f par l :
  0 <= t -> Forall nonneg l -> Forall nonneg (vt_insert t f par l).
Proof.
  revert t. induction l as [|h tl IH]; intros t Ht Hl; cbn [vt_insert].
  - constructor; [exact Ht | constructor].
  - inversion Hl as [|? ? Hh Htl]; subst.
    destruct (Z.ltb_spec t (vt_time h)).
    + constructor; [exact Ht |]. constructor; [unfold nonneg; cbn; lia |].
      exact Htl.
    + constructor; [exact Hh |]. apply IH; [lia | exact Htl].
Qed.

Lemma vt_insert_lead t f par l :
  1 <= t -> Forall nonneg l -> lead (vt_insert t f par l) = lead l.
Proof.
  revert t. induction l as [|h tl IH]; intros t Ht Hl; cbn [vt_insert].
  - cbn [lead vt_time]. destruct (Z.eqb_spec t 0); [lia | reflexivity].
  - inversion Hl as [|? ? Hh Htl]; subst. unfold nonneg in Hh.
    destruct (Z.ltb_spec t (vt_time h)).
    + cbn [lead vt_time].
      destruct (Z.eqb_spec t 0); [lia |].
      destruct (Z.eqb_spec (vt_time h) 0); [lia | reflexivity].
    + cbn [lead]. destruct (Z.eqb_spec (vt_time h) 0) as [E | E].
      * rewrite IH; [reflexivity | lia | exact Htl].
      * reflexivity.
Qed.

Lemma vt_insert_wf t f par l :
  1 <= t -> wf_vtlist l -> wf_vtlist (vt_insert t f par l).
Proof.
  intros Ht Hl. destruct l as [|h tl]; cbn [vt_insert].
  - split; [exact Ht | constructor].
  - destruct Hl as [Hh Htl].
    destruct (Z.ltb_spec t (vt_time h)).
    + split; [exact Ht |]. constructor; [unfold nonneg; cbn; lia | exact Htl].
    + split; [exact Hh |]. apply vt_insert_nonneg; [lia | exact Htl].
Qed.

(** *** Cancelling *)

Lemma vt_remove_count f l :
  count_armed f (vt_remove f l) = pred (count_armed f l).
Proof.
  induction l as [|h tl IH]; [reflexivity |].
  cbn [vt_remove]. rewrite count_armed_cons.
  destruct (vtfunc_eqb (vt_func h) f) eqn:Eh.
  - destruct tl as [|n tl']; [reflexivity |].
    rewrite !count_armed_cons. cbn [vt_func]. cbn. reflexivity.
  - rewrite count_armed_cons, Eh, IH. reflexivity.
Qed.

Lemma vt_remove_nonneg f l :
  Forall nonneg l -> Forall nonneg (vt_remove f l).
Proof.
  induction l as [|h tl IH]; intros Hl; [constructor |].
  inversion Hl as [|? ? Hh Htl]; subst. cbn [vt_remove].
  destruct (vtfunc_eqb (vt_func h) f).
  - destruct tl as [|n tl']; [constructor |].
    inversion Htl as [|? ? Hn Htl']; subst. unfold nonneg in *.
    constructor; [unfold nonneg; cbn; lia | exact Htl'].
  - constructor; [exact Hh | apply IH; exact Htl].
Qed.

Lemma vt_remove_wf f l : wf_vtlist l -> wf_vtlist (vt_remove f l).
Proof.
  intros Hl. destruct l as [|h tl]; [exact I |].
  destruct Hl as [Hh Htl]. cbn [vt_remove].
  destruct (vtfunc_eqb (vt_func h) f).
  - destruct tl as [|n tl']; [exact I |].
    inversion Htl as [|? ? Hn Htl']; subst. unfold nonneg in Hn.
    split; [cbn; lia | exact Htl'].
  - split; [exact Hh | apply vt_remove_nonneg; exact Htl].
Qed.

(** *** The tick *)

Lemma invocations_app f a b :
  invocations f (a ++ b) = (invocations f a + invocations f b)%nat.
Proof. unfold invocations. rewrite filter_app, length_app. reflexivity. Qed.

Lemma tmrfunc_invocations cfg p f w :
  invocations f (trace (tmrfunc cfg p w)) = invocations f (trace w).
Proof.
  destruct (tmrfunc_trace cfg p w) as (body & Ht & _ & Hb).
  rewrite Ht, !invocations_app.
  destruct Hb as [-> | (e & ->)]; cbn; lia.
Qed.

(** The loop of the tick handler when the monitor timer is not due. *)
(** [relock] changes the masking state and the trace only. *)
Lemma relock_frame cfg w :
  vtlist (relock cfg w) = vtlist w /\
  mmc (relock cfg w) = mmc w /\
  card (relock cfg w) = card w /\
  systime (relock cfg w) = systime w /\
  (forall f, invocations f (trace (relock cfg w))
             = invocations f (trace w)).
Proof.
  unfold relock. destruct (lock_held cfg w); repeat split.
  intros f. cbn [trace chSysLockFromIsr _port_lock log on_hw write].
  rewrite invocations_app. cbn. lia.
Qed.


Lemma vt_dispatch_idle cfg fuel : forall w,
  Forall nonneg (vtlist w) ->
  expiry tmrfunc_cb (vtlist w) <> Some 0 ->
  (lead (vtlist w) <= fuel)%nat ->
  exists w',
    vt_dispatch cfg fuel w = Some w' /\
    wf_vtlist (vtlist w') /\
    count_armed tmrfunc_cb (vtlist w') = count_armed tmrfunc_cb (vtlist w) /\
    expiry tmrfunc_cb (vtlist w') = expiry tmrfunc_cb (vtlist w) /\
    invocations tmrfunc_cb (trace w') = invocations tmrfunc_cb (trace w) /\
    mmc w' = mmc w.
Proof.
  induction fuel as [|k IH]; intros w Hnn Hexp Hlead.
  - destruct (vtlist w) as [|h tl] eqn:El.
    + exists w. cbn [vt_dispatch]. rewrite ?El. repeat split.
    + cbn [lead] in Hlead. destruct (Z.eqb_spec (vt_time h) 0); [lia |].
      exists w. cbn [vt_dispatch]. rewrite El.
      destruct (Z.eqb_spec (vt_time h) 0); [lia |].
      inversion Hnn; subst. unfold nonneg in *.
      rewrite ?El. repeat split; first [lia | assumption].
  - destruct (vtlist w) as [|h tl] eqn:El.
    + exists w. cbn [vt_dispatch]. rewrite ?El. repeat split.
    + inversion Hnn as [|? ? Hh Htl]; subst. unfold nonneg in Hh.
      cbn [vt_dispatch]. rewrite El.
      destruct (Z.eqb_spec (vt_time h) 0) as [E0 | E0].
      * cbn [expiry] in Hexp.
        destruct (vt_func h) as [|j] eqn:Ef; cbn [vtfunc_eqb] in Hexp;
          [rewrite E0 in Hexp; tauto |].
        cbn [run_callback].
        set (w0 := log (EvCallback (other_cb j) (vt_par h))
                     (set_vtlist tl w)).
        destruct (relock_frame cfg w0) as (Rl & Rm & _ & _ & Ri).
        destruct (IH (relock cfg w0))
          as (w' & Hd & Hwf & Hc & He & Hi & Hm).
        -- rewrite Rl. exact Htl.
        -- rewrite Rl. cbn [vtlist log set_vtlist w0]. intros Hx.
           apply Hexp. rewrite Hx, E0. reflexivity.
        -- rewrite Rl. cbn [vtlist log set_vtlist w0]. cbn [lead] in Hlead.
           destruct (Z.eqb_spec (vt_time h) 0); lia.
        -- exists w'. split; [exact Hd |]. split; [exact Hwf |].
           rewrite Rl in Hc, He. rewrite Ri in Hi. rewrite Rm in Hm.
           cbn [vtlist log set_vtlist trace mmc w0] in Hc, He, Hi, Hm.
           rewrite count_armed_cons, Ef. cbn [vtfunc_eqb expiry].
           rewrite Ef. cbn [vtfunc_eqb].
           split; [exact Hc |]. split.
           ++ rewrite He. destruct (expiry tmrfunc_cb tl); [| reflexivity].
              rewrite E0. reflexivity.
           ++ split; [| exact Hm]. rewrite Hi, invocations_app. cbn. lia.
      * exists w. rewrite ?El. repeat split; first [lia | exact Htl].
Qed.

(** The loop of the tick handler when the monitor timer is due: the
    callback runs once and the timer is armed for the polling delay. *)
Lemma vt_dispatch_fire cfg fuel : forall w,
  1 <= polling_ticks cfg ->
  Forall nonneg (vtlist w) ->
  count_armed tmrfunc_cb (vtlist w) = 1%nat ->
  expiry tmrfunc_cb (vtlist w) = Some 0 ->
  (lead (vtlist w) <= fuel)%nat ->
  exists w',
    vt_dispatch cfg fuel w = Some w' /\
    wf_vtlist (vtlist w') /\
    count_armed tmrfunc_cb (vtlist w') = 1%nat /\
    expiry tmrfunc_cb (vtlist w') = Some (polling_ticks cfg) /\
    invocations tmrfunc_cb (trace w')
    = S (invocations tmrfunc_cb (trace w)).
Proof.
  induction fuel as [|k IH]; intros w Hd Hnn Hcount Hexp Hlead.
  - destruct (vtlist w) as [|h tl] eqn:El; [discriminate |].
    inversion Hnn as [|? ? Hh Htl]; subst. unfold nonneg in Hh.
    cbn [lead] in Hlead. cbn [expiry] in Hexp.
    destruct (Z.eqb_spec (vt_time h) 0); [lia |].
    destruct (vtfunc_eqb (vt_func h) tmrfunc_cb).
    + inversion Hexp. lia.
    + destruct (expiry tmrfunc_cb tl) as [e'|] eqn:Ee; [| discriminate].
      pose proof (expiry_nonneg _ _ _ Htl Ee). inversion Hexp. lia.
  - destruct (vtlist w) as [|h tl] eqn:El; [discriminate |].
    inversion Hnn as [|? ? Hh Htl]; subst. unfold nonneg in Hh.
    rewrite count_armed_cons in Hcount. cbn [expiry] in Hexp.
    cbn [lead] in Hlead. cbn [vt_dispatch]. rewrite El.
    destruct (vt_func h) as [|j] eqn:Ef; cbn [vtfunc_eqb] in Hexp, Hcount.
    + inversion Hexp as [E0]. rewrite E0 in *. cbn [Z.eqb] in *.
      cbn [run_callback].
      set (w0 := tmrfunc cfg (vt_par h)
                   (log (EvCallback tmrfunc_cb (vt_par h)) (set_vtlist tl w))).
      destruct (relock_frame cfg w0) as (Rl & _ & _ & _ & Ri).
      set (w1 := relock cfg w0) in *.
      assert (Hl1 : vtlist w1
                    = vt_insert (polling_ticks cfg) tmrfunc_cb (vt_par h) tl)
        by (rewrite Rl; unfold w0; rewrite tmrfunc_vtlist; reflexivity).
      destruct (vt_dispatch_idle cfg k w1)
        as (w' & Hdis & Hwf & Hc & He & Hi & _).
      * rewrite Hl1. apply vt_insert_nonneg; [lia | exact Htl].
      * rewrite Hl1, vt_insert_expiry by lia. intros Hx. inversion Hx. lia.
      * rewrite Hl1, vt_insert_lead by (lia || exact Htl). lia.
      * exists w'. split; [exact Hdis |]. split; [exact Hwf |].
        rewrite Hc, He, Hi, Hl1.
        rewrite vt_insert_count, vt_insert_expiry by lia.
        cbn [vtfunc_eqb]. split; [lia |]. split; [reflexivity |].
        rewrite Ri. unfold w0. rewrite tmrfunc_invocations.
        cbn [trace log set_vtlist]. rewrite invocations_app. cbn. lia.
    + destruct (expiry tmrfunc_cb tl) as [e'|] eqn:Ee; [| discriminate].
      pose proof (expiry_nonneg _ _ _ Htl Ee) as He'.
      assert (E0 : vt_time h = 0) by (inversion Hexp; lia).
      assert (Ee0 : e' = 0) by (inversion Hexp; lia). subst e'.
      rewrite E0 in *. cbn [Z.eqb] in *. cbn [run_callback].
      set (w0 := log (EvCallback (other_cb j) (vt_par h))
                   (set_vtlist tl w)).
      destruct (relock_frame cfg w0) as (Rl & _ & _ & _ & Ri).
      destruct (IH (relock cfg w0))
        as (w' & Hdis & Hwf & Hc & He & Hi).
      * exact Hd.
      * rewrite Rl. exact Htl.
      * rewrite Rl. cbn [vtlist log set_vtlist w0]. lia.
      * rewrite Rl. exact Ee.
      * rewrite Rl. cbn [vtlist log set_vtlist w0]. lia.
      * exists w'. split; [exact Hdis |]. split; [exact Hwf |].
        split; [exact Hc |]. split; [exact He |].
        rewrite Hi, Ri. cbn [trace log set_vtlist w0].
        rewrite invocations_app. cbn. lia.
Qed.

End VTFacts.

Module MonitorFacts.
Import ARM Sys Lock VT MMC Port Monitor Examples TmrFacts VTFacts.

Lemma expiry_unarmed f l : count_armed f l = 0%nat -> expiry f l = None.
Proof.
  induction l as [|h tl IH]; intros H; [reflexivity |].
  rewrite count_armed_cons in H. cbn [expiry].
  destruct (vtfunc_eqb (vt_func h) f); [lia |].
  rewrite IH by lia. reflexivity.
Qed.

Lemma expiry_wf f l e : wf_vtlist l -> expiry f l = Some e -> 1 <= e.
Proof.
  destruct l as [|h tl]; [discriminate |]. intros [Hh Htl] He.
  cbn [expiry] in He. destruct (vtfunc_eqb (vt_func h) f).
  - inversion He; subst. exact Hh.
  - destruct (expiry f tl) as [e'|] eqn:E; [| discriminate].
    pose proof (expiry_nonneg _ _ _ Htl E). inversion He. lia.
Qed.

(** One tick while the monitor timer is armed: the callback runs in the
    tick its timer expires in, once, and is armed again for the polling
    delay; in every other tick it does not run and has one tick less to
    go. *)
Lemma tick_armed cfg w e :
  1 <= polling_ticks cfg ->
  wf_vtlist (vtlist w) ->
  count_armed tmrfunc_cb (vtlist w) = 1%nat ->
  expiry tmrfunc_cb (vtlist w) = Some e ->
  exists w',
    chSysTimerHandlerI cfg (length (vtlist w)) w = Some w' /\
    wf_vtlist (vtlist w') /\
    count_armed tmrfunc_cb (vtlist w') = 1%nat /\
    invocations tmrfunc_cb (trace w')
    = ((if Z.eqb e 1 then 1 else 0)
       + invocations tmrfunc_cb (trace w))%nat /\
    expiry tmrfunc_cb (vtlist w')
    = Some (if e =? 1 then polling_ticks cfg else e - 1).
Proof.
  intros Hd Hwf Hc He. unfold chSysTimerHandlerI.
  cbn [vtlist set_systime].
  destruct (vtlist w) as [|h tl] eqn:El; [discriminate |].
  destruct Hwf as [Hh Htl].
  set (h' := {| vt_time := vt_time h - 1; vt_func := vt_func h;
                vt_par := vt_par h |}).
  set (w0 := set_vtlist (h' :: tl) (set_systime (S (systime w)) w)).
  assert (Hnn : Forall nonneg (vtlist w0))
    by (constructor; [unfold nonneg; cbn; lia | exact Htl]).
  assert (Hc0 : count_armed tmrfunc_cb (vtlist w0) = 1%nat)
    by (cbn [vtlist w0 set_vtlist]; rewrite count_armed_cons in *; exact Hc).
  assert (He0 : expiry tmrfunc_cb (vtlist w0) = Some (e - 1)).
  { cbn [vtlist w0 set_vtlist expiry vt_func h' vt_time]. cbn [expiry] in He.
    destruct (vtfunc_eqb (vt_func h) tmrfunc_cb).
    - inversion He. reflexivity.
    - destruct (expiry tmrfunc_cb tl); [| discriminate].
      inversion He. f_equal. lia. }
  assert (Hl0 : (lead (vtlist w0) <= length (h :: tl))%nat).
  { etransitivity; [apply lead_le_length |]. reflexivity. }
  assert (He1 : 1 <= e).
  { apply (expiry_wf tmrfunc_cb (h :: tl)); [split; assumption | exact He]. }
  destruct (Z.eqb_spec e 1) as [E1 | E1].
  - subst e.
    destruct (vt_dispatch_fire cfg (length (h :: tl)) w0 Hd Hnn Hc0 He0 Hl0)
      as (w' & Hdis & Hwf' & Hc' & He' & Hi').
    exists w'. repeat split; assumption.
  - destruct (vt_dispatch_idle cfg (length (h :: tl)) w0 Hnn)
      as (w' & Hdis & Hwf' & Hc' & He' & Hi' & _).
    + rewrite He0. intros Hx. inversion Hx. lia.
    + exact Hl0.
    + exists w'. split; [exact Hdis |]. split; [exact Hwf' |].
      rewrite Hc', He', Hi'. repeat split; assumption.
Qed.

(** One tick while the monitor timer is not armed: no invocation. *)
Lemma tick_unarmed cfg w :
  wf_vtlist (vtlist w) ->
  count_armed tmrfunc_cb (vtlist w) = 0%nat ->
  exists w',
    chSysTimerHandlerI cfg (length (vtlist w)) w = Some w' /\
    wf_vtlist (vtlist w') /\
    count_armed tmrfunc_cb (vtlist w') = 0%nat /\
    invocations tmrfunc_cb (trace w') = invocations tmrfunc_cb (trace w).
Proof.
  intros Hwf Hc. unfold chSysTimerHandlerI. cbn [vtlist set_systime].
  destruct (vtlist w) as [|h tl] eqn:El.
  - eexists. split; [reflexivity |]. cbn [vtlist set_systime trace].
    rewrite El. repeat split.
  - destruct Hwf as [Hh Htl].
    set (h' := {| vt_time := vt_time h - 1; vt_func := vt_func h;
                  vt_par := vt_par h |}).
    set (w0 := set_vtlist (h' :: tl) (set_systime (S (systime w)) w)).
    assert (Hc0 : count_armed tmrfunc_cb (vtlist w0) = 0%nat)
      by (cbn [vtlist w0 set_vtlist]; rewrite count_armed_cons in *; exact Hc).
    destruct (vt_dispatch_idle cfg (length (h :: tl)) w0)
      as (w' & Hdis & Hwf' & Hc' & _ & Hi' & _).
    + constructor; [unfold nonneg; cbn; lia | exact Htl].
    + rewrite expiry_unarmed by exact Hc0. discriminate.
    + etransitivity; [apply lead_le_length |]. reflexivity.
    + exists w'. split; [exact Hdis |]. split; [exact Hwf' |].
      rewrite Hc', Hi'. split; [exact Hc0 | reflexivity].
Qed.

(** [mmcStart] arms the monitor timer for the polling delay. *)
Lemma mmcStart_arms cfg p config w :
  1 <= polling_ticks cfg ->
  wf_vtlist (vtlist w) ->
  count_armed tmrfunc_cb (vtlist w) = 0%nat ->
  let w1 := mmcStart cfg p config w in
  wf_vtlist (vtlist w1) /\
  count_armed tmrfunc_cb (vtlist w1) = 1%nat /\
  expiry tmrfunc_cb (vtlist w1) = Some (polling_ticks cfg) /\
  state (mmc w1) = MMC_WAIT /\
  cnt (mmc w1) = MMC_POLLING_INTERVAL cfg.
Proof.
  intros Hd Hwf Hc w1. subst w1. unfold mmcStart.
  cbn [vtlist mmc chSysUnlock _port_unlock log on_hw write chVTSetI
       set_vtlist on_mmc set_mmc chSysLock _port_lock state cnt set_cnt
       set_state set_config].
  fold (polling_ticks cfg).
  split; [apply vt_insert_wf; assumption |].
  split; [rewrite vt_insert_count, Hc; reflexivity |].
  split; [apply vt_insert_expiry; exact Hc |].
  split; reflexivity.
Qed.

(** [mmcStop] in a state other than [MMC_STOP] cancels the timer. *)
Lemma mmcStop_cancels cfg w :
  wf_vtlist (vtlist w) ->
  count_armed tmrfunc_cb (vtlist w) = 1%nat ->
  state (mmc w) <> MMC_STOP ->
  let w1 := mmcStop cfg w in
  wf_vtlist (vtlist w1) /\
  count_armed tmrfunc_cb (vtlist w1) = 0%nat /\
  state (mmc w1) = MMC_STOP.
Proof.
  intros Hwf Hc Hst w1. subst w1. unfold mmcStop.
  change (state (mmc (chSysLock cfg w))) with (state (mmc w)).
  destruct (state (mmc w)) eqn:Es; try tauto;
    cbn [mmcstate_eqb negb vtlist mmc chSysUnlock _port_unlock log on_hw
         write chVTResetI set_vtlist on_mmc set_mmc chSysLock _port_lock
         state set_state spiStop];
    (split; [apply vt_remove_wf; exact Hwf |]);
    (split; [rewrite vt_remove_count, Hc; reflexivity | reflexivity]).
Qed.

(** *** The debounce counter *)

Lemma polled_debounced cfg n (ins : bool) d :
  1 <= MMC_POLLING_INTERVAL cfg ->
  debounced cfg n d ->
  debounced cfg (if ins then S n else 0%nat) (polled cfg ins d).
Proof.
  intros HI [(Hn & Hs & Hc) | (Hn & Hs & Hc)]; unfold polled; rewrite Hc.
  - destruct (Z.gtb_spec (MMC_POLLING_INTERVAL cfg - Z.of_nat n) 0); [| lia].
    destruct ins.
    + destruct (Z.eqb_spec (MMC_POLLING_INTERVAL cfg - Z.of_nat n - 1) 0).
      * right. cbn. repeat split; lia.
      * left. cbn. repeat split; [lia | exact Hs | lia].
    + left. cbn. repeat split; [lia | exact Hs | lia].
  - cbn [Z.gtb Z.compare]. destruct ins.
    + right. repeat split; [lia | exact Hs | exact Hc].
    + left. cbn. repeat split; lia.
Qed.

Lemma polls_debounced cfg p times : forall w n,
  1 <= MMC_POLLING_INTERVAL cfg ->
  debounced cfg n (mmc w) ->
  debounced cfg
    (fold_left (fun n t => if card w t then S n else 0%nat) times n)
    (mmc (polls cfg p times w)).
Proof.
  induction times as [|t times IH]; intros w n HI Hd; [exact Hd |].
  cbn [polls fold_left].
  set (w1 := tmrfunc cfg p (set_systime t w)).
  assert (Hcard : card w1 = card w)
    by (unfold w1; exact (proj1 (tmrfunc_frame cfg p (set_systime t w)))).
  rewrite <- Hcard. apply (IH w1); [exact HI |].
  rewrite Hcard. unfold w1. rewrite tmrfunc_mmc. cbn [card systime set_systime mmc].
  apply polled_debounced; assumption.
Qed.

(** C10. With a polling delay of at least one tick and a polling
    interval of at least one:
    - every invocation of [tmrfunc] arms the monitor timer again for the
      polling delay, on every branch, as its last action before the
      release of the lock;
    - [mmcStart] arms the timer; from then on, tick after tick, the
      callback runs exactly in the tick its timer expires in and is armed
      for the polling delay again, so it recurs with that period;
    - [mmcStop] in a state other than [MMC_STOP] cancels the timer, and
      no tick invokes the callback afterwards;
    - started in [MMC_WAIT] with a full counter, the monitor is in
      [MMC_INSERTED] exactly when the readings end in a run of at least
      [MMC_POLLING_INTERVAL] "inserted" ones, and in [MMC_WAIT]
      otherwise. *)
Theorem C10_monitor_polls_until_stopped cfg :
  1 <= polling_ticks cfg ->
  1 <= MMC_POLLING_INTERVAL cfg ->
  (forall p w,
     vtlist (tmrfunc cfg p w)
     = vt_insert (polling_ticks cfg) tmrfunc_cb p (vtlist w) /\
     exists before rearm last,
       trace (tmrfunc cfg p w) = trace w ++ before ++ [rearm; last] /\
       what rearm = EvVTSetI (polling_ticks cfg) tmrfunc_cb /\
       what last = EvUnlock) /\
  (forall p config w,
     wf_vtlist (vtlist w) ->
     count_armed tmrfunc_cb (vtlist w) = 0%nat ->
     let w1 := mmcStart cfg p config w in
     wf_vtlist (vtlist w1) /\
     count_armed tmrfunc_cb (vtlist w1) = 1%nat /\
     expiry tmrfunc_cb (vtlist w1) = Some (polling_ticks cfg) /\
     state (mmc w1) = MMC_WAIT /\
     cnt (mmc w1) = MMC_POLLING_INTERVAL cfg) /\
  (forall w e,
     wf_vtlist (vtlist w) ->
     count_armed tmrfunc_cb (vtlist w) = 1%nat ->
     expiry tmrfunc_cb (vtlist w) = Some e ->
     exists w',
       chSysTimerHandlerI cfg (length (vtlist w)) w = Some w' /\
       wf_vtlist (vtlist w') /\
       count_armed tmrfunc_cb (vtlist w') = 1%nat /\
       invocations tmrfunc_cb (trace w')
       = ((if Z.eqb e 1 then 1 else 0)
          + invocations tmrfunc_cb (trace w))%nat /\
       expiry tmrfunc_cb (vtlist w')
       = Some (if e =? 1 then polling_ticks cfg else e - 1)) /\
  (forall w,
     wf_vtlist (vtlist w) ->
     count_armed tmrfunc_cb (vtlist w) = 1%nat ->
     state (mmc w) <> MMC_STOP ->
     let w1 := mmcStop cfg w in
     wf_vtlist (vtlist w1) /\
     count_armed tmrfunc_cb (vtlist w1) = 0%nat /\
     state (mmc w1) = MMC_STOP) /\
  (forall w,
     wf_vtlist (vtlist w) ->
     count_armed tmrfunc_cb (vtlist w) = 0%nat ->
     exists w',
       chSysTimerHandlerI cfg (length (vtlist w)) w = Some w' /\
       wf_vtlist (vtlist w') /\
       count_armed tmrfunc_cb (vtlist w') = 0%nat /\
       invocations tmrfunc_cb (trace w')
       = invocations tmrfunc_cb (trace w)) /\
  (forall p w times,
     state (mmc w) = MMC_WAIT ->
     cnt (mmc w) = MMC_POLLING_INTERVAL cfg ->
     state (mmc (polls cfg p times w))
     = if MMC_POLLING_INTERVAL cfg
          <=? Z.of_nat (inserted_run (card w) times)
       then MMC_INSERTED else MMC_WAIT).
Proof.
  intros Hd HI.
  split; [| split; [| split; [| split; [| split]]]].
  - intros p w. split; [apply tmrfunc_vtlist |].
    destruct (tmrfunc_trace cfg p w) as (body & Ht & _).
    exists ({| what := EvLock; at_basepri := CORTEX_BASEPRI_KERNEL cfg;
               at_primask := primask (hw w) |} :: body),
      {| what := EvVTSetI (polling_ticks cfg) tmrfunc_cb;
         at_basepri := CORTEX_BASEPRI_KERNEL cfg;
         at_primask := primask (hw w) |},
      {| what := EvUnlock; at_basepri := CORTEX_BASEPRI_DISABLED cfg;
         at_primask := primask (hw w) |}.
    split; [| split; reflexivity].
    rewrite Ht. reflexivity.
  - intros p config w Hwf Hc. apply mmcStart_arms; assumption.
  - intros w e Hwf Hc He. apply tick_armed; assumption.
  - intros w Hwf Hc Hs. apply mmcStop_cancels; assumption.
  - intros w Hwf Hc. apply tick_unarmed; assumption.
  - intros p w times Hs Hc.
    assert (H0 : debounced cfg 0 (mmc w)).
    { left. cbn. repeat split; [lia | exact Hs | lia]. }
    pose proof (polls_debounced cfg p times w 0%nat HI H0) as H.
    fold (inserted_run (card w) times) in H.
    destruct (Z.leb_spec (MMC_POLLING_INTERVAL cfg)
                (Z.of_nat (inserted_run (card w) times)));
      destruct H as [(Hn & Hst & _) | (Hn & Hst & _)]; try lia; exact Hst.
Qed.

(** The default build: the driver is started in a system without other
    timers; the first tick leaves nine ticks to go, and ten "inserted"
    readings in a row bring the driver to [MMC_INSERTED]. *)
Lemma C10_monitor_polls_until_stopped_witness :
  let cfg := stm32f4_config false in
  let w := system MMC_STOP 0 [] (fun _ => true) (fun _ => 0xFF) in
  let w1 := mmcStart cfg 0 0 w in
  1 <= polling_ticks cfg /\ 1 <= MMC_POLLING_INTERVAL cfg /\
  expiry tmrfunc_cb (vtlist w1) = Some (polling_ticks cfg) /\
  (exists w',
     chSysTimerHandlerI cfg (length (vtlist w1)) w1 = Some w' /\
     expiry tmrfunc_cb (vtlist w')
     = Some (if polling_ticks cfg =? 1 then polling_ticks cfg
             else polling_ticks cfg - 1)) /\
  state (mmc (polls cfg 0 (seq 1 10) w1))
  = if MMC_POLLING_INTERVAL cfg
       <=? Z.of_nat (inserted_run (card w1) (seq 1 10))
    then MMC_INSERTED else MMC_WAIT.
Proof.
  intros cfg w w1.
  assert (H1 : 1 <= polling_ticks cfg) by (vm_compute; discriminate).
  assert (H2 : 1 <= MMC_POLLING_INTERVAL cfg) by (vm_compute; discriminate).
  destruct (C10_monitor_polls_until_stopped cfg H1 H2)
    as (_ & B & C & _ & _ & E).
  destruct (B 0 0 w I eq_refl) as (Hwf & Hc & He & Hs & Hcnt).
  fold w1 in Hwf, Hc, He, Hs, Hcnt.
  destruct (C w1 _ Hwf Hc He) as (w' & Ht & _ & _ & _ & He').
  split; [exact H1 |]. split; [exact H2 |]. split; [exact He |].
  split; [exists w'; split; [exact Ht | exact He'] |].
  apply E; assumption.
Defined.

End MonitorFacts.

Module TickFacts.
Import ARM Sys Lock VT MMC Port Monitor Examples.
Import PortFacts IrqFacts TmrFacts VTFacts.








End TickFacts.

Module I2CFacts.
Import I2C.

Lemma first_best_none prio q : first_best prio q = None -> q = [].
Proof.
  destruct q as [|t q]; [reflexivity |]. cbn [first_best].
  destruct (first_best prio q) as [u|]; [| discriminate].
  destruct (prio t <? prio u); discriminate.
Qed.

Lemma has_single t u : has t [u] = true -> u = t.
Proof.
  unfold has. cbn [existsb]. rewrite orb_false_r. intros H.
  apply Nat.eqb_eq in H. symmetry. exact H.
Qed.

Lemma remove_first_single t : remove_first t [t] = [].
Proof. cbn [remove_first]. rewrite Nat.eqb_refl. reflexivity. Qed.

Section Guard.
Variables cfgS cfgM : Config.
Variable prio : tid -> Z.
Hypothesis no_mutexes : CH_USE_MUTEXES cfgS = false.
Hypothesis semaphores : CH_USE_SEMAPHORES cfgS = true.
Hypothesis mutexes : CH_USE_MUTEXES cfgM = true.

Lemma related_fresh : related (fresh cfgS) (fresh cfgM).
Proof.
  unfold related, fresh, i2cObjectInit. rewrite no_mutexes, mutexes.
  cbn. repeat split. left. repeat split.
Qed.

Lemma related_waiting bS bM :
  related bS bM -> waiting cfgM (driver bM) = waiting cfgS (driver bS).
Proof.
  intros (_ & Hq & _). unfold waiting. rewrite no_mutexes, mutexes. exact Hq.
Qed.

Lemma related_allowed bS bM c :
  related bS bM -> allowed cfgM c bM = allowed cfgS c bS.
Proof.
  intros H. pose proof (related_waiting _ _ H) as Hw.
  destruct H as (Ho & _). unfold allowed. rewrite Ho, Hw. reflexivity.
Qed.

Lemma related_step bS bM c :
  related bS bM -> allowed cfgS c bS = true ->
  related (step cfgS prio c bS) (step cfgM prio c bM).
Proof.
  intros (Ho & Hq & Hcase) Hal.
  destruct bS as [dS oS], bM as [dM oM]. cbn [driver owners] in *. subst oM.
  unfold related, step, i2cAcquireBus, i2cReleaseBus.
  rewrite no_mutexes, semaphores, mutexes. cbn [driver owners].
  unfold allowed, waiting in Hal. rewrite no_mutexes in Hal.
  cbn [driver owners] in Hal.
  destruct c as [t | t].
  - (* Acquire *)
    apply andb_prop in Hal. destruct Hal as [Hno Hnw].
    unfold chSemWait, chMtxLock.
    destruct Hcase as [(Hoe & Hqe & Hc & Hm) | (u & Hoe & Hc & Hm & Hn)];
      rewrite Hc, Hm; subst oS.
    + cbn. repeat split; [exact Hq |]. right. exists t. repeat split.
    + assert (Hut : Nat.eqb u t = false).
      { unfold has in Hno. cbn [existsb] in Hno. rewrite orb_false_r in Hno.
        apply negb_true_iff in Hno. rewrite Nat.eqb_sym. exact Hno. }
      rewrite Hut. cbn. repeat split; [rewrite Hq; reflexivity |].
      right. exists u. repeat split; assumption.
  - (* Release *)
    unfold chSemSignal, chMtxUnlock.
    destruct Hcase as [(Hoe & Hqe & Hc & Hm) | (u & Hoe & Hc & Hm & Hn)];
      subst oS; [discriminate Hal |].
    apply has_single in Hal. subst u.
    rewrite Hm, Hn, Hc, Nat.eqb_refl, Hq. cbn [negb Z.ltb Z.compare Z.add].
    destruct (first_best prio (s_queue (id_semaphore dS))) as [v|] eqn:Eb.
    + cbn. rewrite Nat.eqb_refl. cbn. repeat split.
      right. exists v. repeat split.
    + apply first_best_none in Eb. cbn. rewrite Nat.eqb_refl. cbn.
      split; [reflexivity |]. split; [reflexivity |].
      left. repeat split. exact Eb.
Qed.

Lemma related_run cs : forall bS bM,
  related bS bM -> disciplined cfgS prio cs bS = true ->
  related (run cfgS prio cs bS) (run cfgM prio cs bM) /\
  disciplined cfgM prio cs bM = true.
Proof.
  induction cs as [|c cs IH]; intros bS bM Hr Hd; [split; [exact Hr | reflexivity] |].
  cbn [disciplined run] in *. apply andb_prop in Hd. destruct Hd as [Ha Hd].
  destruct (IH _ _ (related_step _ _ c Hr Ha) Hd) as (Hr' & Hd').
  split; [exact Hr' |].
  rewrite (related_allowed _ _ c Hr), Ha, Hd'. reflexivity.
Qed.

End Guard.

(** C8. In a build without mutexes (and with semaphores) the bus guard
    is a semaphore that [i2cObjectInit] initialises with count 1,
    [i2cAcquireBus] is a wait on it and [i2cReleaseBus] a signal. For
    every sequence of calls in which threads acquire what they neither
    own nor wait for and release what they own, at most one thread owns
    the bus, and owners and queue are at every end the same as with the
    mutex of a build with mutexes. The semaphore does not record the
    owner: it is in the same state whichever thread acquired, where the
    mutex names the thread. *)
Theorem C8_semaphore_guard_is_mutually_exclusive cfgS cfgM prio cs :
  CH_USE_MUTEXES cfgS = false ->
  CH_USE_SEMAPHORES cfgS = true ->
  CH_USE_MUTEXES cfgM = true ->
  disciplined cfgS prio cs (fresh cfgS) = true ->
  id_semaphore (driver (fresh cfgS)) = chSemInit 1 /\
  (forall t d,
     i2cAcquireBus cfgS t d
     = (set_semaphore (fst (chSemWait t (id_semaphore d))) d,
        snd (chSemWait t (id_semaphore d))) /\
     i2cReleaseBus cfgS prio t d
     = (set_semaphore (fst (chSemSignal prio (id_semaphore d))) d,
        snd (chSemSignal prio (id_semaphore d)))) /\
  (length (owners (run cfgS prio cs (fresh cfgS))) <= 1)%nat /\
  owners (run cfgM prio cs (fresh cfgM))
  = owners (run cfgS prio cs (fresh cfgS)) /\
  waiting cfgM (driver (run cfgM prio cs (fresh cfgM)))
  = waiting cfgS (driver (run cfgS prio cs (fresh cfgS))) /\
  disciplined cfgM prio cs (fresh cfgM) = true /\
  (forall t u,
     id_semaphore (fst (i2cAcquireBus cfgS t (driver (fresh cfgS))))
     = id_semaphore (fst (i2cAcquireBus cfgS u (driver (fresh cfgS))))) /\
  (forall t,
     m_owner (id_mutex (fst (i2cAcquireBus cfgM t (driver (fresh cfgM)))))
     = Some t).
Proof.
  intros HnoM HS HM Hd.
  destruct (related_run cfgS cfgM prio HnoM HS HM cs _ _
              (related_fresh cfgS cfgM HnoM HM) Hd) as (Hr & HdM).
  pose proof (related_waiting cfgS cfgM HnoM HM _ _ Hr) as Hw.
  destruct Hr as (Ho & _ & Hcase).
  split; [unfold fresh, i2cObjectInit; rewrite HnoM; reflexivity |].
  split.
  { intros t d. unfold i2cAcquireBus, i2cReleaseBus. rewrite HnoM, HS.
    destruct (chSemWait t (id_semaphore d)),
      (chSemSignal prio (id_semaphore d)). split; reflexivity. }
  split.
  { destruct Hcase as [(E & _) | (t & E & _)]; rewrite E; cbn; lia. }
  split; [exact Ho |]. split; [exact Hw |]. split; [exact HdM |].
  split.
  - intros t u. unfold fresh, i2cObjectInit, i2cAcquireBus.
    rewrite HnoM, HS. reflexivity.
  - intros t. unfold fresh, i2cObjectInit, i2cAcquireBus.
    rewrite HM. reflexivity.
Qed.

(** Threads 1, 2 and 3 contend for the bus in a minimal build. *)
Lemma C8_semaphore_guard_is_mutually_exclusive_witness :
  let prio := fun t : tid => Z.of_nat t in
  let cs := [Acquire 1; Acquire 2; Acquire 3; Release 1; Release 3;
             Acquire 1; Release 2]%nat in
  disciplined minimal_config prio cs (fresh minimal_config) = true /\
  (length (owners (run minimal_config prio cs (fresh minimal_config))) <= 1)%nat /\
  owners (run (stm32f4_config false) prio cs (fresh (stm32f4_config false)))
  = owners (run minimal_config prio cs (fresh minimal_config)).
Proof.
  intros prio cs.
  assert (Hd : disciplined minimal_config prio cs (fresh minimal_config) = true)
    by reflexivity.
  destruct (C8_semaphore_guard_is_mutually_exclusive minimal_config
              (stm32f4_config false) prio cs eq_refl eq_refl eq_refl Hd)
    as (_ & _ & Hl & Ho & _).
  split; [exact Hd |]. split; [exact Hl | exact Ho].
Defined.

End I2CFacts.

Module SwitchExtra.
Import ARM Switch SwitchFacts.

(** The only memory [_port_switch] writes is the frame it pushes on the
    stack of the outgoing thread and the context slot of that thread,
    where it leaves the stack pointer below the frame. The v6m routine
    does the same with its nine-word frame. *)
Theorem port_switch_writes_own_frame_only cfg (m : machine) :
  (forall x,
     ~ In x (saved_area (frame_words cfg) (regs m SP) (regs m R1)) ->
     mem (exec (_port_switch cfg) m) x = mem m x) /\
  mem (exec (_port_switch cfg) m) (ctx_slot (regs m R1))
  = wrap32 (regs m SP - words (frame_words cfg)) /\
  (forall x,
     ~ In x (saved_area 9 (regs m SP) (regs m R1)) ->
     mem (exec _port_switch_v6m m) x = mem m x) /\
  mem (exec _port_switch_v6m m) (ctx_slot (regs m R1))
  = wrap32 (regs m SP - words 9).
Proof.
  assert (C : switch_contract (_port_switch cfg) (frame_words cfg) slot_v7m).
  { unfold frame_words. destruct (CORTEX_USE_FPU cfg) eqn:F;
      [apply contract_v7m_fpu | apply contract_v7m]; exact F. }
  split; [| split; [| split]].
  - intros x Hx. apply (sc_frame _ _ _ C). exact Hx.
  - apply (sc_ctx _ _ _ C).
  - intros x Hx. apply (sc_frame _ _ _ contract_v6m). exact Hx.
  - apply (sc_ctx _ _ _ contract_v6m).
Qed.

Section SelfSwitch.
Variable p : list instr.
Variable n : nat.
Variable slot : nat -> nat.
Hypothesis contract : switch_contract p n slot.

Lemma self_switch_generic (m : machine) :
  regs m R0 = regs m R1 ->
  ~ In (ctx_slot (regs m R1)) (area (regs m SP - words n) n) ->
  (forall r, In r callee_saved -> regs (exec p m) r = regs m r) /\
  regs (exec p m) PC = branch_target (regs m LR) /\
  regs (exec p m) SP = wrap32 (regs m SP - words n + words 9).
Proof.
  intros Hsame Hctx.
  assert (Hc : mem (exec p m) (ctx_slot (regs m R0))
               = wrap32 (regs m SP - words n)).
  { rewrite Hsame. apply (sc_ctx _ _ _ contract). }
  assert (Hslot : forall i, (i < 9)%nat ->
            mem (exec p m)
              (wrap32 (wrap32 (regs m SP - words n) + words (slot i)))
            = regs m (nth i saved_regs R0)).
  { intros i Hi. rewrite wrap32_add_l.
    apply (sc_save _ _ _ contract); assumption. }
  split; [| split].
  - intros r Hr.
    assert (Hi : exists i, (i < 8)%nat /\ r = nth i saved_regs R0).
    { simpl in Hr.
      repeat (destruct Hr as [<- | Hr];
              [ first [ exists 0%nat; split; [lia | reflexivity]
                      | exists 1%nat; split; [lia | reflexivity]
                      | exists 2%nat; split; [lia | reflexivity]
                      | exists 3%nat; split; [lia | reflexivity]
                      | exists 4%nat; split; [lia | reflexivity]
                      | exists 5%nat; split; [lia | reflexivity]
                      | exists 6%nat; split; [lia | reflexivity]
                      | exists 7%nat; split; [lia | reflexivity] ] |]).
      contradiction. }
    destruct Hi as (i & Hi & ->).
    rewrite (sc_restore _ _ _ contract) by exact Hi.
    rewrite Hc. apply Hslot. lia.
  - rewrite (sc_resume _ _ _ contract), Hc, Hslot by lia. reflexivity.
  - rewrite (sc_sp _ _ _ contract), Hc. apply wrap32_add_l.
Qed.

End SelfSwitch.

(** A switch of a thread to itself, [_port_switch(tp, tp)], in a build
    without FPU and in the v6m routine: r4-r11 and sp are unchanged and
    the routine returns to its caller. *)
Theorem port_switch_to_self cfg (m : machine) :
  CORTEX_USE_FPU cfg = false ->
  0 <= regs m SP < 2 ^ 32 ->
  regs m R0 = regs m R1 ->
  ~ In (ctx_slot (regs m R1)) (area (regs m SP - words 9) 9) ->
  ((forall r, In r callee_saved ->
      regs (exec (_port_switch cfg) m) r = regs m r) /\
   regs (exec (_port_switch cfg) m) PC = branch_target (regs m LR) /\
   regs (exec (_port_switch cfg) m) SP = regs m SP) /\
  ((forall r, In r callee_saved ->
      regs (exec _port_switch_v6m m) r = regs m r) /\
   regs (exec _port_switch_v6m m) PC = branch_target (regs m LR) /\
   regs (exec _port_switch_v6m m) SP = regs m SP).
Proof.
  intros Hfpu Hsp Hsame Hctx.
  assert (E : wrap32 (regs m SP - words 9 + words 9) = regs m SP).
  { replace (regs m SP - words 9 + words 9) with (regs m SP)
      by (unfold words; lia).
    apply wrap32_small. exact Hsp. }
  split.
  - destruct (self_switch_generic _ _ _ (contract_v7m cfg Hfpu) m Hsame Hctx)
      as (Hr & Hpc & Hs).
    rewrite E in Hs. repeat split; assumption.
  - destruct (self_switch_generic _ _ _ contract_v6m m Hsame Hctx)
      as (Hr & Hpc & Hs).
    rewrite E in Hs. repeat split; assumption.
Qed.

(** Thread A of the concrete pair switches to itself. *)
Lemma port_switch_to_self_witness :
  let cfg := stm32f4_config false in
  let selfA := set_reg R0 threadA machineA in
  ((forall r, In r callee_saved ->
      regs (exec (_port_switch cfg) selfA) r = regs selfA r) /\
   regs (exec (_port_switch cfg) selfA) PC = branch_target (regs selfA LR) /\
   regs (exec (_port_switch cfg) selfA) SP = regs selfA SP) /\
  ((forall r, In r callee_saved ->
      regs (exec _port_switch_v6m selfA) r = regs selfA r) /\
   regs (exec _port_switch_v6m selfA) PC = branch_target (regs selfA LR) /\
   regs (exec _port_switch_v6m selfA) SP = regs selfA SP).
Proof.
  intros cfg selfA. apply (port_switch_to_self cfg selfA).
  - reflexivity.
  - vm_compute. split; [discriminate | reflexivity].
  - reflexivity.
  - vm_compute. intuition discriminate.
Defined.

End SwitchExtra.

Module IrqExtra.
Import ARM Sys Lock VT MMC Port Examples SwitchFacts PortFacts IrqFacts.

(** An interrupt that returns to the base level: the epilogue pushes the
    artificial context (and, with the FPU, two extra words) below the
    frame of the preempted thread, the exception return pops the
    context, the trap of [_port_switch_from_isr] pushes a frame again and
    [SVCallVector] or [PendSVVector] drops it together with the extra
    words. At the end PSP is back at the frame of the preempted thread,
    whatever the FPU setting and the kernel mode, and whether or not the
    scheduler switched. *)
Theorem irq_exit_restores_psp cfg env w :
  Z.land (icsr (hw w)) (ICSR_RETTOBASE cfg) <> 0 ->
  0 <= psp (hw w) < 2 ^ 32 ->
  psp (hw (irq_exit cfg env w)) = psp (hw w).
Proof.
  intros Hbit Hpsp.
  destruct (port_irq_epilogue_base cfg w Hbit) as (_ & _ & _ & Hp & _ & _).
  destruct (exception_return_to_switch cfg w Hbit) as (Hr & _ & _).
  unfold irq_exit. rewrite Hr.
  rewrite port_switch_from_isr_psp, exception_return_psp, Hp.
  unfold artificial_ctxp.
  destruct (CORTEX_USE_FPU cfg); unfold wrap32;
    change (2 ^ 32) with 4294967296 in *;
    Z.div_mod_to_equations; lia.
Qed.

Lemma irq_exit_restores_psp_witness :
  let base cfg := in_handler cfg true
                    (system MMC_STOP 0 [] (fun _ => false) (fun _ => 0)) in
  psp (hw (irq_exit (stm32f4_config true) env0 (base (stm32f4_config true))))
  = 0x20003000 /\
  psp (hw (irq_exit (stm32f4_config false) env0
             (base (stm32f4_config false))))
  = 0x20003000.
Proof.
  intros base. split.
  - apply (irq_exit_restores_psp (stm32f4_config true) env0
             (base (stm32f4_config true))).
    + vm_compute. discriminate.
    + vm_compute. split; [discriminate | reflexivity].
  - apply (irq_exit_restores_psp (stm32f4_config false) env0
             (base (stm32f4_config false))).
    + vm_compute. discriminate.
    + vm_compute. split; [discriminate | reflexivity].
Defined.

Lemma discard_context_fpu cfg w :
  CORTEX_USE_FPU cfg = true ->
  fpcar (hw (discard_context cfg w))
  = peek (psp (hw w)) (discard_context cfg w) /\
  fpccr (hw (discard_context cfg w))
  = peek (psp (hw w) + 4) (discard_context cfg w) /\
  mem (core (hw (discard_context cfg w))) = mem (core (hw w)).
Proof.
  intros F. unfold discard_context. rewrite F. cbv beta iota zeta.
  repeat split.
Qed.

Lemma port_unlock_keeps cfg w :
  fpcar (hw (port_unlock cfg w)) = fpcar (hw w) /\
  fpccr (hw (port_unlock cfg w)) = fpccr (hw w) /\
  psp (hw (port_unlock cfg w)) = psp (hw w) /\
  mem (core (hw (port_unlock cfg w))) = mem (core (hw w)).
Proof. repeat split. Qed.

(** The state in which [_port_switch_from_isr] makes its trap. *)
Lemma port_switch_from_isr_trap cfg env w :
  exists wt,
    psp (hw wt) = psp (hw w) /\
    (_port_switch_from_isr cfg env w
     = SVCallVector cfg (exception_entry cfg wt) \/
     _port_switch_from_isr cfg env w
     = PendSVVector cfg (exception_entry cfg wt)).
Proof.
  unfold _port_switch_from_isr.
  change (mem (core (hw (dbg_check_lock w)))) with (mem (core (hw w))).
  destruct (chSchIsPreemptionRequired env (mem (core (hw w)))),
    (CORTEX_SIMPLIFIED_PRIORITY cfg); cbn [negb]; cbv zeta;
    eexists; (split; [| first [left; reflexivity | right; reflexivity]]);
    reflexivity.
Qed.

Lemma port_switch_from_isr_fpu cfg env w :
  CORTEX_USE_FPU cfg = true ->
  let wf := _port_switch_from_isr cfg env w in
  fpcar (hw wf) = peek (wrap32 (psp (hw w) - EXTCTX_SIZE cfg)) wf /\
  fpccr (hw wf) = peek (wrap32 (psp (hw w) - EXTCTX_SIZE cfg) + 4) wf.
Proof.
  intros F wf. subst wf.
  destruct (port_switch_from_isr_trap cfg env w) as (wt & Hp & [E | E]);
    rewrite E; clear E.
  - unfold SVCallVector.
    destruct (discard_context_fpu cfg (exception_entry cfg wt) F)
      as (Hcar & Hccr & _).
    set (wd := discard_context cfg (exception_entry cfg wt)) in *.
    destruct (port_unlock_keeps cfg wd) as (Kcar & Kccr & _ & Kmem).
    unfold port_unlock_from_isr. fold (port_unlock cfg wd).
    rewrite Kcar, Kccr. unfold peek. rewrite Kmem.
    unfold peek in Hcar, Hccr. rewrite Hcar, Hccr.
    change (psp (hw (exception_entry cfg wt)))
      with (wrap32 (psp (hw wt) - EXTCTX_SIZE cfg)).
    rewrite Hp. split; reflexivity.
  - unfold PendSVVector.
    destruct (discard_context_fpu cfg (exception_entry cfg wt) F)
      as (Hcar & Hccr & _).
    rewrite Hcar, Hccr.
    change (psp (hw (exception_entry cfg wt)))
      with (wrap32 (psp (hw wt) - EXTCTX_SIZE cfg)).
    rewrite Hp. split; reflexivity.
Qed.

Lemma peek_on_hw a f w :
  mem (core (f (hw w))) = mem (core (hw w)) ->
  peek a (on_hw f w) = peek a w.
Proof. intros E. unfold peek. cbn [on_hw hw]. rewrite E. reflexivity. Qed.

Lemma peek_wrap32 a w : peek (wrap32 a) w = peek a w.
Proof. unfold peek, load. rewrite wrap32_idem. reflexivity. Qed.

Lemma peek_wrap32_add a b w : peek (wrap32 a + b) w = peek (a + b) w.
Proof. unfold peek, load. rewrite wrap32_add_l. reflexivity. Qed.

(** With the FPU, [_port_irq_epilogue] stores SCB_FPCCR in the word
    below the frame of the preempted thread and SCB_FPCAR in the word
    below that, and sets LSPACT; the stores of the artificial context do
    not overwrite the two words. [SVCallVector] and [PendSVVector] load
    the two registers from the first two words at the PSP they are
    entered with, which is the base of the frame pushed by the trap:
    these words lie one exception context below the words the epilogue
    stored. *)
Theorem fpu_registers_saved_and_reloaded cfg env w :
  CORTEX_USE_FPU cfg = true ->
  Z.land (icsr (hw w)) (ICSR_RETTOBASE cfg) <> 0 ->
  32 <= EXTCTX_SIZE cfg < 2 ^ 31 ->
  let p := psp (hw w) in
  let w1 := _port_irq_epilogue cfg w in
  let wf := irq_exit cfg env w in
  (peek (p - 4) w1 = fpccr (hw w) /\
   peek (p - 8) w1 = fpcar (hw w) /\
   fpccr (hw w1) = Z.lor (fpccr (hw w)) (FPCCR_LSPACT cfg)) /\
  (fpccr (hw wf) = peek (p - 4 - EXTCTX_SIZE cfg) wf /\
   fpcar (hw wf) = peek (p - 8 - EXTCTX_SIZE cfg) wf).
Proof.
  intros F Hbit Hsize p w1 wf.
  assert (Hne : forall a d, 0 < d < 2 ^ 32 -> wrap32 a <> wrap32 (a - d)).
  { intros a d Hd E. apply (wrap32_shift_ne (a - d) d Hd).
    replace (a - d + d) with a by lia. exact E. }
  assert (Hctx : forall c, 0 <= c < 32 ->
            wrap32 (wrap32 (wrap32 (p - 8) - EXTCTX_SIZE cfg) + c)
            = wrap32 (p - (EXTCTX_SIZE cfg + 8 - c))).
  { intros c Hc. unfold wrap32. change (2 ^ 32) with 4294967296 in *.
    Z.div_mod_to_equations; lia. }
  split.
  - subst w1. unfold _port_irq_epilogue.
    change (icsr (hw (port_lock_from_isr cfg w))) with (icsr (hw w)).
    destruct (Z.eqb_spec (Z.land (icsr (hw w)) (ICSR_RETTOBASE cfg)) 0)
      as [E | _]; [tauto |].
    rewrite F. cbv beta iota zeta. cbn [negb].
    change (psp (hw (port_lock_from_isr cfg w))) with p.
    change (fpccr (hw (port_lock_from_isr cfg w))) with (fpccr (hw w)).
    unfold EXTCTX_PC, EXTCTX_XPSR.
    split; [| split].
    + rewrite peek_poke_other.
      2:{ rewrite Hctx by lia. replace (p - 4) with (p - 4 - 0) at 1 by lia.
          replace (p - (EXTCTX_SIZE cfg + 8 - 28))
            with (p - 4 - (EXTCTX_SIZE cfg - 24)) by lia.
          rewrite Z.sub_0_r. apply Hne. lia. }
      rewrite peek_poke_other.
      2:{ rewrite Hctx by lia.
          replace (p - (EXTCTX_SIZE cfg + 8 - 24))
            with (p - 4 - (EXTCTX_SIZE cfg - 20)) by lia.
          apply Hne. lia. }
      rewrite peek_on_hw by reflexivity. rewrite peek_on_hw by reflexivity.
      rewrite peek_poke_other.
      2:{ replace (p - 8) with (p - 4 - 4) by lia. apply Hne. lia. }
      apply peek_poke_same.
    + rewrite peek_poke_other.
      2:{ rewrite Hctx by lia.
          replace (p - (EXTCTX_SIZE cfg + 8 - 28))
            with (p - 8 - (EXTCTX_SIZE cfg - 28)) by lia.
          apply Hne. lia. }
      rewrite peek_poke_other.
      2:{ rewrite Hctx by lia.
          replace (p - (EXTCTX_SIZE cfg + 8 - 24))
            with (p - 8 - (EXTCTX_SIZE cfg - 24)) by lia.
          apply Hne. lia. }
      rewrite peek_on_hw by reflexivity. rewrite peek_on_hw by reflexivity.
      apply peek_poke_same.
    + reflexivity.
  - destruct (port_irq_epilogue_base cfg w Hbit) as (_ & _ & _ & Hp & _ & _).
    destruct (exception_return_to_switch cfg w Hbit) as (Hr & _ & _).
    subst wf. unfold irq_exit. rewrite Hr.
    destruct (port_switch_from_isr_fpu cfg env
                (exception_return cfg (_port_irq_epilogue cfg w)) F)
      as (Hcar & Hccr).
    rewrite Hcar, Hccr.
    rewrite exception_return_psp, Hp. unfold artificial_ctxp. rewrite F.
    fold p. split.
    + unfold peek, load. f_equal. unfold wrap32.
      change (2 ^ 32) with 4294967296 in *.
      Z.div_mod_to_equations; lia.
    + unfold peek, load. f_equal. unfold wrap32.
      change (2 ^ 32) with 4294967296 in *.
      Z.div_mod_to_equations; lia.
Qed.

Lemma fpu_registers_saved_and_reloaded_witness :
  let cfg := stm32f4_config true in
  let w := in_handler cfg true
             (system MMC_STOP 0 [] (fun _ => false) (fun _ => 0)) in
  let wf := irq_exit cfg env0 w in
  fpccr (hw wf) = peek (psp (hw w) - 4 - EXTCTX_SIZE cfg) wf /\
  fpcar (hw wf) = peek (psp (hw w) - 8 - EXTCTX_SIZE cfg) wf.
Proof.
  intros cfg w wf.
  destruct (fpu_registers_saved_and_reloaded cfg env0 w) as (_ & H).
  - reflexivity.
  - vm_compute. discriminate.
  - vm_compute. split; [discriminate | reflexivity].
  - exact H.
Defined.

(** [_port_switch_from_isr] of chcoreasm_v6m.s ends by writing SCB_ICSR
    through r2: 128 shifted left by 24, the NMI pending bit, and
    PRIMASK stays as it was; with [CORTEX_ALTERNATE_SWITCH] 128 shifted
    left by 21, the PendSV pending bit, and [cpsie i] clears PRIMASK.
    BASEPRI is not touched on this architecture. *)
Theorem port_switch_from_isr_v6m_pends cfg env w :
  let wf := _port_switch_from_isr_v6m cfg env w in
  icsr (hw wf)
  = (if CORTEX_ALTERNATE_SWITCH cfg then 0x10000000 else 0x80000000) /\
  primask (hw wf)
  = (if CORTEX_ALTERNATE_SWITCH cfg then false else primask (hw w)) /\
  reg_of wf R2 = 0xE000ED04 /\
  reg_of wf R3 = icsr (hw wf) /\
  basepri (hw wf) = basepri (hw w).
Proof.
  intros wf. subst wf. unfold _port_switch_from_isr_v6m.
  destruct (CH_DBG_SYSTEM_STATE_CHECK cfg);
  try change (mem (core (hw (dbg_check_lock w)))) with (mem (core (hw w)));
  destruct (chSchIsPreemptionRequired env (mem (core (hw w)))),
    (CORTEX_ALTERNATE_SWITCH cfg);
    repeat split.
Qed.

End IrqExtra.

Module MMCOpsFacts.
Import ARM Sys Lock VT MMC MMCOps Examples MMCFacts.

Lemma since_app w w' l : trace w' = trace w ++ l -> since w w' = l.
Proof.
  intros E. unfold since. rewrite E, skipn_app, skipn_all, Nat.sub_diag.
  reflexivity.
Qed.

Lemma world_eta w :
  {| hw := hw w; systime := systime w; vtlist := vtlist w; mmc := mmc w;
     card := card w; spi_rx := spi_rx w; spi_pos := spi_pos w;
     trace := trace w |} = w.
Proof. destruct w; reflexivity. Qed.

Lemma set_spi_pos_set_spi_pos a b w :
  set_spi_pos a (set_spi_pos b w) = set_spi_pos a w.
Proof. reflexivity. Qed.

(** *** [wait] *)

Lemma wait_short_idle n k w :
  (k < n)%nat ->
  (forall i, (i < k)%nat -> spi_rx w (spi_pos w + i) <> 0xFF) ->
  spi_rx w (spi_pos w + k) = 0xFF ->
  wait_short n w = (true, set_spi_pos (spi_pos w + S k) w).
Proof.
  revert k w. induction n as [|n IH]; intros k w Hk Hb Hi; [lia |].
  cbn [wait_short]. rewrite spiReceive_one. cbn [hd].
  destruct k as [|k].
  - rewrite Nat.add_0_r in Hi. rewrite Hi. reflexivity.
  - assert (H0 := Hb 0%nat ltac:(lia)). rewrite Nat.add_0_r in H0.
    destruct (Z.eqb_spec (spi_rx w (spi_pos w)) 0xFF) as [E | _]; [tauto |].
    rewrite (IH k).
    + cbn [spi_pos set_spi_pos]. rewrite set_spi_pos_set_spi_pos.
      do 2 f_equal. lia.
    + lia.
    + intros i Hlt. cbn [spi_rx spi_pos set_spi_pos].
      replace (spi_pos w + 1 + i)%nat with (spi_pos w + S i)%nat by lia.
      apply Hb. lia.
    + cbn [spi_rx spi_pos set_spi_pos].
      replace (spi_pos w + 1 + k)%nat with (spi_pos w + S k)%nat by lia.
      exact Hi.
Qed.

Lemma wait_short_busy n w :
  (forall i, (i < n)%nat -> spi_rx w (spi_pos w + i) <> 0xFF) ->
  wait_short n w = (false, set_spi_pos (spi_pos w + n) w).
Proof.
  revert w. induction n as [|n IH]; intros w Hb.
  - cbn [wait_short]. rewrite Nat.add_0_r. unfold set_spi_pos.
    rewrite world_eta. reflexivity.
  - cbn [wait_short]. rewrite spiReceive_one. cbn [hd].
    assert (H0 := Hb 0%nat ltac:(lia)). rewrite Nat.add_0_r in H0.
    destruct (Z.eqb_spec (spi_rx w (spi_pos w)) 0xFF) as [E | _]; [tauto |].
    rewrite IH.
    + cbn [spi_pos set_spi_pos]. rewrite set_spi_pos_set_spi_pos.
      do 2 f_equal. lia.
    + intros i Hlt. cbn [spi_rx spi_pos set_spi_pos].
      replace (spi_pos w + 1 + i)%nat with (spi_pos w + S i)%nat by lia.
      apply Hb. lia.
Qed.

Lemma sent_app a b : sent (a ++ b) = sent a ++ sent b.
Proof.
  induction a as [|s a IH]; [reflexivity |].
  cbn [app sent]. destruct (what s); rewrite IH; try reflexivity.
  apply app_assoc.
Qed.

Lemma slept_app a b : slept (a ++ b) = slept a ++ slept b.
Proof.
  induction a as [|s a IH]; [reflexivity |].
  cbn [app slept]. destruct (what s); rewrite IH; reflexivity.
Qed.

(** *** The sleeps of the waiting loops *)

Lemma nice_sleep_fields cfg w :
  spi_rx (nice_sleep cfg w) = spi_rx w /\
  spi_pos (nice_sleep cfg w) = spi_pos w /\
  mmc (nice_sleep cfg w) = mmc w /\
  hw (nice_sleep cfg w) = hw w.
Proof. unfold nice_sleep. destruct (MMC_NICE_WAITING cfg); repeat split. Qed.

Lemma nice_sleep_set_spi_pos cfg p w :
  nice_sleep cfg (set_spi_pos p w) = set_spi_pos p (nice_sleep cfg w).
Proof. unfold nice_sleep. destruct (MMC_NICE_WAITING cfg); reflexivity. Qed.

Lemma nice_sleep_trace cfg w :
  trace (nice_sleep cfg w)
  = trace w
    ++ (if MMC_NICE_WAITING cfg
        then [ {| what := EvSleep 1; at_basepri := basepri (hw w);
                  at_primask := primask (hw w) |} ]
        else []).
Proof.
  unfold nice_sleep. destruct (MMC_NICE_WAITING cfg);
    [reflexivity | rewrite app_nil_r; reflexivity].
Qed.

Lemma naps_S cfg n w : naps cfg n (nice_sleep cfg w) = naps cfg (S n) w.
Proof. unfold naps. symmetry. apply Nat.iter_succ_r. Qed.

Lemma naps_set_spi_pos cfg n p w :
  naps cfg n (set_spi_pos p w) = set_spi_pos p (naps cfg n w).
Proof.
  unfold naps. induction n as [|n IH]; [reflexivity |].
  rewrite !Nat.iter_succ, IH. apply nice_sleep_set_spi_pos.
Qed.

(** The sleeps change the trace only: they append [n] sleeps of one tick
    in a build with [MMC_NICE_WAITING] and nothing otherwise. *)
Lemma naps_fields cfg n w :
  spi_rx (naps cfg n w) = spi_rx w /\
  spi_pos (naps cfg n w) = spi_pos w /\
  mmc (naps cfg n w) = mmc w /\
  hw (naps cfg n w) = hw w /\
  exists l,
    trace (naps cfg n w) = trace w ++ l /\
    map what l
    = (if MMC_NICE_WAITING cfg then repeat (EvSleep 1) n else []) /\
    sent l = [].
Proof.
  unfold naps. induction n as [|n IH].
  - repeat split. exists []. rewrite app_nil_r.
    destruct (MMC_NICE_WAITING cfg); repeat split.
  - rewrite Nat.iter_succ.
    destruct IH as (Hrx & Hpos & Hmmc & Hhw & l & Ht & Hm & Hs).
    destruct (nice_sleep_fields cfg (Nat.iter n (nice_sleep cfg) w))
      as (Srx & Spos & Smmc & Shw).
    rewrite Srx, Spos, Smmc, Shw.
    split; [exact Hrx |]. split; [exact Hpos |]. split; [exact Hmmc |].
    split; [exact Hhw |].
    rewrite nice_sleep_trace, Ht, <- app_assoc.
    eexists. split; [reflexivity |].
    rewrite map_app, Hm, sent_app, Hs.
    destruct (MMC_NICE_WAITING cfg); cbn [map what app sent repeat].
    + split; [| reflexivity].
      change (EvSleep 1 :: repeat (EvSleep 1) n)
        with (repeat (EvSleep 1) (S n)).
      rewrite <- repeat_cons. reflexivity.
    + split; reflexivity.
Qed.

Lemma naps_0 cfg w : naps cfg 0 w = w.
Proof. reflexivity. Qed.

(** *** [wait], the second loop *)

Lemma wait_long_idle cfg fuel k w :
  (k < fuel)%nat ->
  (forall i, (i < k)%nat -> spi_rx w (spi_pos w + i) <> 0xFF) ->
  spi_rx w (spi_pos w + k) = 0xFF ->
  wait_long cfg fuel w
  = Some (set_spi_pos (spi_pos w + S k) (naps cfg k w)).
Proof.
  revert k w. induction fuel as [|n IH]; intros k w Hk Hb Hi; [lia |].
  cbn [wait_long]. rewrite spiReceive_one. cbn [hd].
  destruct k as [|k].
  - rewrite Nat.add_0_r in Hi. rewrite Hi. reflexivity.
  - assert (H0 := Hb 0%nat ltac:(lia)). rewrite Nat.add_0_r in H0.
    destruct (Z.eqb_spec (spi_rx w (spi_pos w)) 0xFF) as [E | _]; [tauto |].
    rewrite nice_sleep_set_spi_pos.
    destruct (nice_sleep_fields cfg w) as (Srx & Spos & _).
    rewrite (IH k).
    + cbn [spi_pos set_spi_pos]. rewrite naps_set_spi_pos, naps_S.
      rewrite set_spi_pos_set_spi_pos.
      do 2 f_equal. lia.
    + lia.
    + intros i Hlt. cbn [spi_rx spi_pos set_spi_pos]. rewrite Srx.
      replace (spi_pos w + 1 + i)%nat with (spi_pos w + S i)%nat by lia.
      apply Hb. lia.
    + cbn [spi_rx spi_pos set_spi_pos]. rewrite Srx.
      replace (spi_pos w + 1 + k)%nat with (spi_pos w + S k)%nat by lia.
      exact Hi.
Qed.

Lemma wait_long_busy cfg fuel w :
  (forall i, spi_rx w (spi_pos w + i) <> 0xFF) ->
  wait_long cfg fuel w = None.
Proof.
  revert w. induction fuel as [|n IH]; intros w Hb; [reflexivity |].
  cbn [wait_long]. rewrite spiReceive_one. cbn [hd].
  assert (H0 := Hb 0%nat). rewrite Nat.add_0_r in H0.
  destruct (Z.eqb_spec (spi_rx w (spi_pos w)) 0xFF) as [E | _]; [tauto |].
  apply IH. intros i.
  destruct (nice_sleep_fields cfg (set_spi_pos (spi_pos w + 1) w))
    as (Srx & Spos & _).
  rewrite Srx, Spos. cbn [spi_rx spi_pos set_spi_pos].
  replace (spi_pos w + 1 + i)%nat with (spi_pos w + S i)%nat by lia.
  apply Hb.
Qed.

(** The card answers 0xFF for the first time at byte [k]: [wait] returns
    having clocked [k + 1] bytes, provided the unbounded second loop is
    given the receives it needs; the second loop has slept after each of
    the answers it saw before. *)
Lemma wait_idle cfg fuel k w :
  (k < 16 + fuel)%nat ->
  (forall i, (i < k)%nat -> spi_rx w (spi_pos w + i) <> 0xFF) ->
  spi_rx w (spi_pos w + k) = 0xFF ->
  wait cfg fuel w
  = Some (set_spi_pos (spi_pos w + S k) (naps cfg (k - 16) w)).
Proof.
  intros Hk Hb Hi. unfold wait.
  destruct (Nat.lt_ge_cases k 16) as [Hlt | Hge].
  - rewrite (wait_short_idle 16 k) by assumption.
    replace (k - 16)%nat with 0%nat by lia. reflexivity.
  - rewrite wait_short_busy by (intros i Hi16; apply Hb; lia).
    rewrite (wait_long_idle cfg fuel (k - 16)).
    + cbn [spi_pos set_spi_pos]. rewrite naps_set_spi_pos.
      rewrite set_spi_pos_set_spi_pos.
      do 2 f_equal. lia.
    + lia.
    + intros i Hlt. cbn [spi_rx spi_pos set_spi_pos].
      rewrite <- Nat.add_assoc. apply Hb. lia.
    + cbn [spi_rx spi_pos set_spi_pos].
      rewrite <- Nat.add_assoc.
      replace (16 + (k - 16))%nat with k by lia. exact Hi.
Qed.

(** On an idle bus [wait] clocks one byte. *)
Lemma wait_idle_bus cfg fuel w :
  spi_rx w (spi_pos w) = 0xFF ->
  wait cfg fuel w = Some (set_spi_pos (spi_pos w + 1) w).
Proof.
  intros Hi. rewrite (wait_idle cfg fuel 0 w).
  - reflexivity.
  - lia.
  - intros i Hlt. lia.
  - rewrite Nat.add_0_r. exact Hi.
Qed.

Lemma wait_busy cfg fuel w :
  (forall i, spi_rx w (spi_pos w + i) <> 0xFF) ->
  wait cfg fuel w = None.
Proof.
  intros Hb. unfold wait.
  rewrite wait_short_busy by (intros i _; apply Hb).
  apply wait_long_busy. intros i. cbn [spi_rx spi_pos set_spi_pos].
  rewrite <- Nat.add_assoc. apply Hb.
Qed.

(** [wait] changes the SPI position and, by its sleeps, the trace. *)
Lemma wait_long_frame cfg fuel w w' :
  wait_long cfg fuel w = Some w' ->
  mmc w' = mmc w /\ hw w' = hw w /\ spi_rx w' = spi_rx w.
Proof.
  revert w. induction fuel as [|n IH]; intros w H; [discriminate |].
  cbn [wait_long] in H. rewrite spiReceive_one in H. cbn [hd] in H.
  destruct (spi_rx w (spi_pos w) =? 0xFF).
  - inversion H. repeat split.
  - apply IH in H.
    destruct (nice_sleep_fields cfg (set_spi_pos (spi_pos w + 1) w))
      as (Srx & _ & Smmc & Shw).
    rewrite Srx, Smmc, Shw in H. exact H.
Qed.

Lemma wait_short_frame n w :
  exists k, snd (wait_short n w) = set_spi_pos (spi_pos w + k) w.
Proof.
  revert w. induction n as [|n IH]; intros w.
  - exists 0%nat. cbn. rewrite Nat.add_0_r. unfold set_spi_pos.
    rewrite world_eta. reflexivity.
  - cbn [wait_short]. rewrite spiReceive_one. cbn [hd].
    destruct (spi_rx w (spi_pos w) =? 0xFF).
    + exists 1%nat. reflexivity.
    + destruct (IH (set_spi_pos (spi_pos w + 1) w)) as (k & E).
      exists (S k). rewrite E. cbn [spi_pos set_spi_pos].
      rewrite set_spi_pos_set_spi_pos. f_equal. lia.
Qed.

Lemma wait_frame cfg fuel w w' :
  wait cfg fuel w = Some w' ->
  mmc w' = mmc w /\ hw w' = hw w /\ spi_rx w' = spi_rx w.
Proof.
  unfold wait. destruct (wait_short_frame 16 w) as (k & E).
  destruct (wait_short 16 w) as [idle w1]. cbn [snd] in E. subst w1.
  destruct idle.
  - intros H. inversion H. repeat split.
  - intros H. apply wait_long_frame in H. exact H.
Qed.

(** *** [recvr1] *)

(** [recvr1] clocks between one and nine bytes and changes nothing else. *)
Lemma recvr1_frame w :
  exists k, (1 <= k <= 9)%nat /\
    snd (recvr1 w) = set_spi_pos (spi_pos w + k) w.
Proof.
  unfold recvr1.
  assert (G : forall n w, exists k, (k <= n)%nat /\ (1 <= n -> 1 <= k)%nat /\
                snd (recvr1_loop n w) = set_spi_pos (spi_pos w + k) w).
  { clear w. induction n as [|n IH]; intros w.
    - exists 0%nat. split; [lia |]. split; [lia |]. cbn.
      rewrite Nat.add_0_r. unfold set_spi_pos. rewrite world_eta.
      reflexivity.
    - cbn [recvr1_loop]. rewrite spiReceive_one. cbn [hd].
      destruct (negb (spi_rx w (spi_pos w) =? 0xFF)).
      + exists 1%nat. split; [lia |]. split; [lia |]. reflexivity.
      + destruct (IH (set_spi_pos (spi_pos w + 1) w)) as (k & Hk & _ & E).
        exists (S k). split; [lia |]. split; [lia |]. rewrite E.
        cbn [spi_pos set_spi_pos]. rewrite set_spi_pos_set_spi_pos.
        f_equal. lia. }
  destruct (G 9%nat w) as (k & Hk & H1 & E).
  exists k. split; [lia | exact E].
Qed.

End MMCOpsFacts.

Module MMCExtra.
Import ARM Sys Lock VT MMC MMCOps Examples MMCFacts MMCOpsFacts.

(** Rewrites [since w w'] when the trace of [w'] is that of [w] with
    entries appended. *)
Ltac appended :=
  erewrite since_app by (cbn; rewrite <- ?app_assoc; reflexivity).

(** [wait] returns when the card answers 0xFF for the first time, having
    clocked the bytes up to and including that one (sixteen receives are
    made by the first loop, the others need [fuel]). The driver and the
    processor are as before. In a build with [MMC_NICE_WAITING] the
    second loop has slept one tick after each answer it saw that was not
    0xFF; otherwise there is no event. With a card that never answers
    0xFF [wait] does not return, however long it is run. *)
Theorem wait_returns_on_first_idle_byte cfg w :
  (forall fuel k,
     (k < 16 + fuel)%nat ->
     (forall i, (i < k)%nat -> spi_rx w (spi_pos w + i) <> 0xFF) ->
     spi_rx w (spi_pos w + k) = 0xFF ->
     exists w',
       wait cfg fuel w = Some w' /\
       spi_pos w' = (spi_pos w + S k)%nat /\
       mmc w' = mmc w /\ hw w' = hw w /\
       map what (since w w')
       = (if MMC_NICE_WAITING cfg then repeat (EvSleep 1) (k - 16)
          else [])) /\
  ((forall i, spi_rx w (spi_pos w + i) <> 0xFF) ->
   forall fuel, wait cfg fuel w = None).
Proof.
  split.
  - intros fuel k Hk Hb Hi.
    rewrite (wait_idle cfg fuel k w Hk Hb Hi).
    destruct (naps_fields cfg (k - 16) w)
      as (_ & Hpos & Hmmc & Hhw & l & Ht & Hm & _).
    eexists. split; [reflexivity |].
    cbn [spi_pos mmc hw set_spi_pos].
    split; [reflexivity |]. split; [exact Hmmc |]. split; [exact Hhw |].
    rewrite (since_app w _ l); [exact Hm | exact Ht].
  - intros Hb fuel. apply wait_busy. exact Hb.
Qed.

(** A card that is busy (0x00) for twenty bytes and then idle, in a
    build without and in a build with [MMC_NICE_WAITING], and a card
    that is busy for ever. *)
Lemma wait_returns_on_first_idle_byte_witness :
  let cfg := stm32f4_config false in
  let busy20 := system MMC_WRITING 0 [] (fun _ => true)
                  (fun i => if (i <? 20)%nat then 0 else 0xFF) in
  let stuck := system MMC_WRITING 0 [] (fun _ => true) (fun _ => 0) in
  (exists w', wait cfg 5 busy20 = Some w' /\
              spi_pos w' = 21%nat /\
              map what (since busy20 w') = []) /\
  (exists w', wait (with_nice_waiting cfg) 5 busy20 = Some w' /\
              spi_pos w' = 21%nat /\
              map what (since busy20 w') = repeat (EvSleep 1) 4) /\
  (forall fuel, wait cfg fuel stuck = None).
Proof.
  intros cfg busy20 stuck.
  assert (Hb : forall i, (i < 20)%nat ->
                 spi_rx busy20 (spi_pos busy20 + i) <> 0xFF).
  { intros i Hi. cbn [spi_rx spi_pos busy20 system Nat.add].
    destruct (Nat.ltb_spec i 20); [discriminate | lia]. }
  split; [| split].
  - destruct (proj1 (wait_returns_on_first_idle_byte cfg busy20) 5%nat 20%nat)
      as (w' & E & P & _ & _ & T); [lia | exact Hb | reflexivity |].
    exists w'. split; [exact E |]. split; [exact P | exact T].
  - destruct (proj1 (wait_returns_on_first_idle_byte (with_nice_waiting cfg)
                       busy20) 5%nat 20%nat)
      as (w' & E & P & _ & _ & T); [lia | exact Hb | reflexivity |].
    exists w'. split; [exact E |]. split; [exact P | exact T].
  - apply (proj2 (wait_returns_on_first_idle_byte cfg stuck)).
    intros i. cbn. discriminate.
Defined.

(** Each function of a block read checks the driver state under the
    lock first. [mmcStartSequentialRead] called outside [MMC_READY], and
    [mmcSequentialRead] and [mmcStopSequentialRead] called outside
    [MMC_READING], return [TRUE]: the driver is unchanged, no byte is
    clocked and the only events are the lock and its release. *)
Theorem read_calls_refused_outside_their_state
  cfg cmds startblk buffer fuel w :
  let quiet w' :=
    mmc w' = mmc w /\ spi_pos w' = spi_pos w /\
    map what (since w w') = [EvLock; EvUnlock] in
  (state (mmc w) <> MMC_READY ->
   exists w', mmcStartSequentialRead cfg cmds startblk fuel w
              = Some (TRUE, w') /\ quiet w') /\
  (state (mmc w) <> MMC_READING ->
   (exists w', mmcSequentialRead cfg buffer w = (TRUE, buffer, w')
               /\ quiet w') /\
   (exists w', mmcStopSequentialRead cfg cmds w = (TRUE, w') /\ quiet w')).
Proof.
  intros quiet. subst quiet. cbv beta.
  unfold mmcStartSequentialRead, mmcSequentialRead, mmcStopSequentialRead.
  change (state (mmc (chSysLock cfg w))) with (state (mmc w)).
  split; intros Hs;
    (destruct (state (mmc w)); try congruence; cbn [mmcstate_eqb negb];
     try split; eexists; (split; [reflexivity |]);
     (split; [reflexivity |]); (split; [reflexivity |]);
     appended; reflexivity).
Qed.

Lemma read_calls_refused_outside_their_state_witness :
  let cfg := stm32f4_config false in
  let w := system MMC_INSERTED 0 [] (fun _ => true) (fun _ => 0xFF) in
  (exists w', mmcStartSequentialRead cfg standard_commands 7 0 w
              = Some (TRUE, w') /\ spi_pos w' = spi_pos w) /\
  (exists w', mmcSequentialRead cfg [] w = (TRUE, [], w')
              /\ spi_pos w' = spi_pos w) /\
  (exists w', mmcStopSequentialRead cfg standard_commands w = (TRUE, w')
              /\ spi_pos w' = spi_pos w).
Proof.
  intros cfg w.
  destruct (read_calls_refused_outside_their_state cfg standard_commands 7 []
              0%nat w) as (Hready & Hreading).
  destruct Hready as (w1 & E1 & _ & P1 & _); [discriminate |].
  destruct Hreading as ((w2 & E2 & _ & P2 & _) & (w3 & E3 & _ & P3 & _));
    [discriminate |].
  split; [exists w1; split; assumption |].
  split; [exists w2; split; assumption |].
  exists w3; split; assumption.
Defined.

(** The same for a block write: [mmcStartSequentialWrite] called outside
    [MMC_READY], and [mmcSequentialWrite] and [mmcStopSequentialWrite]
    called outside [MMC_WRITING], return [TRUE] with the driver
    unchanged, no byte sent or clocked, and no event but the lock and
    its release. *)
Theorem write_calls_refused_outside_their_state
  cfg cmds startblk buffer fuel w :
  let quiet w' :=
    mmc w' = mmc w /\ spi_pos w' = spi_pos w /\
    map what (since w w') = [EvLock; EvUnlock] in
  (state (mmc w) <> MMC_READY ->
   exists w', mmcStartSequentialWrite cfg cmds startblk fuel w
              = Some (TRUE, w') /\ quiet w') /\
  (state (mmc w) <> MMC_WRITING ->
   (exists w', mmcSequentialWrite cfg buffer fuel w = Some (TRUE, w')
               /\ quiet w') /\
   (exists w', mmcStopSequentialWrite cfg w = (TRUE, w') /\ quiet w')).
Proof.
  intros quiet. subst quiet. cbv beta.
  unfold mmcStartSequentialWrite, mmcSequentialWrite, mmcStopSequentialWrite.
  change (state (mmc (chSysLock cfg w))) with (state (mmc w)).
  split; intros Hs;
    (destruct (state (mmc w)); try congruence; cbn [mmcstate_eqb negb];
     try split; eexists; (split; [reflexivity |]);
     (split; [reflexivity |]); (split; [reflexivity |]);
     appended; reflexivity).
Qed.

Lemma write_calls_refused_outside_their_state_witness :
  let cfg := stm32f4_config false in
  let w := system MMC_READING 0 [] (fun _ => true) (fun _ => 0xFF) in
  (exists w', mmcStartSequentialWrite cfg standard_commands 7 0 w
              = Some (TRUE, w') /\ spi_pos w' = spi_pos w) /\
  (exists w', mmcSequentialWrite cfg [] 0 w = Some (TRUE, w')
              /\ spi_pos w' = spi_pos w) /\
  (exists w', mmcStopSequentialWrite cfg w = (TRUE, w')
              /\ spi_pos w' = spi_pos w).
Proof.
  intros cfg w.
  destruct (write_calls_refused_outside_their_state cfg standard_commands 7
              [] 0%nat w) as (Hready & Hwriting).
  destruct Hready as (w1 & E1 & _ & P1 & _); [discriminate |].
  destruct Hwriting as ((w2 & E2 & _ & P2 & _) & (w3 & E3 & _ & P3 & _));
    [discriminate |].
  split; [exists w1; split; assumption |].
  split; [exists w2; split; assumption |].
  exists w3; split; assumption.
Defined.

Lemma mmcStopSequentialRead_reading cfg cmds w :
  state (mmc w) = MMC_READING ->
  let r := mmcStopSequentialRead cfg cmds w in
  fst r = FALSE /\
  state (mmc (snd r)) = MMC_READY /\
  sent (since w (snd r))
  = [Z.lor 0x40 (MMC_CMDSTOP cmds); 0; 0; 0; 0; 1; 0xFF] /\
  (spi_pos w + 8 <= spi_pos (snd r) <= spi_pos w + 16)%nat.
Proof.
  intros Hs r; subst r.
  unfold mmcStopSequentialRead.
  change (state (mmc (chSysLock cfg w))) with (state (mmc w)).
  rewrite Hs. cbn [mmcstate_eqb negb].
  match goal with
  | |- context [recvr1 ?w1] =>
      destruct (recvr1_frame w1) as (k & Hk & E);
      destruct (recvr1 w1) as [r1 w2]
  end.
  cbn [snd] in E. subst w2.
  cbn [fst snd mmc state set_spi_pos spiUnselect log chSysLock chSysUnlock
       _port_lock _port_unlock on_hw write on_mmc set_mmc spiSend].
  rewrite Hs. cbn [mmcstate_eqb].
  repeat split.
  + appended. reflexivity.
  + cbn. lia.
  + cbn. lia.
Qed.

Lemma mmcStopSequentialWrite_writing cfg w :
  state (mmc w) = MMC_WRITING ->
  let r := mmcStopSequentialWrite cfg w in
  fst r = FALSE /\
  state (mmc (snd r)) = MMC_READY /\
  sent (since w (snd r)) = [0xFD; 0xFF] /\
  spi_pos (snd r) = (spi_pos w + 2)%nat.
Proof.
  intros Hs r; subst r.
  unfold mmcStopSequentialWrite.
  change (state (mmc (chSysLock cfg w))) with (state (mmc w)).
  rewrite Hs. cbn [mmcstate_eqb negb].
  cbn [fst snd mmc state set_spi_pos spiUnselect log chSysLock chSysUnlock
       _port_lock _port_unlock on_hw write on_mmc set_mmc spiSend].
  rewrite Hs. cbn [mmcstate_eqb].
  repeat split.
  appended. reflexivity.
Qed.

(** Stopping a transfer cannot fail. [mmcStopSequentialRead] in
    [MMC_READING] sends the seven bytes of the stop command, receives the
    R1 byte without looking at it and returns [FALSE] with the driver in
    [MMC_READY], whatever the card answers. [mmcStopSequentialWrite] in
    [MMC_WRITING] sends the stop token 0xFD and a filler byte and returns
    [FALSE] with the driver in [MMC_READY]. *)
Theorem stop_of_a_transfer_ignores_the_card cfg cmds w :
  (state (mmc w) = MMC_READING ->
   let r := mmcStopSequentialRead cfg cmds w in
   fst r = FALSE /\
   state (mmc (snd r)) = MMC_READY /\
   sent (since w (snd r))
   = [Z.lor 0x40 (MMC_CMDSTOP cmds); 0; 0; 0; 0; 1; 0xFF] /\
   (spi_pos w + 8 <= spi_pos (snd r) <= spi_pos w + 16)%nat) /\
  (state (mmc w) = MMC_WRITING ->
   let r := mmcStopSequentialWrite cfg w in
   fst r = FALSE /\
   state (mmc (snd r)) = MMC_READY /\
   sent (since w (snd r)) = [0xFD; 0xFF] /\
   spi_pos (snd r) = (spi_pos w + 2)%nat).
Proof.
  split.
  - apply mmcStopSequentialRead_reading.
  - apply mmcStopSequentialWrite_writing.
Qed.

Lemma stop_of_a_transfer_ignores_the_card_witness :
  let cfg := stm32f4_config false in
  let reading := system MMC_READING 0 [] (fun _ => true) (fun _ => 0x04) in
  let writing := system MMC_WRITING 0 [] (fun _ => true) (fun _ => 0x00) in
  (fst (mmcStopSequentialRead cfg standard_commands reading) = FALSE /\
   state (mmc (snd (mmcStopSequentialRead cfg standard_commands reading)))
   = MMC_READY) /\
  (fst (mmcStopSequentialWrite cfg writing) = FALSE /\
   state (mmc (snd (mmcStopSequentialWrite cfg writing))) = MMC_READY).
Proof.
  intros cfg reading writing.
  destruct (stop_of_a_transfer_ignores_the_card cfg standard_commands reading)
    as (Hr & _).
  destruct (stop_of_a_transfer_ignores_the_card cfg standard_commands writing)
    as (_ & Hw).
  destruct (Hr eq_refl) as (R1 & R2 & _).
  destruct (Hw eq_refl) as (W1 & W2 & _).
  repeat split; assumption.
Defined.

End MMCExtra.

Module MMCTransfer.
Import ARM Sys Lock VT MMC MMCOps Examples MMCFacts MMCOpsFacts MMCExtra.

(** Projections of a system after a sequence of driver steps. *)
Ltac world_fields :=
  cbn [mmc state block_addresses spi_rx spi_pos trace set_spi_pos spiSelect
       spiUnselect spiStart spiSend spiIgnore log chSysLock chSysUnlock
       _port_lock _port_unlock on_hw write on_mmc set_mmc set_state
       mmcstate_eqb].

Ltac appended :=
  erewrite since_app by (world_fields; rewrite <- ?app_assoc; reflexivity).

(** [mmcSequentialWrite] in [MMC_WRITING] sends the prologue 0xFF 0xFC and
    the sector, skips two bytes and takes the next byte as the data
    response. If its low five bits are not 00101 the function returns
    [TRUE] and the driver falls back to [MMC_READY]; if they are, the
    function waits for the card to answer 0xFF and returns [FALSE] with
    the driver still in [MMC_WRITING]. *)
Theorem mmcSequentialWrite_follows_data_response cfg buffer fuel w :
  state (mmc w) = MMC_WRITING ->
  let n := Z.to_nat (MMC_SECTOR_SIZE cfg) in
  let response := spi_rx w (spi_pos w + n + 4) in
  (Z.land response 0x1F <> 0x05 ->
   exists w',
     mmcSequentialWrite cfg buffer fuel w = Some (TRUE, w') /\
     state (mmc w') = MMC_READY /\
     sent (since w w') = [0xFF; 0xFC] ++ firstn n buffer /\
     spi_pos w' = (spi_pos w + n + 5)%nat) /\
  (Z.land response 0x1F = 0x05 ->
   forall k,
     (k < 16 + fuel)%nat ->
     (forall i, (i < k)%nat -> spi_rx w (spi_pos w + n + 5 + i) <> 0xFF) ->
     spi_rx w (spi_pos w + n + 5 + k) = 0xFF ->
     exists w',
       mmcSequentialWrite cfg buffer fuel w = Some (FALSE, w') /\
       state (mmc w') = MMC_WRITING /\
       sent (since w w') = [0xFF; 0xFC] ++ firstn n buffer /\
       spi_pos w' = (spi_pos w + n + 6 + k)%nat).
Proof.
  intros Hs n response. subst response.
  unfold mmcSequentialWrite.
  change (state (mmc (chSysLock cfg w))) with (state (mmc w)).
  rewrite Hs. cbn [mmcstate_eqb negb].
  rewrite spiReceive_one. cbn [hd]. fold n.
  cbn [spi_rx spi_pos spiIgnore spiSend set_spi_pos log chSysLock chSysUnlock
       _port_lock _port_unlock on_hw write].
  replace (spi_pos w + 2 + n + 2)%nat with (spi_pos w + n + 4)%nat by lia.
  split.
  - intros Hr.
    destruct (Z.eqb_spec (Z.land (spi_rx w (spi_pos w + n + 4)) 31) 5)
      as [E | _]; [tauto |].
    eexists. split; [reflexivity |].
    cbn [mmc state spiUnselect log chSysLock chSysUnlock _port_lock
         _port_unlock on_hw write on_mmc set_mmc set_spi_pos spiIgnore
         spiSend].
    rewrite Hs. cbn [mmcstate_eqb].
    split; [reflexivity |].
    split; [appended; cbn; rewrite app_nil_r; reflexivity |].
    cbn. lia.
  - intros Hr k Hk Hb Hi. rewrite Hr. cbn [Z.eqb Pos.eqb].
    match goal with
    | |- context [wait cfg fuel ?w1] =>
        rewrite (wait_idle cfg fuel k w1);
        [ destruct (naps_fields cfg (k - 16) w1)
            as (_ & Npos & Nmmc & _ & l & Nt & _ & Ns) | | | ]
    end.
    + cbn [bind]. eexists. split; [reflexivity |].
      cbn [mmc spi_pos set_spi_pos]. rewrite Nmmc.
      split; [exact Hs |].
      split.
      * erewrite since_app.
        2:{ cbn [trace set_spi_pos]. rewrite Nt.
            cbn [trace spiIgnore spiSend set_spi_pos log chSysLock
                 chSysUnlock _port_lock _port_unlock on_hw write].
            rewrite <- !app_assoc. reflexivity. }
        rewrite !sent_app, Ns. cbn [sent what app]. rewrite !app_nil_r.
        reflexivity.
      * lia.
    + exact Hk.
    + intros i Hlt.
      cbn [spi_rx spi_pos set_spi_pos spiIgnore spiSend log chSysLock
           chSysUnlock _port_lock _port_unlock on_hw write].
      replace (spi_pos w + n + 4 + 1 + i)%nat
        with (spi_pos w + n + 5 + i)%nat by lia.
      apply Hb. exact Hlt.
    + cbn [spi_rx spi_pos set_spi_pos spiIgnore spiSend log chSysLock
           chSysUnlock _port_lock _port_unlock on_hw write].
      replace (spi_pos w + n + 4 + 1 + k)%nat
        with (spi_pos w + n + 5 + k)%nat by lia.
      exact Hi.
Qed.

(** A card that rejects the block with a CRC error (data response 0x0B)
    and a card that accepts it (0xE5) and is busy for three bytes. *)
Lemma mmcSequentialWrite_follows_data_response_witness :
  let cfg := stm32f4_config false in
  let n := Z.to_nat (MMC_SECTOR_SIZE cfg) in
  let rejecting := system MMC_WRITING 0 [] (fun _ => true)
                     (fun i => if (i =? n + 4)%nat then 0x0B else 0xFF) in
  let accepting := system MMC_WRITING 0 [] (fun _ => true)
                     (fun i => if (i =? n + 4)%nat then 0xE5
                               else if (i <? n + 8)%nat then 0 else 0xFF) in
  (exists w', mmcSequentialWrite cfg (repeat 0xAA n) 0 rejecting
              = Some (TRUE, w') /\ state (mmc w') = MMC_READY) /\
  (exists w', mmcSequentialWrite cfg (repeat 0xAA n) 0 accepting
              = Some (FALSE, w') /\ state (mmc w') = MMC_WRITING).
Proof.
  intros cfg n rejecting accepting. split.
  - destruct (mmcSequentialWrite_follows_data_response cfg (repeat 0xAA n)
                0%nat rejecting eq_refl) as (H & _).
    destruct H as (w' & E & S & _); [vm_compute; discriminate |].
    exists w'. split; assumption.
  - destruct (mmcSequentialWrite_follows_data_response cfg (repeat 0xAA n)
                0%nat accepting eq_refl) as (_ & H).
    destruct (H ltac:(vm_compute; reflexivity) 3%nat) as (w' & E & S & _).
    + lia.
    + intros i Hi.
      assert (Hc : i = 0%nat \/ i = 1%nat \/ i = 2%nat) by lia.
      destruct Hc as [-> | [-> | ->]]; vm_compute; discriminate.
    + vm_compute. reflexivity.
    + exists w'. split; assumption.
Defined.

Lemma send_hdr_idle cfg cmd arg fuel w :
  spi_rx w (spi_pos w) = 0xFF ->
  send_hdr cfg cmd arg fuel w
  = Some (spiSend 6 (header cmd arg) (set_spi_pos (spi_pos w + 1) w)).
Proof.
  intros Hi. unfold send_hdr.
  rewrite (wait_idle_bus cfg fuel w Hi). reflexivity.
Qed.

(** [mmcStartSequentialRead] and [mmcStartSequentialWrite] in [MMC_READY],
    the bus being idle: the driver goes to [MMC_READING] or [MMC_WRITING],
    the header of the multiple block command goes out with the block
    argument, and the first byte that is not 0xFF among the next nine is
    the answer. A zero answer gives [FALSE] and the driver stays in the
    transfer state; any other answer gives [TRUE] and the driver is back
    in [MMC_READY]. *)
Theorem start_of_a_transfer_follows_r1 cfg cmds startblk fuel k w :
  state (mmc w) = MMC_READY ->
  spi_rx w (spi_pos w) = 0xFF ->
  (k < 9)%nat ->
  (forall i, (i < k)%nat -> spi_rx w (spi_pos w + 7 + i) = 0xFF) ->
  spi_rx w (spi_pos w + 7 + k) <> 0xFF ->
  let accepted := spi_rx w (spi_pos w + 7 + k) =? 0 in
  (exists w',
     mmcStartSequentialRead cfg cmds startblk fuel w
     = Some (negb accepted, w') /\
     state (mmc w') = (if accepted then MMC_READING else MMC_READY) /\
     sent (since w w')
     = header (MMC_CMDREADMULTIPLE cmds) (block_argument cfg w startblk) /\
     spi_pos w' = (spi_pos w + 8 + k)%nat) /\
  (exists w',
     mmcStartSequentialWrite cfg cmds startblk fuel w
     = Some (negb accepted, w') /\
     state (mmc w') = (if accepted then MMC_WRITING else MMC_READY) /\
     sent (since w w')
     = header (MMC_CMDWRITEMULTIPLE cmds) (block_argument cfg w startblk) /\
     spi_pos w' = (spi_pos w + 8 + k)%nat).
Proof.
  intros Hs Hidle Hk Hff Hne accepted. subst accepted.
  unfold mmcStartSequentialRead, mmcStartSequentialWrite.
  change (state (mmc (chSysLock cfg w))) with (state (mmc w)).
  rewrite Hs. cbn [mmcstate_eqb negb].
  split.
  - rewrite send_hdr_idle by exact Hidle. cbn [bind].
    unfold recvr1. rewrite (recvr1_loop_answer 9 k).
    + match goal with
      | |- context [negb (?x =? 0)] =>
          replace x with (spi_rx w (spi_pos w + 7 + k))
            by (world_fields; f_equal; lia)
      end.
      destruct (spi_rx w (spi_pos w + 7 + k) =? 0); cbn [negb];
        eexists; (split; [reflexivity |]);
        (split; [world_fields; reflexivity |]);
        (split; [appended; cbn [sent what app]; unfold header, block_argument;
                 world_fields; cbn [firstn app]; reflexivity |]);
        world_fields; lia.
    + exact Hk.
    + intros i Hlt. world_fields.
      replace (spi_pos w + 1 + 6 + i)%nat with (spi_pos w + 7 + i)%nat by lia.
      apply Hff. exact Hlt.
    + world_fields.
      replace (spi_pos w + 1 + 6 + k)%nat with (spi_pos w + 7 + k)%nat by lia.
      exact Hne.
  - rewrite send_hdr_idle by exact Hidle. cbn [bind].
    unfold recvr1. rewrite (recvr1_loop_answer 9 k).
    + match goal with
      | |- context [negb (?x =? 0)] =>
          replace x with (spi_rx w (spi_pos w + 7 + k))
            by (world_fields; f_equal; lia)
      end.
      destruct (spi_rx w (spi_pos w + 7 + k) =? 0); cbn [negb];
        eexists; (split; [reflexivity |]);
        (split; [world_fields; reflexivity |]);
        (split; [appended; cbn [sent what app]; unfold header, block_argument;
                 world_fields; cbn [firstn app]; reflexivity |]);
        world_fields; lia.
    + exact Hk.
    + intros i Hlt. world_fields.
      replace (spi_pos w + 1 + 6 + i)%nat with (spi_pos w + 7 + i)%nat by lia.
      apply Hff. exact Hlt.
    + world_fields.
      replace (spi_pos w + 1 + 6 + k)%nat with (spi_pos w + 7 + k)%nat by lia.
      exact Hne.
Qed.

(** A card that accepts the command after one filler byte, and a card
    that answers "illegal command" (0x04) at once. *)
Lemma start_of_a_transfer_follows_r1_witness :
  let cfg := stm32f4_config false in
  let accepting := system MMC_READY 0 [] (fun _ => true)
                     (fun i => if (i =? 8)%nat then 0 else 0xFF) in
  let refusing := system MMC_READY 0 [] (fun _ => true)
                    (fun i => if (i =? 7)%nat then 0x04 else 0xFF) in
  (exists w', mmcStartSequentialRead cfg standard_commands 3 0 accepting
              = Some (FALSE, w') /\ state (mmc w') = MMC_READING) /\
  (exists w', mmcStartSequentialWrite cfg standard_commands 3 0 refusing
              = Some (TRUE, w') /\ state (mmc w') = MMC_READY).
Proof.
  intros cfg accepting refusing. split.
  - destruct (start_of_a_transfer_follows_r1 cfg standard_commands 3 0%nat
                1%nat accepting) as ((w' & E & S & _) & _).
    + reflexivity.
    + reflexivity.
    + lia.
    + intros i Hi. assert (i = 0%nat) as -> by lia. reflexivity.
    + vm_compute. discriminate.
    + exists w'. split; [exact E | exact S].
  - destruct (start_of_a_transfer_follows_r1 cfg standard_commands 3 0%nat
                0%nat refusing) as (_ & (w' & E & S & _)).
    + reflexivity.
    + reflexivity.
    + lia.
    + intros i Hi. lia.
    + vm_compute. discriminate.
    + exists w'. split; [exact E | exact S].
Defined.

(** A transfer that was started can always be ended. When
    [mmcStartSequentialRead] reports success the driver was in
    [MMC_READY] and is in [MMC_READING], and [mmcStopSequentialRead]
    then returns [FALSE] and brings it back to [MMC_READY]; the same
    holds for [mmcStartSequentialWrite], [MMC_WRITING] and
    [mmcStopSequentialWrite]. *)
Theorem started_transfer_can_be_stopped cfg cmds startblk fuel w w1 :
  (mmcStartSequentialRead cfg cmds startblk fuel w = Some (FALSE, w1) ->
   state (mmc w) = MMC_READY /\
   state (mmc w1) = MMC_READING /\
   fst (mmcStopSequentialRead cfg cmds w1) = FALSE /\
   state (mmc (snd (mmcStopSequentialRead cfg cmds w1))) = MMC_READY) /\
  (mmcStartSequentialWrite cfg cmds startblk fuel w = Some (FALSE, w1) ->
   state (mmc w) = MMC_READY /\
   state (mmc w1) = MMC_WRITING /\
   fst (mmcStopSequentialWrite cfg w1) = FALSE /\
   state (mmc (snd (mmcStopSequentialWrite cfg w1))) = MMC_READY).
Proof.
  split.
  - unfold mmcStartSequentialRead.
    change (state (mmc (chSysLock cfg w))) with (state (mmc w)).
    destruct (state (mmc w)) eqn:Hs; cbn [mmcstate_eqb negb];
      try discriminate.
    unfold send_hdr.
    match goal with
    | |- context [wait cfg fuel ?w0] =>
        destruct (wait cfg fuel w0) as [wa|] eqn:Ew; [| discriminate];
        apply wait_frame in Ew; destruct Ew as (Wmmc & _)
    end.
    cbn [bind].
    match goal with
    | |- context [recvr1 ?w0] =>
        destruct (recvr1_frame w0) as (k & _ & E);
        destruct (recvr1 w0) as [r1 w2]
    end.
    cbn [snd] in E. subst w2.
    destruct (negb (r1 =? 0)); [discriminate |].
    intros H. injection H as <-.
    match goal with
    | |- _ /\ state (mmc ?W) = _ /\ _ =>
        assert (S1 : state (mmc W) = MMC_READING)
          by (cbn [mmc set_spi_pos spiSend log]; rewrite Wmmc; reflexivity);
        destruct (mmcStopSequentialRead_reading cfg cmds W S1) as (A & B & _)
    end.
    split; [reflexivity |]. split; [exact S1 |].
    split; [exact A | exact B].
  - unfold mmcStartSequentialWrite.
    change (state (mmc (chSysLock cfg w))) with (state (mmc w)).
    destruct (state (mmc w)) eqn:Hs; cbn [mmcstate_eqb negb];
      try discriminate.
    unfold send_hdr.
    match goal with
    | |- context [wait cfg fuel ?w0] =>
        destruct (wait cfg fuel w0) as [wa|] eqn:Ew; [| discriminate];
        apply wait_frame in Ew; destruct Ew as (Wmmc & _)
    end.
    cbn [bind].
    match goal with
    | |- context [recvr1 ?w0] =>
        destruct (recvr1_frame w0) as (k & _ & E);
        destruct (recvr1 w0) as [r1 w2]
    end.
    cbn [snd] in E. subst w2.
    destruct (negb (r1 =? 0)); [discriminate |].
    intros H. injection H as <-.
    match goal with
    | |- _ /\ state (mmc ?W) = _ /\ _ =>
        assert (S1 : state (mmc W) = MMC_WRITING)
          by (cbn [mmc set_spi_pos spiSend log]; rewrite Wmmc; reflexivity);
        destruct (mmcStopSequentialWrite_writing cfg W S1) as (A & B & _)
    end.
    split; [reflexivity |]. split; [exact S1 |].
    split; [exact A | exact B].
Qed.

(** A card that accepts the read command at once. *)
Lemma started_transfer_can_be_stopped_witness :
  let cfg := stm32f4_config false in
  let w := system MMC_READY 0 [] (fun _ => true)
             (fun i => if (i =? 7)%nat then 0 else 0xFF) in
  exists w1,
    mmcStartSequentialRead cfg standard_commands 3 0 w = Some (FALSE, w1) /\
    state (mmc w1) = MMC_READING /\
    state (mmc (snd (mmcStopSequentialRead cfg standard_commands w1)))
    = MMC_READY.
Proof.
  intros cfg w.
  assert (E : exists w1, mmcStartSequentialRead cfg standard_commands 3 0 w
                         = Some (FALSE, w1))
    by (eexists; vm_compute; reflexivity).
  destruct E as (w1 & E). exists w1. split; [exact E |].
  destruct (proj1 (started_transfer_can_be_stopped cfg standard_commands 3
                     0%nat w w1) E) as (_ & A & _ & B).
  split; [exact A | exact B].
Defined.

End MMCTransfer.

Module MMCConnect.
Import ARM Sys Lock VT MMC MMCOps Monitor Examples MMCFacts MMCOpsFacts.

Ltac world_fields :=
  cbn [mmc state block_addresses spi_rx spi_pos trace set_spi_pos spiSelect
       spiUnselect spiStart spiSend spiIgnore spiStop log chSysLock
       chSysUnlock _port_lock _port_unlock on_hw write on_mmc set_mmc
       set_state mmcstate_eqb chThdSleepMilliseconds chThdSleep].

Ltac appended :=
  erewrite since_app by (world_fields; rewrite <- ?app_assoc; reflexivity).

Lemma block_argument_alias cfg w startblk :
  block_addresses (mmc w) = false ->
  MMC_SECTOR_SIZE cfg = 512 ->
  block_argument cfg w (startblk + 2 ^ 23) = block_argument cfg w startblk.
Proof.
  intros Hb Hs. unfold block_argument, wrap32. rewrite Hb, Hs.
  replace ((startblk + 2 ^ 23) * 512) with (startblk * 512 + 1 * 2 ^ 32)
    by (change (2 ^ 23) with 8388608; change (2 ^ 32) with 4294967296; lia).
  apply Z_mod_plus_full.
Qed.

(** On a card with byte addresses and 512-byte sectors the argument of
    the block commands is [startblk * 512] in 32 bits, so a transfer
    started at block [startblk + 2^23] is the transfer started at block
    [startblk]: same bytes sent, same result. On a card with block
    addresses the block number is sent as it is. *)
Theorem byte_addresses_wrap_at_4GiB cfg cmds startblk fuel w :
  MMC_SECTOR_SIZE cfg = 512 ->
  (block_addresses (mmc w) = false ->
   mmcStartSequentialRead cfg cmds (startblk + 2 ^ 23) fuel w
   = mmcStartSequentialRead cfg cmds startblk fuel w /\
   mmcStartSequentialWrite cfg cmds (startblk + 2 ^ 23) fuel w
   = mmcStartSequentialWrite cfg cmds startblk fuel w) /\
  (block_addresses (mmc w) = true ->
   block_argument cfg w startblk = startblk).
Proof.
  intros Hs. split.
  - intros Hb. unfold mmcStartSequentialRead, mmcStartSequentialWrite.
    split.
    + destruct (negb (mmcstate_eqb (state (mmc (chSysLock cfg w))) MMC_READY));
        [reflexivity |].
      rewrite block_argument_alias by (world_fields; assumption).
      reflexivity.
    + destruct (negb (mmcstate_eqb (state (mmc (chSysLock cfg w))) MMC_READY));
        [reflexivity |].
      rewrite block_argument_alias by (world_fields; assumption).
      reflexivity.
  - intros Hb. unfold block_argument. rewrite Hb. reflexivity.
Qed.

Lemma byte_addresses_wrap_at_4GiB_witness :
  let cfg := stm32f4_config false in
  let w := system MMC_READY 0 [] (fun _ => true)
             (fun i => if (i =? 7)%nat then 0 else 0xFF) in
  mmcStartSequentialRead cfg standard_commands (5 + 2 ^ 23) 0 w
  = mmcStartSequentialRead cfg standard_commands 5 0 w.
Proof.
  intros cfg w.
  destruct (byte_addresses_wrap_at_4GiB cfg standard_commands 5 0%nat w
              eq_refl) as (H & _).
  destruct (H eq_refl) as (Hr & _). exact Hr.
Defined.

Lemma lor_0x40 cmd : 0 <= cmd < 64 -> Z.lor 0x40 cmd = 0x40 + cmd.
Proof.
  intros Hc. rewrite <- Z.add_lor_land.
  assert (E : Z.land 0x40 cmd = 0).
  { apply Z.bits_inj'. intros n Hn.
    rewrite Z.land_spec, Z.bits_0.
    destruct (Z.eq_dec n 6) as [-> | Hne].
    - rewrite <- (Z.mod_small cmd (2 ^ 6)) by (change (2 ^ 6) with 64; lia).
      rewrite Z.mod_pow2_bits_high by lia. apply andb_false_r.
    - change 0x40 with (2 ^ 6). rewrite Z.pow2_bits_false by lia.
      reflexivity. }
  rewrite E. lia.
Qed.

Lemma be32_of_bytes arg :
  0 <= arg < 2 ^ 32 ->
  be32 (u8 (Z.shiftr arg 24)) (u8 (Z.shiftr arg 16)) (u8 (Z.shiftr arg 8))
    (u8 arg) = arg.
Proof.
  intros Ha. unfold be32, u8. change 256 with (2 ^ 8).
  apply Z.bits_inj'. intros n Hn.
  rewrite !Z.lor_spec, !Z.shiftl_spec by lia.
  rewrite !Z.testbit_mod_pow2 by lia.
  destruct (Z.ltb_spec n 8) as [H8 | H8].
  - rewrite (Z.testbit_neg_r _ (n - 24)), (Z.testbit_neg_r _ (n - 16)),
      (Z.testbit_neg_r _ (n - 8)) by lia.
    rewrite !andb_false_r. reflexivity.
  - cbn [andb]. rewrite orb_false_r.
    destruct (Z.ltb_spec n 16) as [H16 | H16].
    + rewrite (Z.testbit_neg_r _ (n - 24)), (Z.testbit_neg_r _ (n - 16))
        by lia.
      rewrite !andb_false_r. cbn [orb].
      destruct (Z.ltb_spec (n - 8) 8); [| lia]. cbn [andb].
      rewrite Z.shiftr_spec by lia. f_equal. lia.
    + destruct (Z.ltb_spec (n - 8) 8); [lia |]. cbn [andb].
      rewrite orb_false_r.
      destruct (Z.ltb_spec n 24) as [H24 | H24].
      * rewrite (Z.testbit_neg_r _ (n - 24)) by lia.
        rewrite !andb_false_r. cbn [orb].
        destruct (Z.ltb_spec (n - 16) 8); [| lia]. cbn [andb].
        rewrite Z.shiftr_spec by lia. f_equal. lia.
      * destruct (Z.ltb_spec (n - 16) 8); [lia |]. cbn [andb].
        rewrite orb_false_r.
        destruct (Z.ltb_spec (n - 24) 8) as [H32 | H32]; cbn [andb].
        -- rewrite Z.shiftr_spec by lia. f_equal. lia.
        -- symmetry.
           rewrite <- (Z.mod_small arg (2 ^ 32)) by exact Ha.
           apply Z.mod_pow2_bits_high. lia.
Qed.

(** [send_hdr] on an idle bus sends six bytes: the command index with
    the start and transmission bits 01 in front, the four bytes of the
    argument, most significant first, and 0x95. The argument can be
    read back from the bytes sent. *)
Theorem send_hdr_is_big_endian cfg cmd arg fuel w :
  0 <= cmd < 64 ->
  0 <= arg < 2 ^ 32 ->
  spi_rx w (spi_pos w) = 0xFF ->
  exists w' b3 b2 b1 b0,
    send_hdr cfg cmd arg fuel w = Some w' /\
    sent (since w w') = [0x40 + cmd; b3; b2; b1; b0; 0x95] /\
    Forall (fun b => 0 <= b < 256) [b3; b2; b1; b0] /\
    be32 b3 b2 b1 b0 = arg /\
    spi_pos w' = (spi_pos w + 7)%nat.
Proof.
  intros Hc Ha Hidle. unfold send_hdr.
  rewrite (wait_idle_bus cfg fuel w Hidle).
  cbn [bind].
  exists (spiSend 6 (header cmd arg) (set_spi_pos (spi_pos w + 1) w)),
    (u8 (Z.shiftr arg 24)), (u8 (Z.shiftr arg 16)), (u8 (Z.shiftr arg 8)),
    (u8 arg).
  split; [reflexivity |].
  split.
  { appended. cbn [sent what app]. unfold header. cbn [firstn].
    rewrite lor_0x40 by exact Hc. unfold u8 at 1.
    rewrite Z.mod_small by lia. reflexivity. }
  split.
  { unfold u8. repeat constructor; apply Z.mod_pos_bound; lia. }
  split; [apply be32_of_bytes; exact Ha |].
  world_fields. lia.
Qed.

(** CMD18 with the byte address 0x00012400. *)
Lemma send_hdr_is_big_endian_witness :
  let w := system MMC_READY 0 [] (fun _ => true) (fun _ => 0xFF) in
  exists w' b3 b2 b1 b0,
    send_hdr (stm32f4_config false) 18 0x00012400 0 w = Some w' /\
    sent (since w w') = [0x40 + 18; b3; b2; b1; b0; 0x95] /\
    Forall (fun b => 0 <= b < 256) [b3; b2; b1; b0] /\
    be32 b3 b2 b1 b0 = 0x00012400 /\
    spi_pos w' = (spi_pos w + 7)%nat.
Proof.
  intros w.
  apply (send_hdr_is_big_endian (stm32f4_config false) 18 0x00012400 0 w).
  - lia.
  - vm_compute. split; [discriminate | reflexivity].
  - reflexivity.
Defined.

End MMCConnect.

Module MMCStates.
Import ARM Sys Lock VT MMC MMCOps Monitor Examples MMCFacts MMCOpsFacts.

Ltac world_fields :=
  cbn [mmc state cnt block_addresses spi_rx spi_pos trace vtlist card systime
       set_spi_pos set_vtlist spiSelect
       spiUnselect spiStart spiSend spiIgnore spiStop log chSysLock
       chSysUnlock chSysLockFromIsr chSysUnlockFromIsr
       _port_lock _port_unlock on_hw write on_mmc set_mmc
       set_state set_cnt mmcstate_eqb chThdSleepMilliseconds chThdSleep
       chVTSetI chVTResetI chEvtBroadcastI].

Ltac appended :=
  erewrite since_app by (world_fields; rewrite <- ?app_assoc; reflexivity).

Lemma mmcConnect_outside_inserted cfg cmds fuel w :
  (state (mmc w) = MMC_READY ->
   mmcConnect cfg cmds fuel w = Some (FALSE, w)) /\
  (state (mmc w) <> MMC_INSERTED -> state (mmc w) <> MMC_READY ->
   mmcConnect cfg cmds fuel w = Some (TRUE, w)).
Proof.
  unfold mmcConnect. split.
  - intros Hs. rewrite Hs. reflexivity.
  - intros H1 H2. destruct (state (mmc w)); try congruence; reflexivity.
Qed.

(** [mmcConnect], called in a state that passes its assertion (neither
    [MMC_UNINIT] nor [MMC_STOP]), returns [FALSE] only with the driver in
    [MMC_READY]: either it was there already, and then nothing is sent
    and the system is as it was, or it was in [MMC_INSERTED] and every
    step of the initialization went through. In the other states that
    pass the assertion ([MMC_WAIT], [MMC_READING], [MMC_WRITING]) the
    function returns [TRUE] and changes nothing. After a success the
    assertion holds again, and a second call returns [FALSE] without
    touching the card. *)
Theorem mmcConnect_false_means_ready cfg cmds fuel w :
  mmcConnect_pre w = true ->
  (forall w1,
     mmcConnect cfg cmds fuel w = Some (FALSE, w1) ->
     state (mmc w1) = MMC_READY /\
     (state (mmc w) = MMC_INSERTED \/ (state (mmc w) = MMC_READY /\ w1 = w))
     /\ mmcConnect_pre w1 = true
     /\ forall fuel', mmcConnect cfg cmds fuel' w1 = Some (FALSE, w1)) /\
  (state (mmc w) <> MMC_INSERTED -> state (mmc w) <> MMC_READY ->
   mmcConnect cfg cmds fuel w = Some (TRUE, w) /\
   In (state (mmc w)) [MMC_WAIT; MMC_READING; MMC_WRITING]).
Proof.
  intros Hpre.
  split.
  2:{ intros H1 H2.
      split; [apply mmcConnect_outside_inserted; assumption |].
      unfold mmcConnect_pre in Hpre.
      destruct (state (mmc w)); try discriminate Hpre; try congruence;
        cbn; tauto. }
  intros w1 H.
  assert (G : state (mmc w1) = MMC_READY /\
              (state (mmc w) = MMC_INSERTED \/
               (state (mmc w) = MMC_READY /\ w1 = w))).
  { revert H. unfold mmcConnect.
    destruct (state (mmc w)) eqn:Hs; cbn [mmcstate_eqb];
      try discriminate.
    - (* MMC_INSERTED *)
      unfold bind.
      repeat match goal with
             | |- context [match ?x with _ => _ end] =>
                 match x with
                 | retry_loop _ _ _ _ => destruct x as [[[|] ?]|]
                 | send_command_R3 _ _ _ _ _ => destruct x as [[[? ?] ?]|]
                 | send_command_R1 _ _ _ _ _ => destruct x as [[? ?]|]
                 end; cbn [negb]; try discriminate
             | |- context [if negb (?a =? ?b) then _ else _] =>
                 destruct (a =? b); cbn [negb]; try discriminate
             end.
      all: try discriminate.
      all: match goal with
           | |- context [mmcstate_eqb (state (mmc ?x)) MMC_INSERTED] =>
               destruct (mmcstate_eqb (state (mmc x)) MMC_INSERTED);
               try discriminate
           end.
      all: intros H; injection H as <-; split; [reflexivity | left; reflexivity].
    - (* MMC_READY *)
      intros H. injection H as <-. split; [exact Hs |].
      right. split; reflexivity. }
  destruct G as (G1 & G2). split; [exact G1 |]. split; [exact G2 |].
  split; [unfold mmcConnect_pre; rewrite G1; reflexivity |].
  intros fuel'. apply (proj1 (mmcConnect_outside_inserted cfg cmds fuel' w1)).
  exact G1.
Qed.

(** An MMC card that goes through the initialization (R1 0x01 to CMD0,
    0x05 to CMD8, 0x00 to CMD1 and to CMD16), and a driver that waits
    for a card. *)
Lemma mmcConnect_false_means_ready_witness :
  let cfg := stm32f4_config false in
  let inserted := system MMC_INSERTED 0 [] (fun _ => true)
                    (fun i => if (i =? 23)%nat then 0x01
                              else if (i =? 31)%nat then 0x05
                              else if (i =? 43)%nat then 0x00
                              else if (i =? 51)%nat then 0x00
                              else 0xFF) in
  let waiting := system MMC_WAIT 10 [] (fun _ => false) (fun _ => 0) in
  (exists w1,
     mmcConnect cfg standard_commands 0 inserted = Some (FALSE, w1) /\
     state (mmc w1) = MMC_READY /\
     mmcConnect cfg standard_commands 0 w1 = Some (FALSE, w1)) /\
  mmcConnect cfg standard_commands 0 waiting = Some (TRUE, waiting).
Proof.
  intros cfg inserted waiting. split.
  - assert (E : exists w1, mmcConnect cfg standard_commands 0 inserted
                           = Some (FALSE, w1))
      by (eexists; vm_compute; reflexivity).
    destruct E as (w1 & E). exists w1. split; [exact E |].
    destruct (proj1 (mmcConnect_false_means_ready cfg standard_commands
                       0%nat inserted eq_refl) w1 E) as (A & _ & _ & B).
    split; [exact A | apply B].
  - apply (proj2 (mmcConnect_false_means_ready cfg standard_commands 0%nat
                    waiting eq_refl)); discriminate.
Defined.

(** One CMD0 on a bus that stays at 0xFF: the header goes out and the
    nine receives of [recvr1] time out. *)
Lemma send_command_R1_silent cfg cmd arg fuel w :
  (forall i, spi_rx w i = 0xFF) ->
  exists w',
    send_command_R1 cfg cmd arg fuel w = Some (0xFF, w') /\
    mmc w' = mmc w /\ spi_rx w' = spi_rx w /\
    spi_pos w' = (spi_pos w + 16)%nat /\
    exists l, trace w' = trace w ++ l /\
              sent l = header cmd arg /\ slept l = [].
Proof.
  intros Hff. unfold send_command_R1, send_hdr.
  rewrite (wait_idle_bus cfg fuel (spiSelect w)) by apply Hff.
  cbn [bind]. unfold recvr1.
  rewrite recvr1_loop_timeout by (intros i _; world_fields; apply Hff).
  eexists. split; [reflexivity |].
  split; [reflexivity |]. split; [reflexivity |].
  split; [world_fields; lia |].
  eexists. split.
  - world_fields. rewrite <- ?app_assoc. reflexivity.
  - split; reflexivity.
Qed.

Lemma retry_goidle_silent cfg cmds fuel n w :
  (forall i, spi_rx w i = 0xFF) ->
  exists w',
    retry_loop cfg n (try_goidle cfg cmds fuel) w = Some (false, w') /\
    mmc w' = mmc w /\
    spi_pos w' = (spi_pos w + 16 * n)%nat /\
    exists l, trace w' = trace w ++ l /\
      sent l = concat (repeat (header (MMC_CMDGOIDLE cmds) 0) n) /\
      slept l = repeat (MS2ST cfg 10) (n - 1).
Proof.
  revert w. induction n as [|n IH]; intros w Hff.
  - exists w. split; [reflexivity |]. split; [reflexivity |].
    split; [lia |]. exists []. rewrite app_nil_r. repeat split.
  - cbn [retry_loop]. unfold try_goidle.
    destruct (send_command_R1_silent cfg (MMC_CMDGOIDLE cmds) 0 fuel w Hff)
      as (w1 & E1 & M1 & R1 & P1 & l1 & T1 & S1 & Z1).
    rewrite E1. cbn [Z.eqb Pos.eqb].
    destruct n as [|n].
    + exists w1. split; [reflexivity |]. split; [exact M1 |].
      split; [lia |]. exists l1. split; [exact T1 |].
      split; [cbn [repeat concat]; rewrite app_nil_r; exact S1 | exact Z1].
    + destruct (IH (chThdSleepMilliseconds cfg 10 w1))
        as (w2 & E2 & M2 & P2 & l2 & T2 & S2 & Z2).
      { intros i. world_fields. rewrite R1. apply Hff. }
      exists w2. split; [exact E2 |].
      split; [rewrite M2; exact M1 |].
      split; [rewrite P2; world_fields; lia |].
      revert T2. world_fields. rewrite T1, <- !app_assoc. intros T2.
      eexists. split; [exact T2 |].
      rewrite !sent_app, !slept_app, S1, Z1, S2, Z2.
      split; [reflexivity |].
      cbn [slept sent what app]. replace (S (S n) - 1)%nat with (S n) by lia.
      replace (S n - 1)%nat with n by lia. reflexivity.
Qed.

(** A card that never answers (the bus stays at 0xFF): [mmcConnect] in
    [MMC_INSERTED] sends CMD0 as many times as the retry count says,
    sleeps ten milliseconds between two attempts and not after the last,
    and returns [TRUE] with the driver unchanged. It needs no fuel: the
    bus is idle whenever a header is to be sent. *)
Theorem mmcConnect_gives_up_on_a_silent_card cfg cmds fuel w :
  state (mmc w) = MMC_INSERTED ->
  (forall i, spi_rx w i = 0xFF) ->
  let n := attempts (MMC_CMD0_RETRY cmds) in
  exists w',
    mmcConnect cfg cmds fuel w = Some (TRUE, w') /\
    mmc w' = mmc w /\
    sent (since w w') = concat (repeat (header (MMC_CMDGOIDLE cmds) 0) n) /\
    slept (since w w') = repeat (MS2ST cfg 10) (n - 1) /\
    spi_pos w' = (spi_pos w + 16 + 16 * n)%nat.
Proof.
  intros Hs Hff n. unfold mmcConnect. rewrite Hs. cbn [mmcstate_eqb].
  destruct (retry_goidle_silent cfg cmds fuel n (spiIgnore 16 (spiStart false w)))
    as (w1 & E1 & M1 & P1 & l1 & T1 & S1 & Z1).
  { intros i. world_fields. apply Hff. }
  fold n. rewrite E1. cbn [bind negb].
  exists w1. split; [reflexivity |].
  split; [rewrite M1; reflexivity |].
  revert T1. world_fields. rewrite <- app_assoc. intros T1.
  rewrite (since_app _ _ _ T1).
  rewrite sent_app, slept_app, S1, Z1.
  split; [reflexivity |]. split; [reflexivity |].
  rewrite P1. world_fields. lia.
Qed.

Lemma mmcConnect_gives_up_on_a_silent_card_witness :
  let cfg := stm32f4_config false in
  let w := system MMC_INSERTED 0 [] (fun _ => true) (fun _ => 0xFF) in
  exists w',
    mmcConnect cfg standard_commands 0 w = Some (TRUE, w') /\
    mmc w' = mmc w /\
    sent (since w w')
    = concat (repeat (header (MMC_CMDGOIDLE standard_commands) 0) 10) /\
    slept (since w w') = repeat (MS2ST cfg 10) 9 /\
    spi_pos w' = 176%nat.
Proof.
  intros cfg w.
  apply (mmcConnect_gives_up_on_a_silent_card cfg standard_commands 0%nat w).
  - reflexivity.
  - intros i. reflexivity.
Defined.

(** The insertion monitor finds the card gone while the poll counter is
    zero, as it is in [MMC_READY], [MMC_READING] and [MMC_WRITING]: the
    driver is put in [MMC_WAIT] with a full poll counter and the removal
    is broadcast. A block read or write called after that is refused
    with [TRUE] and clocks no byte. *)
Theorem removal_ends_a_transfer cfg p buffer fuel w :
  cnt (mmc w) <= 0 ->
  card w (systime w) = false ->
  let w1 := tmrfunc cfg p w in
  state (mmc w1) = MMC_WAIT /\
  cnt (mmc w1) = MMC_POLLING_INTERVAL cfg /\
  map what (since w w1)
  = [EvLock; EvBroadcastI removed_event;
     EvVTSetI (MS2ST cfg (MMC_POLLING_DELAY cfg)) tmrfunc_cb; EvUnlock] /\
  (exists w2, mmcSequentialRead cfg buffer w1 = (TRUE, buffer, w2) /\
              spi_pos w2 = spi_pos w) /\
  (exists w2, mmcSequentialWrite cfg buffer fuel w1 = Some (TRUE, w2) /\
              spi_pos w2 = spi_pos w).
Proof.
  intros Hc Hcard w1.
  assert (E : w1 = chSysUnlockFromIsr cfg
                (chVTSetI (MS2ST cfg (MMC_POLLING_DELAY cfg)) tmrfunc_cb p
                   (chEvtBroadcastI removed_event
                      (on_mmc (set_cnt (MMC_POLLING_INTERVAL cfg))
                         (on_mmc (set_state MMC_WAIT)
                            (chSysLockFromIsr cfg w)))))).
  { subst w1. unfold tmrfunc, is_inserted.
    change (cnt (mmc (chSysLockFromIsr cfg w))) with (cnt (mmc w)).
    change (card (chSysLockFromIsr cfg w)) with (card w).
    change (systime (chSysLockFromIsr cfg w)) with (systime w).
    destruct (Z.gtb_spec (cnt (mmc w)) 0) as [H | _]; [lia |].
    rewrite Hcard. reflexivity. }
  clearbody w1. subst w1.
  split; [reflexivity |]. split; [reflexivity |].
  split; [appended; reflexivity |].
  unfold mmcSequentialRead, mmcSequentialWrite.
  split; eexists; (split; [reflexivity | reflexivity]).
Qed.

Lemma removal_ends_a_transfer_witness :
  let cfg := stm32f4_config false in
  let w := system MMC_READING 0 [] (fun _ => false) (fun _ => 0xFE) in
  state (mmc (tmrfunc cfg 0 w)) = MMC_WAIT /\
  (exists w2, mmcSequentialRead cfg [] (tmrfunc cfg 0 w) = (TRUE, [], w2) /\
              spi_pos w2 = spi_pos w).
Proof.
  intros cfg w.
  destruct (removal_ends_a_transfer cfg 0 [] 0%nat w) as (S & _ & _ & R & _).
  - reflexivity.
  - reflexivity.
  - split; [exact S | exact R].
Defined.

(** [mmcStop], called in a state that passes its assertion (not
    [MMC_UNINIT], [MMC_READING] or [MMC_WRITING]), puts the driver in
    [MMC_STOP], where the assertion holds again. A second [mmcStop]
    changes neither the driver nor the timer list: it takes and releases
    the lock, stops the SPI driver again and does not touch the timer. *)
Theorem mmcStop_twice cfg w :
  mmcStop_pre w = true ->
  let w1 := mmcStop cfg w in
  let w2 := mmcStop cfg w1 in
  state (mmc w1) = MMC_STOP /\
  mmcStop_pre w1 = true /\
  mmc w2 = mmc w1 /\
  vtlist w2 = vtlist w1 /\
  map what (since w1 w2) = [EvLock; EvUnlock; EvSpiStop].
Proof.
  intros Hpre w1 w2.
  assert (S1 : state (mmc w1) = MMC_STOP).
  { subst w1. unfold mmcStop.
    change (state (mmc (chSysLock cfg w))) with (state (mmc w)).
    destruct (state (mmc w)) eqn:E; cbn [mmcstate_eqb negb]; world_fields;
      first [reflexivity | exact E]. }
  split; [exact S1 |].
  split; [unfold mmcStop_pre; rewrite S1; reflexivity |].
  subst w2. clearbody w1. unfold mmcStop.
  change (state (mmc (chSysLock cfg w1))) with (state (mmc w1)).
  rewrite S1. cbn [mmcstate_eqb negb].
  split; [reflexivity |]. split; [reflexivity |].
  appended. reflexivity.
Qed.

(** The monitor is running and its timer is armed. *)
Lemma mmcStop_twice_witness :
  let cfg := stm32f4_config false in
  let w := system MMC_WAIT 10
             [ {| vt_time := 10; vt_func := tmrfunc_cb; vt_par := 0 |} ]
             (fun _ => false) (fun _ => 0xFF) in
  state (mmc (mmcStop cfg w)) = MMC_STOP /\
  vtlist (mmcStop cfg w) = [] /\
  mmc (mmcStop cfg (mmcStop cfg w)) = mmc (mmcStop cfg w) /\
  vtlist (mmcStop cfg (mmcStop cfg w)) = vtlist (mmcStop cfg w).
Proof.
  intros cfg w.
  destruct (mmcStop_twice cfg w eq_refl) as (A & _ & B & C & _).
  split; [exact A |]. split; [reflexivity |]. split; [exact B | exact C].
Defined.

Lemma sync_loop_busy cfg fuel w :
  (forall i, spi_rx w (spi_pos w + i) <> 0xFF) ->
  sync_loop cfg fuel w = None.
Proof.
  revert w. induction fuel as [|n IH]; intros w Hb; [reflexivity |].
  cbn [sync_loop]. rewrite spiReceive_one. cbn [hd].
  assert (H0 := Hb 0%nat). rewrite Nat.add_0_r in H0.
  destruct (Z.eqb_spec (spi_rx w (spi_pos w)) 0xFF) as [E | _]; [tauto |].
  apply IH. intros i. unfold nice_sleep.
  destruct (MMC_NICE_WAITING cfg); cbn [spi_rx spi_pos set_spi_pos
                                           chThdSleep log];
    (replace (spi_pos w + 1 + i)%nat with (spi_pos w + S i)%nat by lia);
    apply Hb.
Qed.

(** [mmcDisconnect], called in a state that passes its assertion
    (neither [MMC_UNINIT] nor [MMC_STOP]), waits for the card in
    [MMC_READY] only. In the other states it returns at once, the driver
    unchanged and no byte clocked, having stopped the SPI driver. In
    [MMC_READY] with a card that never answers 0xFF it does not return,
    however long it is run. *)
Theorem mmcDisconnect_waits_in_ready_only cfg w :
  mmcDisconnect_pre w = true ->
  (state (mmc w) <> MMC_READY ->
   forall fuel,
     exists w', mmcDisconnect cfg fuel w = Some (TRUE, w') /\
                mmc w' = mmc w /\ spi_pos w' = spi_pos w /\
                map what (since w w') = [EvSpiStop]) /\
  (state (mmc w) = MMC_READY ->
   (forall i, spi_rx w (spi_pos w + i) <> 0xFF) ->
   forall fuel, mmcDisconnect cfg fuel w = None).
Proof.
  intros Hpre. split.
  - intros Hs fuel. unfold mmcDisconnect.
    unfold mmcDisconnect_pre in Hpre.
    destruct (state (mmc w)); try congruence; try discriminate Hpre;
      cbn [disconnect_label Nat.leb];
      eexists; (split; [reflexivity |]);
      (split; [reflexivity |]); (split; [reflexivity |]);
      appended; reflexivity.
  - intros Hs Hb fuel. unfold mmcDisconnect. rewrite Hs.
    cbn [disconnect_label Nat.leb]. unfold sync.
    rewrite sync_loop_busy; [reflexivity |].
    intros i. world_fields. apply Hb.
Qed.

Lemma mmcDisconnect_waits_in_ready_only_witness :
  let cfg := stm32f4_config false in
  let inserted := system MMC_INSERTED 0 [] (fun _ => true) (fun _ => 0) in
  let ready := system MMC_READY 0 [] (fun _ => true) (fun _ => 0) in
  (forall fuel, exists w', mmcDisconnect cfg fuel inserted = Some (TRUE, w')
                           /\ spi_pos w' = spi_pos inserted) /\
  (forall fuel, mmcDisconnect cfg fuel ready = None).
Proof.
  intros cfg inserted ready. split.
  - intros fuel.
    destruct (proj1 (mmcDisconnect_waits_in_ready_only cfg inserted eq_refl)
                ltac:(discriminate) fuel) as (w' & E & _ & P & _).
    exists w'. split; [exact E | exact P].
  - apply (proj2 (mmcDisconnect_waits_in_ready_only cfg ready eq_refl)).
    + reflexivity.
    + intros i. cbn. discriminate.
Defined.

End MMCStates.

Module I2CExtra.
Import ARM Sys Lock I2C I2COps MMCOps MMCOpsFacts.

(** In a build with neither mutexes nor semaphores the bus guard is
    empty: [i2cAcquireBus] returns at once and leaves the driver as it
    is, [i2cReleaseBus] wakes nobody, and every thread that asks for the
    bus becomes an owner next to the others. *)
Theorem no_guard_without_mutexes_and_semaphores cfg prio :
  CH_USE_MUTEXES cfg = false ->
  CH_USE_SEMAPHORES cfg = false ->
  (forall t d, i2cAcquireBus cfg t d = (d, true)) /\
  (forall t d, i2cReleaseBus cfg prio t d = (d, None)) /\
  (forall ts b,
     owners (run cfg prio (map Acquire ts) b) = owners b ++ ts /\
     driver (run cfg prio (map Acquire ts) b) = driver b).
Proof.
  intros Hm Hs.
  assert (A : forall t d, i2cAcquireBus cfg t d = (d, true)).
  { intros t d. unfold i2cAcquireBus. rewrite Hm, Hs. reflexivity. }
  split; [exact A |]. split.
  - intros t d. unfold i2cReleaseBus. rewrite Hm, Hs. reflexivity.
  - intros ts. induction ts as [|t ts IH]; intros b.
    + cbn [map run]. rewrite app_nil_r. split; reflexivity.
    + cbn [map run]. destruct (IH (step cfg prio (Acquire t) b)) as (Ho & Hd).
      rewrite Ho, Hd. unfold step. rewrite A. cbn [owners driver].
      rewrite <- app_assoc. split; reflexivity.
Qed.

Lemma no_guard_without_mutexes_and_semaphores_witness :
  owners (run bare_config (fun _ => 0) [Acquire 1%nat; Acquire 2%nat]
            (fresh bare_config))
  = [1; 2]%nat.
Proof.
  destruct (no_guard_without_mutexes_and_semaphores bare_config (fun _ => 0)
              eq_refl eq_refl) as (_ & _ & H).
  destruct (H [1; 2]%nat (fresh bare_config)) as (Ho & _).
  exact Ho.
Defined.

Lemma add_flags_errors masks d :
  errors (add_flags masks d) = fold_left Z.lor masks (errors d).
Proof.
  unfold add_flags. revert d.
  induction masks as [|m masks IH]; intros d; [reflexivity |].
  cbn [fold_left]. rewrite IH. reflexivity.
Qed.

Lemma add_flags_state masks d :
  std (add_flags masks d) = std d.
Proof.
  unfold add_flags. revert d.
  induction masks as [|m masks IH]; intros d; [reflexivity |].
  cbn [fold_left]. rewrite IH. reflexivity.
Qed.

Lemma fold_lor_testbit masks e i :
  0 <= i ->
  Z.testbit (fold_left Z.lor masks e) i
  = Z.testbit e i || existsb (fun m => Z.testbit m i) masks.
Proof.
  intros Hi. revert e.
  induction masks as [|m masks IH]; intros e.
  - cbn. rewrite orb_false_r. reflexivity.
  - cbn [fold_left existsb]. rewrite IH, Z.lor_spec, orb_assoc.
    reflexivity.
Qed.

(** The condition flags the interrupt handler adds with [i2cAddFlagsI]
    accumulate in the driver: [i2cGetAndClearFlags] returns a mask that
    has a bit set exactly when the bit was set before or in one of the
    masks added, and leaves [I2CD_NO_ERROR] behind, under the lock; a
    second call right after returns [I2CD_NO_ERROR]. The other fields of
    the driver are not touched. *)
Theorem flags_accumulate_until_read cfg no_error masks w d :
  let r := i2cGetAndClearFlags cfg no_error w (add_flags masks d) in
  let mask := fst (fst r) in
  let w' := snd (fst r) in
  let d' := snd r in
  (forall i, 0 <= i ->
     Z.testbit mask i
     = Z.testbit (errors d) i || existsb (fun m => Z.testbit m i) masks) /\
  errors d' = no_error /\
  std d' = std d /\
  map what (since w w') = [EvLock; EvUnlock] /\
  fst (fst (i2cGetAndClearFlags cfg no_error w' d')) = no_error.
Proof.
  intros r mask w' d'. subst mask w' d' r.
  unfold i2cGetAndClearFlags. cbn [fst snd].
  split.
  - intros i Hi. rewrite add_flags_errors. apply fold_lor_testbit. exact Hi.
  - split; [reflexivity |].
    split; [cbn [std set_errors]; apply add_flags_state |].
    split; [| reflexivity].
    erewrite since_app by (cbn; rewrite <- ?app_assoc; reflexivity).
    reflexivity.
Qed.

Lemma lifecycle_state cfg lld_start lld_stop cs :
  forall w d,
    i2cStart_pre d = true ->
    exists w' d',
      lifecycle cfg lld_start lld_stop cs w d = Some (w', d') /\
      i2cStart_pre d' = true /\
      id_state d' = match rev cs with
                    | [] => id_state d
                    | Start _ :: _ => I2C_READY
                    | Stop :: _ => I2C_STOP
                    end /\
      length (since w w') = (2 * length cs)%nat.
Proof.
  induction cs as [|c cs IH] using rev_ind; intros w d Hpre.
  - exists w, d. split; [reflexivity |]. split; [exact Hpre |].
    split; [reflexivity |]. unfold since. rewrite skipn_all. reflexivity.
  - destruct (IH w d Hpre) as (w1 & d1 & E1 & P1 & _ & L1).
    assert (Happ : forall cs1 cs2 w d,
              lifecycle cfg lld_start lld_stop (cs1 ++ cs2) w d
              = match lifecycle cfg lld_start lld_stop cs1 w d with
                | Some (w', d') =>
                    lifecycle cfg lld_start lld_stop cs2 w' d'
                | None => None
                end).
    { clear. induction cs1 as [|c1 cs1 IH1]; intros cs2 w d;
        [reflexivity |].
      cbn [app lifecycle]. destruct (i2cStart_pre d); [| reflexivity].
      destruct c1 as [c0 |].
      - destruct (i2cStart cfg lld_start c0 w d) as [w' d']. apply IH1.
      - destruct (i2cStop cfg lld_stop w d) as [w' d']. apply IH1. }
    rewrite Happ, E1. cbn [lifecycle]. rewrite P1.
    rewrite rev_app_distr. cbn [rev app].
    assert (Hlen : forall w2, trace w2 = trace (chSysUnlock cfg (chSysLock cfg w1)) ->
              length (since w w2) = (2 * length (cs ++ [c]))%nat).
    { intros w2 E2. unfold since in *. rewrite length_skipn in *.
      rewrite E2. cbn [trace chSysUnlock chSysLock _port_unlock _port_lock
                        log on_hw write].
      rewrite !length_app. cbn [length].
      assert (length (trace w) <= length (trace w1))%nat.
      { destruct (Nat.le_gt_cases (length (trace w)) (length (trace w1)))
          as [H | H]; [exact H |].
        destruct cs as [|c0 cs0]; [inversion E1; subst; lia |].
        cbn [length] in L1. lia. }
      lia. }
    destruct c.
    + unfold i2cStart. eexists; eexists. split; [reflexivity |].
      split; [reflexivity |]. split; [reflexivity |].
      apply Hlen. reflexivity.
    + unfold i2cStop. eexists; eexists. split; [reflexivity |].
      split; [reflexivity |]. split; [reflexivity |].
      apply Hlen. reflexivity.
Qed.

(** [i2cStart] and [i2cStop] assert that the driver is in [I2C_STOP] or
    [I2C_READY]. [i2cObjectInit] establishes the assertion and both
    calls keep it, whatever the low level driver does to the object: any
    sequence of the two calls on an initialized object passes every
    assertion, ends in [I2C_READY] after a start and in [I2C_STOP]
    after a stop, and each call makes its changes between one lock and
    one unlock. *)
Theorem start_and_stop_in_any_order cfg lld_start lld_stop cs w d0 :
  exists w' d',
    lifecycle cfg lld_start lld_stop cs w (i2cObjectInit cfg d0)
    = Some (w', d') /\
    id_state d' = match rev cs with
                  | Start _ :: _ => I2C_READY
                  | _ => I2C_STOP
                  end /\
    length (since w w') = (2 * length cs)%nat.
Proof.
  assert (Hinit : id_state (i2cObjectInit cfg d0) = I2C_STOP).
  { unfold i2cObjectInit. destruct (CH_USE_MUTEXES cfg); reflexivity. }
  destruct (lifecycle_state cfg lld_start lld_stop cs w
              (i2cObjectInit cfg d0)) as (w' & d' & E & _ & S & L).
  { unfold i2cStart_pre. rewrite Hinit. reflexivity. }
  exists w', d'. split; [exact E |]. split; [| exact L].
  rewrite S, Hinit. destruct (rev cs) as [|[c|] l]; reflexivity.
Qed.

End I2CExtra.
